(** * contindex: segmentation, descriptive naming and index synchronisation

    A shallow embedding of the decision logic of the contindex command line
    tool (packages [classifier], [validation], [config], [template] and
    [cmd]) together with the properties its design document states about it
    and further properties of the code.

    Go strings are byte sequences; they are modelled as [list ascii], one
    [ascii] per byte.  Go [int] values that occur here are lengths and
    counters bounded by the size of the input, they are modelled in [Z]
    (or [nat] where they only index a list). *)

From Stdlib Require Import Ascii String ZArith Lia Bool Arith List.
From Stdlib Require Import Permutation Sorted Orders Mergesort DecimalString.
From Stdlib Require Import Floats Uint63.
Import ListNotations.

Set Implicit Arguments.

(** ** The Go standard library functions the program calls *)

Module Go.

Definition gostring := list ascii.

(** A string literal of the source. *)
Definition lit (s : string) : gostring := list_ascii_of_string s.
Arguments lit s%_string.

(** [len(s)]: the number of bytes. *)
Definition len (s : gostring) : Z := Z.of_nat (length s).

Definition byte (n : N) : ascii := ascii_of_N n.

(** [s == t] on strings. *)
Fixpoint eqs (s t : gostring) : bool :=
  match s, t with
  | [], [] => true
  | c :: s', d :: t' => Ascii.eqb c d && eqs s' t'
  | _, _ => false
  end.

(** [strings.HasPrefix(s, prefix)] *)
Fixpoint HasPrefix (s prefix : gostring) {struct prefix} : bool :=
  match prefix with
  | [] => true
  | p :: ps =>
      match s with
      | [] => false
      | c :: cs => Ascii.eqb c p && HasPrefix cs ps
      end
  end.

(** [strings.HasSuffix(s, suffix)] *)
Definition HasSuffix (s suffix : gostring) : bool :=
  HasPrefix (rev s) (rev suffix).

(** [strings.TrimSuffix(s, suffix)] *)
Definition TrimSuffix (s suffix : gostring) : gostring :=
  if HasSuffix s suffix then firstn (length s - length suffix) s else s.

(** [strings.Contains(s, substr)] *)
Fixpoint Contains (s substr : gostring) : bool :=
  HasPrefix s substr ||
  match s with
  | [] => false
  | _ :: t => Contains t substr
  end.

(** [strings.Join(elems, sep)] *)
Fixpoint Join (elems : list gostring) (sep : gostring) : gostring :=
  match elems with
  | [] => []
  | [x] => x
  | x :: rest => x ++ sep ++ Join rest sep
  end.

(** [strings.ReplaceAll(s, old, new)] for a non-empty [old]: the
    non-overlapping occurrences of [old], found from the left, are each
    replaced by [new].  [skip] counts the bytes of an occurrence that was
    just replaced and that are still to be passed over.  Every call of the
    program passes a non-empty literal as [old]; the empty pattern (which
    in Go inserts [new] around every rune) is outside this model and
    leaves [s] as it is. *)
Fixpoint replaceFrom (old new : gostring) (skip : nat) (s : gostring) : gostring :=
  match s with
  | [] => []
  | c :: t =>
      match skip with
      | S k => replaceFrom old new k t
      | O =>
          if HasPrefix s old
          then new ++ replaceFrom old new (length old - 1) t
          else c :: replaceFrom old new 0 t
      end
  end.

Definition ReplaceAll (s old new : gostring) : gostring :=
  match old with
  | [] => s
  | _ :: _ => replaceFrom old new 0 s
  end.

(** [strings.TrimLeft(s, cutset)] and [strings.Trim(s, cutset)] for a cutset
    of ASCII bytes. *)
Definition inCutset (cutset : gostring) (c : ascii) : bool :=
  existsb (Ascii.eqb c) cutset.

Fixpoint dropWhile (A : Type) (p : A -> bool) (l : list A) : list A :=
  match l with
  | [] => []
  | x :: t => if p x then dropWhile p t else l
  end.

Definition TrimLeft (s cutset : gostring) : gostring :=
  dropWhile (inCutset cutset) s.

Definition TrimRight (s cutset : gostring) : gostring :=
  rev (dropWhile (inCutset cutset) (rev s)).

Definition Trim (s cutset : gostring) : gostring :=
  TrimRight (TrimLeft s cutset) cutset.

(** *** White space

    [unicode.IsSpace] holds of the six ASCII characters below, of U+0085 and
    U+00A0, and of the characters of category Z and property
    Pattern_White_Space: U+1680, U+2000 to U+200A, U+2028, U+2029, U+202F,
    U+205F and U+3000.  The table lists their UTF-8 encodings.  An encoding
    of the table starts with an ASCII byte or a UTF-8 lead byte, so wherever
    one of them occurs in a string, the decoder is at a rune boundary and
    decodes that character: white space can be recognised on the bytes. *)
Definition unicodeSpaces : list gostring :=
  map (map byte)
    [ [9]; [10]; [11]; [12]; [13]; [32];
      [0xC2; 0x85]; [0xC2; 0xA0];
      [0xE1; 0x9A; 0x80];
      [0xE2; 0x80; 0x80]; [0xE2; 0x80; 0x81]; [0xE2; 0x80; 0x82];
      [0xE2; 0x80; 0x83]; [0xE2; 0x80; 0x84]; [0xE2; 0x80; 0x85];
      [0xE2; 0x80; 0x86]; [0xE2; 0x80; 0x87]; [0xE2; 0x80; 0x88];
      [0xE2; 0x80; 0x89]; [0xE2; 0x80; 0x8A];
      [0xE2; 0x80; 0xA8]; [0xE2; 0x80; 0xA9]; [0xE2; 0x80; 0xAF];
      [0xE2; 0x81; 0x9F];
      [0xE3; 0x80; 0x80] ]%N.

(** The number of bytes of the white space character [s] starts with,
    0 when it starts with none. *)
Definition spaceWidth (s : gostring) : nat :=
  match find (HasPrefix s) unicodeSpaces with
  | Some e => length e
  | None => 0
  end.

(** [spaceMask 0 s] marks the bytes of [s] that belong to a white space
    character. *)
Fixpoint spaceMask (skip : nat) (s : gostring) : list bool :=
  match s with
  | [] => []
  | _ :: t =>
      match skip with
      | S k => true :: spaceMask k t
      | O =>
          match spaceWidth s with
          | O => false :: spaceMask 0 t
          | S k => true :: spaceMask k t
          end
      end
  end.

Definition marked (s : gostring) : list (ascii * bool) :=
  combine s (spaceMask 0 s).

(** [strings.TrimSpace(s)] *)
Definition TrimSpace (s : gostring) : gostring :=
  map fst (rev (dropWhile snd (rev (dropWhile snd (marked s))))).

(** [strings.Fields(s)]: the maximal runs of bytes outside white space. *)
Fixpoint fieldsOf (cur : gostring) (l : list (ascii * bool)) : list gostring :=
  match l with
  | [] => match cur with [] => [] | _ :: _ => [cur] end
  | (c, true) :: t =>
      match cur with [] => fieldsOf [] t | _ :: _ => cur :: fieldsOf [] t end
  | (c, false) :: t => fieldsOf (cur ++ [c]) t
  end.

Definition Fields (s : gostring) : list gostring := fieldsOf [] (marked s).

(** *** Case mapping

    [strings.ToLower(s)] maps the bytes 'A'..'Z' of an ASCII string to
    'a'..'z'.  On a string with a byte above 127 it applies the Unicode
    case tables rune by rune; those tables are not part of the program and
    are taken as the parameter [unicodeLower]. *)
Definition isASCII (s : gostring) : bool :=
  forallb (fun c => (N_of_ascii c <? 128)%N) s.

Definition lowerByte (c : ascii) : ascii :=
  let n := N_of_ascii c in
  if ((65 <=? n) && (n <=? 90))%N then ascii_of_N (n + 32) else c.

Definition ToLower (unicodeLower : gostring -> gostring) (s : gostring) : gostring :=
  if isASCII s then map lowerByte s else unicodeLower s.

(** *** Formatting: the verb [%d] of [fmt.Sprintf] on a non-negative int *)
Definition FormatInt (n : nat) : gostring :=
  lit (NilZero.string_of_uint (Nat.to_uint n)).

(** *** [bufio.Scanner] with the default split function [ScanLines]

    The text is cut at every line feed; a last piece without line feed is a
    line when it is not empty.  A token must fit the scanner's buffer, whose
    size is capped at [MaxScanTokenSize]: a line of that many bytes or more
    (counted before its line feed) makes [Scan] return false with
    [ErrTooLong], and the lines before it have been delivered.  One carriage
    return at the end of a delivered line is dropped. *)
Definition MaxScanTokenSize : Z := 64 * 1024.

Fixpoint rawLines (cur : gostring) (s : gostring) : list gostring :=
  match s with
  | [] => match cur with [] => [] | _ :: _ => [cur] end
  | c :: t =>
      if Ascii.eqb c (byte 10) then cur :: rawLines [] t
      else rawLines (cur ++ [c]) t
  end.

Definition dropCR (l : gostring) : gostring :=
  match rev l with
  | c :: r => if Ascii.eqb c (byte 13) then rev r else l
  | [] => l
  end.

(** The lines [Scan] delivers, and whether scanning stopped with an error. *)
Fixpoint deliver (raw : list gostring) : list gostring * bool :=
  match raw with
  | [] => ([], false)
  | l :: rest =>
      if (MaxScanTokenSize <=? len l)%Z then ([], true)
      else let (ls, e) := deliver rest in (dropCR l :: ls, e)
  end.

Definition ScanLines (s : gostring) : list gostring * bool :=
  deliver (rawLines [] s).

(** *** Integer division: dividing by zero is a run-time panic. *)
Definition quo (a b : Z) : option Z :=
  if (b =? 0)%Z then None else Some (Z.quot a b).

(** *** [regexp.MatchString(pattern, s)]

    Every pattern of the program is an alternation [a|b|c] of literals that
    hold no other metacharacter.  Such a pattern matches, unanchored, when
    one of its alternatives occurs in [s]. *)
Fixpoint splitAt (sep : ascii) (cur : gostring) (s : gostring) : list gostring :=
  match s with
  | [] => [cur]
  | c :: t =>
      if Ascii.eqb c sep then cur :: splitAt sep [] t
      else splitAt sep (cur ++ [c]) t
  end.

Definition alternatives (pattern : gostring) : list gostring :=
  splitAt "|"%char [] pattern.

Definition MatchString (pattern s : gostring) : bool :=
  existsb (Contains s) (alternatives pattern).

(** *** Errors: [errors.New], and [fmt.Errorf] with the verb [%w] *)
Inductive error : Type :=
  | New (msg : string)
  | Wrap (msg : string) (cause : error).

Inductive result (A : Type) : Type :=
  | Ok (a : A)
  | Err (e : error).
Arguments Ok {A} a.
Arguments Err {A} e.

Definition ErrTooLong : error := New "bufio.Scanner: token too long".

(** *** [os.ReadDir]: the entries of a directory, sorted by file name.
    Strings are compared byte by byte. *)
Record DirEntry : Type := { Name : gostring; IsDir : bool }.

Fixpoint leStr (s t : gostring) : bool :=
  match s, t with
  | [], _ => true
  | _ :: _, [] => false
  | c :: s', d :: t' =>
      (N_of_ascii c <? N_of_ascii d)%N ||
      ((N_of_ascii c =? N_of_ascii d)%N && leStr s' t')
  end.

(** *** [filepath.Ext(path)], where the path separator is the slash: the
    suffix of the last element of [path] that starts at its last dot, empty
    when that element holds no dot.  [extFrom] is the loop that walks from
    the end of the path; [seen] holds the bytes passed. *)
Fixpoint extFrom (reversed seen : gostring) : gostring :=
  match reversed with
  | [] => []
  | c :: before =>
      if Ascii.eqb c "/"%char then []
      else if Ascii.eqb c "."%char then c :: seen
      else extFrom before (c :: seen)
  end.

Definition Ext (path : gostring) : gostring := extFrom (rev path) [].

(** *** [filepath.Base(path)], where the path separator is the slash: the
    last element of [path], after the slashes at its end have been
    dropped; a dot for the empty path and a slash for a path of slashes
    only. *)
Definition isSlash (c : ascii) : bool := Ascii.eqb c "/"%char.

Fixpoint takeWhile (A : Type) (p : A -> bool) (l : list A) : list A :=
  match l with
  | [] => []
  | x :: t => if p x then x :: takeWhile p t else []
  end.

Definition Base (path : gostring) : gostring :=
  match path with
  | [] => lit "."
  | _ :: _ =>
      let stripped := dropWhile isSlash (rev path) in
      match takeWhile (fun c => negb (isSlash c)) stripped with
      | [] => lit "/"
      | c :: element => rev (c :: element)
      end
  end.

(** A Go string as the verb [%s] writes it into a message. *)
Definition text (s : gostring) : string := string_of_list_ascii s.

End Go.

Module EntryOrder <: TotalLeBool.
Definition t := Go.DirEntry.
Definition leb (x y : t) : bool := Go.leStr (Go.Name x) (Go.Name y).
Lemma leStr_total : forall s u, Go.leStr s u = true \/ Go.leStr u s = true.
Proof.
  induction s as [|c s IH]; intros [|d u]; simpl; auto.
  destruct (N.ltb_spec (N_of_ascii c) (N_of_ascii d)); simpl; auto.
  destruct (N.ltb_spec (N_of_ascii d) (N_of_ascii c)); simpl; auto.
  assert (E : N_of_ascii c = N_of_ascii d) by lia.
  rewrite E, N.eqb_refl; simpl. apply IH.
Qed.
Lemma leb_total : forall x y : t, leb x y = true \/ leb y x = true.
Proof. intros x y. apply leStr_total. Qed.
End EntryOrder.

Module EntrySort := Sort EntryOrder.

Module Os.
Import Go.

(** [dir] holds the entries as the file system stores them, or the error
    that reading the directory raises. *)
Definition ReadDir (dir : result (list DirEntry)) : result (list DirEntry) :=
  match dir with
  | Ok entries => Ok (EntrySort.sort entries)
  | Err e => Err e
  end.

(** [os.Stat(path)] returns the state of the file, or an error that
    [os.IsNotExist] recognises, or another error. *)
Module FileInfo.
Record t : Type := { IsDir : bool; Size : Z }.
End FileInfo.

Inductive status : Type :=
  | Info (info : FileInfo.t)
  | NotExist (e : error)
  | Failed (e : error).

(** What the file system answers to the calls of the program: [os.Stat],
    [os.Open], [os.ReadFile], and the entries a directory holds. *)
Record FileSystem : Type := {
  Stat : gostring -> status;
  Open : gostring -> option error;
  ReadFile : gostring -> result gostring;
  Entries : gostring -> result (list DirEntry)
}.

End Os.

(** ** Package validation *)

Module Validation.
Import Go.

Definition MaxFileNameLength : Z := 100.

(** [multipleDashPattern.ReplaceAllString(name, "-")] with the pattern
    [-+]: every run of dashes becomes one dash. *)
Fixpoint collapseDashes (s : gostring) : gostring :=
  match s with
  | [] => []
  | c :: t =>
      match t with
      | d :: _ =>
          if Ascii.eqb c "-"%char && Ascii.eqb d "-"%char
          then collapseDashes t
          else c :: collapseDashes t
      | [] => [c]
      end
  end.

(** The characters [SanitizeFileName] replaces, in the order of its calls:
    slash, backslash, colon, star, question mark, double quote, less-than,
    greater-than and the bar. *)
Definition unsafeChars : list ascii :=
  [ "/"%char; byte 92; ":"%char; "*"%char; "?"%char; byte 34;
    "<"%char; ">"%char; "|"%char ].

Definition replaceUnsafe (name : gostring) : gostring :=
  fold_left (fun n c => ReplaceAll n [c] (lit "-")) unsafeChars name.

Definition SanitizeFileName (name : gostring) : gostring :=
  let name := replaceUnsafe name in
  let name := collapseDashes name in
  let name := Trim name (lit "-") in
  let name :=
    if (MaxFileNameLength <? len name)%Z
    then firstn (Z.to_nat MaxFileNameLength) name else name in
  match name with
  | [] => lit "unnamed"
  | _ :: _ => name
  end.

(** *** Paths *)

Definition MaxPathLength : Z := 255.
Definition MaxMarkdownFileSize : Z := 50 * 1024 * 1024.
Definition MaxProjectNameLength : Z := 100.
Definition MaxTemplateNameLength : Z := 50.
Definition MaxCategoryNameLength : Z := 30.
Definition CheckBytesLength : Z := 512.

Definition dangerousChars : list gostring :=
  map lit [";"; "&"; "|"; "`"; "$"; "("; ")"; "{"; "}"; "["; "]"]%string.

Definition validatePathCommon (path : gostring) (pathType : string) : option error :=
  match TrimSpace path with
  | [] => Some (New (pathType ++ " path cannot be empty"))
  | _ :: _ =>
      if Contains path (lit "..")
      then Some (New ("path traversal not allowed: " ++ text path))
      else
        match find (fun char => Contains path char) dangerousChars with
        | Some char =>
            Some (New ("dangerous character '" ++ text char ++
                       "' not allowed in path: " ++ text path))
        | None =>
            if (MaxPathLength <? len path)%Z
            then Some (New ("path too long (max 255 characters): " ++ text path))
            else None
        end
  end.

Definition ValidateFilePath (path : gostring) : option error :=
  validatePathCommon path "file".

Definition ValidateDirectoryPath (path : gostring) : option error :=
  validatePathCommon path "directory".

(** *** Names

    The three patterns have the form [^[class]+$]: they match a text that
    is not empty and all of whose characters are in the class.  The classes
    hold ASCII characters only, so a text with a byte above 127 does not
    match.  The class [\s] of the package regexp holds the tab, the line
    feed, the form feed, the carriage return and the space. *)
Definition between (lo hi : N) (c : ascii) : bool :=
  ((lo <=? N_of_ascii c) && (N_of_ascii c <=? hi))%N.

Definition lowerLetter : ascii -> bool := between 97 122.
Definition upperLetter : ascii -> bool := between 65 90.
Definition digit : ascii -> bool := between 48 57.

Definition regexpSpace (c : ascii) : bool :=
  existsb (Ascii.eqb c) (map byte [9; 10; 12; 13; 32]%N).

Definition projectNameChar (c : ascii) : bool :=
  lowerLetter c || upperLetter c || digit c || regexpSpace c ||
  Ascii.eqb c "_"%char || Ascii.eqb c "-"%char.

Definition templateNameChar (c : ascii) : bool :=
  lowerLetter c || upperLetter c || digit c || Ascii.eqb c "-"%char.

Definition categoryNameChar (c : ascii) : bool :=
  lowerLetter c || digit c || Ascii.eqb c "-"%char.

Definition matchClass (class : ascii -> bool) (s : gostring) : bool :=
  match s with
  | [] => false
  | _ :: _ => forallb class s
  end.

Definition ValidateProjectName (name : gostring) : option error :=
  match TrimSpace name with
  | [] => Some (New "project name cannot be empty")
  | _ :: _ =>
      if (MaxProjectNameLength <? len name)%Z
      then Some (New "project name too long (max 100 characters)")
      else if negb (matchClass projectNameChar name)
      then Some (New "invalid project name: must contain only letters, numbers, spaces, dashes, and underscores")
      else None
  end.

Definition ValidateTemplateName (name : gostring) : option error :=
  match TrimSpace name with
  | [] => Some (New "template name cannot be empty")
  | _ :: _ =>
      if negb (matchClass templateNameChar name)
      then Some (New "invalid template name: must contain only letters, numbers, and dashes")
      else if (MaxTemplateNameLength <? len name)%Z
      then Some (New "template name too long (max 50 characters)")
      else None
  end.

Definition ValidateCategoryName (name : gostring) : option error :=
  match TrimSpace name with
  | [] => Some (New "category name cannot be empty")
  | _ :: _ =>
      if negb (matchClass categoryNameChar name)
      then Some (New "invalid category name: must contain only lowercase letters, numbers, and dashes")
      else if (MaxCategoryNameLength <? len name)%Z
      then Some (New "category name too long (max 30 characters)")
      else None
  end.

(** *** Binary content

    [BinaryThreshold] is the constant 0.3; in the comparison with a
    [float64] it is the nearest binary64 number, written here in
    hexadecimal.  [float64(n)] of an [int] is exact below 2^53. *)
Definition BinaryThreshold : float := 0x1.3333333333333p-2%float.

Definition float64 (n : Z) : float := PrimFloat.of_uint63 (Uint63.of_Z n).

Definition isControl (c : ascii) : bool :=
  let n := N_of_ascii c in
  ((n =? 0) || ((n <? 32) && negb (n =? 9) && negb (n =? 10) && negb (n =? 13)))%N.

(** The loop over the first [checkLen] bytes. *)
Fixpoint controlChars (checkLen : nat) (content : gostring) : Z :=
  match checkLen, content with
  | S k, c :: rest =>
      ((if isControl c then 1 else 0) + controlChars k rest)%Z
  | _, _ => 0%Z
  end.

Definition isBinaryContent (content : gostring) : bool :=
  let checkLen :=
    if (len content <? CheckBytesLength)%Z then len content else CheckBytesLength in
  if (checkLen =? 0)%Z then false
  else
    PrimFloat.ltb BinaryThreshold
      (PrimFloat.div (float64 (controlChars (Z.to_nat checkLen) content))
                     (float64 checkLen)).

(** *** Files *)

Section Files.

Variable unicodeLower : gostring -> gostring.
Variable fs : Os.FileSystem.

Definition ValidateFileExists (path : gostring) : option error :=
  match ValidateFilePath path with
  | Some e => Some e
  | None =>
      match Os.Stat fs path with
      | Os.NotExist _ => Some (New ("file does not exist: " ++ text path))
      | Os.Failed e => Some (Wrap ("cannot access file: " ++ text path) e)
      | Os.Info info =>
          if Os.FileInfo.IsDir info
          then Some (New ("path is a directory, not a file: " ++ text path))
          else
            match Os.Open fs path with
            | Some e => Some (Wrap ("file is not readable: " ++ text path) e)
            | None => None
            end
      end
  end.

Definition ValidateMarkdownFile (path : gostring) : option error :=
  match ValidateFileExists path with
  | Some e => Some e
  | None =>
      let ext := ToLower unicodeLower (Ext path) in
      if negb (eqs ext (lit ".md")) && negb (eqs ext (lit ".markdown"))
      then Some (New ("file is not a markdown file: " ++ text path))
      else
        match Os.Stat fs path with
        | Os.Info info =>
            if (MaxMarkdownFileSize <? Os.FileInfo.Size info)%Z
            then Some (New ("markdown file too large (max 50MB): " ++ text path))
            else
              match Os.ReadFile fs path with
              | Err e => Some (Wrap ("cannot read file: " ++ text path) e)
              | Ok content =>
                  if isBinaryContent content
                  then Some (New ("file appears to be binary, not text: " ++ text path))
                  else None
              end
        | Os.NotExist e | Os.Failed e =>
            Some (Wrap ("cannot get file info: " ++ text path) e)
        end
  end.

End Files.

End Validation.

(** ** Package classifier *)

Module ContentSection.
Record t : Type := {
  Title : Go.gostring;
  Content : Go.gostring;
  StartLine : Z;
  EndLine : Z;
  WordCount : Z
}.
End ContentSection.

Module ContextFile.
Record t : Type := {
  FileName : Go.gostring;
  Content : Go.gostring;
  WordCount : Z;
  TokenCount : Z;
  Summary : Go.gostring;
  KeyTerms : list Go.gostring
}.
End ContextFile.

Module Classifier.
Import Go.

Definition MinWordCountForFile : Z := 10.
Definition MaxDescriptiveLength : Z := 60.
Definition TokenEstimationRatio : Z := 4.

(** *** parseSourceFile *)

(** The variables of the scanning loop. *)
Record parser : Type := {
  sections : list ContentSection.t;
  currentSection : option ContentSection.t;
  contentBuffer : gostring;
  lineNum : Z
}.

Definition start : parser :=
  {| sections := []; currentSection := None; contentBuffer := []; lineNum := 0 |}.

(** A line opens a section when its trimmed form starts with two header
    markers. *)
Definition isHeader (line : gostring) : bool :=
  HasPrefix (TrimSpace line) (lit "##").

(** Closing the current section: the buffer becomes its content, and the
    section is appended when it has enough words. *)
Definition closeSection (secs : list ContentSection.t) (cur : ContentSection.t)
    (buffer : gostring) (endLine : Z) : list ContentSection.t :=
  let content := TrimSpace buffer in
  let closed :=
    {| ContentSection.Title := ContentSection.Title cur;
       ContentSection.Content := content;
       ContentSection.StartLine := ContentSection.StartLine cur;
       ContentSection.EndLine := endLine;
       ContentSection.WordCount := Z.of_nat (length (Fields content)) |} in
  if (MinWordCountForFile <=? ContentSection.WordCount closed)%Z
  then secs ++ [closed] else secs.

Definition flush (p : parser) (endLine : Z) : list ContentSection.t :=
  match currentSection p with
  | Some cur => closeSection (sections p) cur (contentBuffer p) endLine
  | None => sections p
  end.

(** One turn of the loop [for scanner.Scan()]. *)
Definition scanLine (p : parser) (line : gostring) : parser :=
  let n := (lineNum p + 1)%Z in
  if isHeader line then
    {| sections := flush p (n - 1);
       currentSection :=
         Some {| ContentSection.Title := TrimSpace (TrimLeft line (lit "#"));
                 ContentSection.Content := [];
                 ContentSection.StartLine := n;
                 ContentSection.EndLine := 0;
                 ContentSection.WordCount := 0 |};
       contentBuffer := [];
       lineNum := n |}
  else
    match currentSection p with
    | Some _ =>
        {| sections := sections p;
           currentSection := currentSection p;
           contentBuffer := contentBuffer p ++ line ++ [byte 10];
           lineNum := n |}
    | None =>
        {| sections := sections p;
           currentSection := None;
           contentBuffer := contentBuffer p;
           lineNum := n |}
    end.

(** The loop over the delivered lines, then the final section. *)
Definition parseLines (lines : list gostring) : list ContentSection.t :=
  let p := fold_left scanLine lines start in
  flush p (lineNum p).

(** [file] is what [os.ReadFile(fa.SourceFile)] returns.  The sections are
    stored only when the scanner reports no error. *)
Definition parseSourceFile (file : result gostring) : result (list ContentSection.t) :=
  match file with
  | Err e => Err (Wrap "failed to read file" e)
  | Ok content =>
      let (lines, failed) := ScanLines content in
      let secs := parseLines lines in
      if failed then Err (Wrap "error scanning file" ErrTooLong)
      else Ok secs
  end.

(** *** generateDescriptiveFileName *)

Definition stopWords : list gostring :=
  map lit ["the"; "and"; "or"; "but"; "in"; "on"; "at"; "to"; "for"; "of";
           "with"; "by"]%string.

Definition techPatterns : list (gostring * gostring) :=
  [ (lit "postgresql|postgres|pg", lit "postgresql");
    (lit "mongodb|mongo", lit "mongodb");
    (lit "redis", lit "redis");
    (lit "kubernetes|k8s", lit "kubernetes");
    (lit "docker", lit "docker");
    (lit "jwt|oauth", lit "oauth");
    (lit "stripe|payment", lit "payments");
    (lit "webhook", lit "webhooks");
    (lit "graphql|gql", lit "graphql");
    (lit "rest|api", lit "rest-api") ].

Definition funcPatterns : list (gostring * gostring) :=
  [ (lit "authentication|auth|login", lit "authentication");
    (lit "authorization|permission", lit "authorization");
    (lit "database|schema|model", lit "database");
    (lit "deployment|deploy|production", lit "deployment");
    (lit "monitoring|metrics|logging", lit "monitoring");
    (lit "security|encryption|compliance", lit "security");
    (lit "testing|test|spec", lit "testing");
    (lit "configuration|config|setup", lit "configuration") ].

(** [techPatterns] and [funcPatterns] are Go maps.  A [range] over a map
    visits its entries in an order the run time chooses anew for every
    loop; [MapOrder] holds the two orders chosen for one call of
    [generateDescriptiveFileName]. *)
Record MapOrder : Type := {
  techOrder : list (gostring * gostring);
  funcOrder : list (gostring * gostring)
}.

Definition rangeOrder (o : MapOrder) : Prop :=
  Permutation (techOrder o) techPatterns /\ Permutation (funcOrder o) funcPatterns.

(** The order in which the source lists the entries. *)
Definition declared : MapOrder :=
  {| techOrder := techPatterns; funcOrder := funcPatterns |}.

(** The loop [for pattern, descriptor := range m] that returns the
    descriptor of the first entry visited whose pattern matches. *)
Definition firstMatch (visit : list (gostring * gostring)) (content : gostring) : gostring :=
  match find (fun e => MatchString (fst e) content) visit with
  | Some e => snd e
  | None => []
  end.

Definition extractTechnologyDescriptor (o : MapOrder) (content : gostring) : gostring :=
  firstMatch (techOrder o) content.

Definition extractFunctionDescriptor (o : MapOrder) (content : gostring) : gostring :=
  firstMatch (funcOrder o) content.

Section Analyzer.

Variable unicodeLower : gostring -> gostring.

Definition isStopWord (word : gostring) : bool :=
  existsb (eqs word) stopWords.

Definition extractTitleDescriptor (title : gostring) : gostring :=
  let title := ToLower unicodeLower title in
  let words := Fields title in
  let meaningful :=
    filter (fun word => negb (isStopWord word) && (2 <? len word)%Z) words in
  let meaningful :=
    if (3 <? Z.of_nat (length meaningful))%Z then firstn 3 meaningful
    else meaningful in
  Join meaningful (lit "-").

(** [append] of a descriptor that is not empty. *)
Definition addDescriptor (descriptors : list gostring) (d : gostring) : list gostring :=
  match d with
  | [] => descriptors
  | _ :: _ => descriptors ++ [d]
  end.

Definition generateDescriptiveFileName (o : MapOrder) (section : ContentSection.t) : gostring :=
  let content :=
    ToLower unicodeLower
      (ContentSection.Title section ++ lit " " ++ ContentSection.Content section) in
  let descriptors := addDescriptor [] (extractTitleDescriptor (ContentSection.Title section)) in
  let descriptors := addDescriptor descriptors (extractTechnologyDescriptor o content) in
  let descriptors := addDescriptor descriptors (extractFunctionDescriptor o content) in
  let fileName := Join descriptors (lit "-") in
  let fileName := Validation.SanitizeFileName fileName in
  let fileName :=
    if (MaxDescriptiveLength <? len fileName)%Z
    then firstn (Z.to_nat MaxDescriptiveLength) fileName else fileName in
  let fileName :=
    match fileName with
    | [] => lit "general-context"
    | _ :: _ => fileName
    end in
  fileName ++ lit ".md".

(** *** extractKeyTerms and generateContentSummary *)

Definition termPatterns : list gostring :=
  map lit ["api"; "endpoint"; "database"; "schema"; "authentication";
           "authorization"; "security"; "deployment"; "monitoring"; "testing";
           "configuration"; "jwt"; "oauth"; "postgresql"; "mongodb"; "redis";
           "kubernetes"; "docker"]%string.

Definition extractKeyTerms (section : ContentSection.t) : list gostring :=
  let content := ToLower unicodeLower (ContentSection.Content section) in
  filter (fun term => Contains content term) termPatterns.

(** [strings.Split(content, ".")[0]]: the text before the first full stop. *)
Fixpoint firstSentence (s : gostring) : gostring :=
  match s with
  | [] => []
  | c :: t => if Ascii.eqb c "."%char then [] else c :: firstSentence t
  end.

Definition generateContentSummary (section : ContentSection.t) : gostring :=
  let content := ContentSection.Content section in
  let sentence := firstSentence content in
  if (10 <? len sentence)%Z then
    let summary := TrimSpace sentence in
    if (100 <? len summary)%Z then firstn 100 summary ++ lit "..." else summary
  else if (100 <? len content)%Z then firstn 100 content ++ lit "..."
  else content.

(** *** generateContextFiles

    [orders i] is the pair of map orders the run time uses for the section
    of index [i]. *)
Definition contextFileOf (o : MapOrder) (section : ContentSection.t) : ContextFile.t :=
  {| ContextFile.FileName := generateDescriptiveFileName o section;
     ContextFile.Content := ContentSection.Content section;
     ContextFile.WordCount := ContentSection.WordCount section;
     ContextFile.TokenCount :=
       Z.quot (len (ContentSection.Content section)) TokenEstimationRatio;
     ContextFile.Summary := generateContentSummary section;
     ContextFile.KeyTerms := extractKeyTerms section |}.

Fixpoint generateFrom (orders : nat -> MapOrder) (i : nat)
    (secs : list ContentSection.t) : list ContextFile.t :=
  match secs with
  | [] => []
  | section :: rest =>
      contextFileOf (orders i) section :: generateFrom orders (S i) rest
  end.

Definition generateContextFiles (orders : nat -> MapOrder)
    (secs : list ContentSection.t) : list ContextFile.t :=
  generateFrom orders 0 secs.

(** *** AnalyzeAndGenerate

    [validated] is the outcome of [validation.ValidateMarkdownFile] on the
    source path, [file] the outcome of reading it. *)
Definition AnalyzeAndGenerate (orders : nat -> MapOrder) (validated : option error)
    (file : result gostring) : result (list ContextFile.t) :=
  match validated with
  | Some e => Err (Wrap "invalid source file" e)
  | None =>
      match parseSourceFile file with
      | Err e => Err (Wrap "failed to parse source file" e)
      | Ok secs => Ok (generateContextFiles orders secs)
      end
  end.

End Analyzer.

End Classifier.

(** ** Package config *)

Module TemplateConfig.
Record t : Type := {
  MainFile : Go.gostring;
  SubDir : Go.gostring
}.
End TemplateConfig.

Module ProjectConfig.
Record t : Type := {
  ContextDir : Go.gostring;
  Template : Go.gostring;
  MainFile : Go.gostring;
  ProjectRoot : Go.gostring
}.
End ProjectConfig.

Module Config.
Import Go.

Definition ErrUnsupportedTemplate : string := "unsupported template".

Definition SupportedTemplates : list gostring :=
  map lit ["generic"; "claude"; "cursor"; "copilot"; "gemini"]%string.

(** [TemplateConfigs] is a Go map that is only indexed, never ranged
    over. *)
Definition TemplateConfigs : list (gostring * TemplateConfig.t) :=
  [ (lit "generic",
     {| TemplateConfig.MainFile := lit "template.md"; TemplateConfig.SubDir := [] |});
    (lit "claude",
     {| TemplateConfig.MainFile := lit "CLAUDE.md"; TemplateConfig.SubDir := [] |});
    (lit "cursor",
     {| TemplateConfig.MainFile := lit "AGENTS.md"; TemplateConfig.SubDir := [] |});
    (lit "copilot",
     {| TemplateConfig.MainFile := lit "copilot-instructions.md";
        TemplateConfig.SubDir := lit ".github" |});
    (lit "gemini",
     {| TemplateConfig.MainFile := lit "GEMINI.md"; TemplateConfig.SubDir := [] |}) ].

(** [TemplateConfigs[template]]: the zero value for a key the map does not
    hold. *)
Definition templateConfig (template : gostring) : TemplateConfig.t :=
  match find (fun e => eqs (fst e) template) TemplateConfigs with
  | Some e => snd e
  | None => {| TemplateConfig.MainFile := []; TemplateConfig.SubDir := [] |}
  end.

Definition ValidateTemplate (template : gostring) : option error :=
  if existsb (fun supported => eqs template supported) SupportedTemplates
  then None
  else Some (New (ErrUnsupportedTemplate ++ ": " ++ text template)).

Section Paths.

(** [filepath.Join], which joins the elements with the separator and cleans
    the result; it is not part of the program. *)
Variable Join : list gostring -> gostring.

Definition DefaultConfig (projectRoot : gostring) : ProjectConfig.t :=
  {| ProjectConfig.ContextDir := Join [projectRoot; lit "context"];
     ProjectConfig.Template := lit "generic";
     ProjectConfig.MainFile := Join [projectRoot; lit "template.md"];
     ProjectConfig.ProjectRoot := projectRoot |}.

Definition GetMainFileForTemplate (template projectRoot : gostring) : result gostring :=
  match ValidateTemplate template with
  | Some e => Err e
  | None =>
      let config := templateConfig template in
      match TemplateConfig.SubDir config with
      | _ :: _ =>
          Ok (Join [projectRoot; TemplateConfig.SubDir config;
                    TemplateConfig.MainFile config])
      | [] => Ok (Join [projectRoot; TemplateConfig.MainFile config])
      end
  end.

(** The method has a pointer receiver: it returns the configuration as the
    call leaves it, and the error. *)
Definition UpdateForTemplate (pc : ProjectConfig.t) (template : gostring) :
    ProjectConfig.t * option error :=
  match ValidateTemplate template with
  | Some e => (pc, Some e)
  | None =>
      let pc :=
        {| ProjectConfig.ContextDir := ProjectConfig.ContextDir pc;
           ProjectConfig.Template := template;
           ProjectConfig.MainFile := ProjectConfig.MainFile pc;
           ProjectConfig.ProjectRoot := ProjectConfig.ProjectRoot pc |} in
      match GetMainFileForTemplate template (ProjectConfig.ProjectRoot pc) with
      | Err e => (pc, Some e)
      | Ok mainFile =>
          ({| ProjectConfig.ContextDir := ProjectConfig.ContextDir pc;
              ProjectConfig.Template := ProjectConfig.Template pc;
              ProjectConfig.MainFile := mainFile;
              ProjectConfig.ProjectRoot := ProjectConfig.ProjectRoot pc |}, None)
      end
  end.

End Paths.

End Config.

(** ** Package template *)

Module Template.
Import Go.

Definition descriptions : list (gostring * gostring) :=
  [ (lit "generic", lit "Universal template that can be adapted to any AI tool");
    (lit "claude", lit "Optimized for Claude Code with @context/ references");
    (lit "cursor", lit "Designed for Cursor IDE with folder icons");
    (lit "copilot", lit "GitHub Copilot compatible with .github placement");
    (lit "gemini", lit "Optimized for Google Gemini conversational context loading") ].

Definition getTemplateDescription (templateName : gostring) : gostring :=
  match find (fun e => eqs (fst e) templateName) descriptions with
  | Some e => snd e
  | None => lit "No description available"
  end.

End Template.

(** ** Package cmd *)

Module Cmd.
Import Go.

(** A call either completes with a value or panics at run time. *)
Inductive run (A : Type) : Type :=
  | Value (a : A)
  | Panic.
Arguments Value {A} a.
Arguments Panic {A}.

(** *** UpdateTemplateWithChapters *)

Definition placeholders : list gostring :=
  [ lit "(Chapter files will be listed here when you run `contindex update` or `contindex convert`)";
    lit "(Context files will be listed here when you run `contindex update` or `contindex convert`)" ].

(** [fmt.Sprintf("%d. **%s** - `%s/%s`\n", i+1, descriptiveName, contextDirName, file.FileName)] *)
Definition chapterEntry (i : nat) (file : ContextFile.t) (contextDirName : gostring) : gostring :=
  let descriptiveName := TrimSuffix (ContextFile.FileName file) (lit ".md") in
  FormatInt (i + 1) ++ lit ". **" ++ descriptiveName ++ lit "** - `" ++
  contextDirName ++ lit "/" ++ ContextFile.FileName file ++ lit "`" ++ [byte 10].

Fixpoint chapterListFrom (i : nat) (contextFiles : list ContextFile.t)
    (contextDirName : gostring) : gostring :=
  match contextFiles with
  | [] => []
  | file :: rest =>
      chapterEntry i file contextDirName ++ chapterListFrom (S i) rest contextDirName
  end.

(** The text built in [chapterList]. *)
Definition chapterList (contextFiles : list ContextFile.t) (contextDirName : gostring) : gostring :=
  chapterListFrom 0 contextFiles contextDirName.

(** The value of [updatedContent] after the loop over the placeholders. *)
Definition updatedContent (content : gostring) (contextFiles : list ContextFile.t)
    (contextDirName : gostring) : gostring :=
  fold_left
    (fun updated placeholder =>
       ReplaceAll updated placeholder (TrimSpace (chapterList contextFiles contextDirName)))
    placeholders content.

(** [mainFile] is what reading the index file returns, [write] what writing
    a text to it returns. *)
Definition UpdateTemplateWithChapters (mainFile : result gostring)
    (write : gostring -> option error) (contextFiles : list ContextFile.t)
    (contextDirName : gostring) : option error :=
  match mainFile with
  | Err e => Some (Wrap "failed to read template file" e)
  | Ok content => write (updatedContent content contextFiles contextDirName)
  end.

(** *** The convert command

    What the file system and the packages config and template answer during
    one run of the command. *)
Record ConvertEnv : Type := {
  validateConvertInputs : option error;
  createBackup : option error;
  validateMarkdownFile : option error;
  readSourceFile : result gostring;
  mapOrders : nat -> Classifier.MapOrder;
  contextDir : gostring;
  mkdirAll : option error;
  writeFile : gostring -> gostring -> option error;
  updateForTemplate : option error;
  applyTemplate : option error;
  readMainFile : result gostring;
  writeMainFile : gostring -> option error
}.

Section Convert.

Variable unicodeLower : gostring -> gostring.
Variable env : ConvertEnv.

Definition analyzeAndGenerateFiles : result (list ContextFile.t) :=
  match Classifier.AnalyzeAndGenerate unicodeLower (mapOrders env)
          (validateMarkdownFile env) (readSourceFile env) with
  | Err e => Err (Wrap "failed to analyze and generate files" e)
  | Ok contextFiles =>
      if (Z.of_nat (length contextFiles) =? 0)%Z
      then Err (New "no content sections found in source file")
      else Ok contextFiles
  end.

Definition totalTokens (contextFiles : list ContextFile.t) : Z :=
  fold_left (fun total file => (total + ContextFile.TokenCount file)%Z) contextFiles 0%Z.

(** The average is printed; the call returns a nil error. *)
Definition previewConversion (contextFiles : list ContextFile.t) : run (option error) :=
  match quo (totalTokens contextFiles) (Z.of_nat (length contextFiles)) with
  | None => Panic
  | Some _ => Value None
  end.

Definition printConversionSuccess (contextFiles : list ContextFile.t) : run unit :=
  match quo (totalTokens contextFiles) (Z.of_nat (length contextFiles)) with
  | None => Panic
  | Some _ => Value tt
  end.

Fixpoint writeContextFiles (contextFiles : list ContextFile.t) : option error :=
  match contextFiles with
  | [] => None
  | file :: rest =>
      let name := ContextFile.FileName file in
      let content :=
        lit "# " ++ TrimSuffix name (lit ".md") ++ [byte 10; byte 10] ++
        ContextFile.Content file ++ [byte 10] in
      match writeFile env name content with
      | Some e => Some (Wrap ("failed to write file " ++ string_of_list_ascii name) e)
      | None => writeContextFiles rest
      end
  end.

Definition generateIndexFile (contextFiles : list ContextFile.t) : option error :=
  match updateForTemplate env with
  | Some e => Some (Wrap "failed to configure template" e)
  | None =>
      match applyTemplate env with
      | Some e => Some (Wrap "failed to apply template" e)
      | None =>
          UpdateTemplateWithChapters (readMainFile env) (writeMainFile env)
            contextFiles (contextDir env)
      end
  end.

Definition executeConversion (contextFiles : list ContextFile.t) : option error :=
  match mkdirAll env with
  | Some e => Some (Wrap "failed to create context directory" e)
  | None =>
      match writeContextFiles contextFiles with
      | Some e => Some (Wrap "failed to write context files" e)
      | None =>
          match generateIndexFile contextFiles with
          | Some e => Some (Wrap "failed to generate index file" e)
          | None => None
          end
      end
  end.

Definition runConvert (dryRun noBackup : bool) : run (option error) :=
  match validateConvertInputs env with
  | Some e => Value (Some e)
  | None =>
      match (if negb dryRun && negb noBackup then createBackup env else None) with
      | Some e => Value (Some (Wrap "failed to create backup" e))
      | None =>
          match analyzeAndGenerateFiles with
          | Err e => Value (Some e)
          | Ok contextFiles =>
              if dryRun then previewConversion contextFiles
              else
                match executeConversion contextFiles with
                | Some e => Value (Some e)
                | None =>
                    match printConversionSuccess contextFiles with
                    | Panic => Panic
                    | Value _ => Value None
                    end
                end
          end
      end
  end.

End Convert.

(** *** The update command *)

(** [scanContextDirectory]; [dir] is the context directory as the file
    system holds it. *)
Definition onlyFileName (name : gostring) : ContextFile.t :=
  {| ContextFile.FileName := name;
     ContextFile.Content := [];
     ContextFile.WordCount := 0;
     ContextFile.TokenCount := 0;
     ContextFile.Summary := [];
     ContextFile.KeyTerms := [] |}.

Fixpoint collectMarkdown (entries : list DirEntry) : list ContextFile.t :=
  match entries with
  | [] => []
  | entry :: rest =>
      if IsDir entry || negb (HasSuffix (Name entry) (lit ".md"))
      then collectMarkdown rest
      else onlyFileName (Name entry) :: collectMarkdown rest
  end.

Definition scanContextDirectory (dir : result (list DirEntry)) : result (list ContextFile.t) :=
  match Os.ReadDir dir with
  | Err e => Err (Wrap "failed to read context directory" e)
  | Ok entries => Ok (collectMarkdown entries)
  end.

(** [os.Stat]: a modification time, or the file is absent, or another error. *)
Inductive stat : Type :=
  | ModTime (t : Z)
  | NotExist
  | StatError (e : error).

(** [contextDirPath] is the value of [filepath.Join(projectPath, "context")]. *)
Record UpdateEnv : Type := {
  validateDirectoryPath : option error;
  validateTemplate : option error;
  contextDirPath : gostring;
  contextDirStat : stat;
  contextDirEntries : result (list DirEntry);
  getMainFileForTemplate : option error;
  indexStat : stat;
  chapterStat : gostring -> stat;
  configureTemplate : option error;
  regenerateTemplate : option error;
  readIndexFile : result gostring;
  writeIndexFile : gostring -> option error
}.

Section Update.

Variable env : UpdateEnv.

Fixpoint anyNewer (indexTime : Z) (chapterFiles : list ContextFile.t) : bool :=
  match chapterFiles with
  | [] => false
  | file :: rest =>
      match chapterStat env (lit "context/" ++ ContextFile.FileName file) with
      | ModTime t => if (indexTime <? t)%Z then true else anyNewer indexTime rest
      | _ => anyNewer indexTime rest
      end
  end.

Definition checkIfUpdateNeeded (chapterFiles : list ContextFile.t) : bool * option error :=
  match indexStat env with
  | NotExist => (true, None)
  | StatError e => (true, Some e)
  | ModTime indexTime => (anyNewer indexTime chapterFiles, None)
  end.

(** [fmt.Errorf("context directory not found: %s\nRun 'contindex init' to
    set up the structure", contextDir)] *)
Definition contextDirNotFound (contextDir : gostring) : error :=
  New ("context directory not found: " ++ text contextDir ++
       String (byte 10) "Run 'contindex init' to set up the structure")%string.

(** The update command was written for the form of
    [UpdateTemplateWithChapters] whose entries name the directory
    [context]. *)
Definition regenerate (chapterFiles : list ContextFile.t) : option error :=
  match configureTemplate env with
  | Some e => Some (Wrap "failed to configure template" e)
  | None =>
      match regenerateTemplate env with
      | Some e => Some (Wrap "failed to apply template" e)
      | None =>
          match UpdateTemplateWithChapters (readIndexFile env) (writeIndexFile env)
                  chapterFiles (lit "context") with
          | Some e => Some (Wrap "failed to update template with chapters" e)
          | None => None
          end
      end
  end.

Definition runUpdate (forceUpdate : bool) : option error :=
  match validateDirectoryPath env with
  | Some e => Some (Wrap "invalid project path" e)
  | None =>
  match validateTemplate env with
  | Some e => Some (Wrap "invalid template" e)
  | None =>
  match contextDirStat env with
  | NotExist => Some (contextDirNotFound (contextDirPath env))
  | _ =>
  match scanContextDirectory (contextDirEntries env) with
  | Err e => Some (Wrap "failed to scan chapter files" e)
  | Ok chapterFiles =>
      if (Z.of_nat (length chapterFiles) =? 0)%Z then None
      else
        match getMainFileForTemplate env with
        | Some e => Some (Wrap "failed to determine index file path" e)
        | None =>
            if forceUpdate then regenerate chapterFiles
            else
              match checkIfUpdateNeeded chapterFiles with
              | (_, Some _) => regenerate chapterFiles
              | (true, None) => regenerate chapterFiles
              | (false, None) => None
              end
        end
  end end end end.

End Update.

End Cmd.

(** *** The convert command: its inputs and the files it writes *)

Module ConvertSteps.
Import Go.

(** The flags of the command. *)
Record Flags : Type := {
  sourceFile : gostring;
  templateType : gostring;
  backupDir : gostring;
  contextDir : gostring;
  noBackup : bool;
  force : bool
}.

Section Inputs.

Variable unicodeLower : gostring -> gostring.
Variable fs : Os.FileSystem.
Variable flags : Flags.

Definition checkDirectoryConflicts : option error :=
  let conflict :=
    match Os.Stat fs (contextDir flags) with
    | Os.Info info =>
        if Os.FileInfo.IsDir info then
          match Os.ReadDir (Os.Entries fs (contextDir flags)) with
          | Err e => Some (Wrap "failed to read context directory" e)
          | Ok files =>
              if (0 <? Z.of_nat (length files))%Z && negb (force flags)
              then Some (New ("context directory '" ++ text (contextDir flags) ++
                              "' already exists and contains " ++
                              text (FormatInt (length files)) ++
                              " files - use --context-dir to specify a different name or --force to overwrite"))
              else None
          end
        else None
    | _ => None
    end in
  match conflict with
  | Some e => Some e
  | None =>
      if negb (noBackup flags) && eqs (contextDir flags) (backupDir flags)
      then Some (New ("context directory and backup directory cannot be the same ('" ++
                      text (contextDir flags) ++ "')"))
      else None
  end.

Definition validateConvertInputs : option error :=
  match Validation.ValidateMarkdownFile unicodeLower fs (sourceFile flags) with
  | Some e => Some (Wrap "invalid source file" e)
  | None =>
  match Validation.ValidateTemplateName (templateType flags) with
  | Some e => Some (Wrap "invalid template name" e)
  | None =>
  match Config.ValidateTemplate (templateType flags) with
  | Some e => Some (Wrap "unsupported template type" e)
  | None =>
  match (if negb (noBackup flags)
         then Validation.ValidateDirectoryPath (backupDir flags) else None) with
  | Some e => Some (Wrap "invalid backup directory" e)
  | None =>
  match Validation.ValidateDirectoryPath (contextDir flags) with
  | Some e => Some (Wrap "invalid context directory" e)
  | None => checkDirectoryConflicts
  end end end end end.

End Inputs.

Definition getIndexFileName (templateType : gostring) : gostring :=
  if eqs templateType (lit "claude") then lit "CLAUDE.md"
  else if eqs templateType (lit "cursor") then lit "AGENTS.md"
  else if eqs templateType (lit "copilot") then lit "copilot-instructions.md"
  else if eqs templateType (lit "gemini") then lit "GEMINI.md"
  else lit "template.md".

(** *** writeContextFiles and the directory it writes to

    [directory] maps the name of a file of the context directory to the
    text it holds.  The names [writeContextFiles] is called with hold no
    path separator and end in [.md], so two of them join with the directory
    name to the same path only when they are equal.  [denied name] is the
    error [os.WriteFile] raises for that file, if any; a successful
    [os.WriteFile] replaces what the file held.  The loop stops at the
    first write that fails and returns the directory as the writes before
    it left it; what the failed call leaves in its own file is not
    modelled. *)
Definition directory : Type := gostring -> option gostring.

Definition put (d : directory) (name content : gostring) : directory :=
  fun n => if eqs n name then Some content else d n.

(** [fmt.Sprintf("# %s\n\n%s\n", strings.TrimSuffix(file.FileName, ".md"), file.Content)] *)
Definition chapterText (file : ContextFile.t) : gostring :=
  lit "# " ++ TrimSuffix (ContextFile.FileName file) (lit ".md") ++
  [byte 10; byte 10] ++ ContextFile.Content file ++ [byte 10].

Section Writes.

Variable denied : gostring -> option error.

Fixpoint writeContextFiles (d : directory) (contextFiles : list ContextFile.t) :
    directory * option error :=
  match contextFiles with
  | [] => (d, None)
  | file :: rest =>
      let name := ContextFile.FileName file in
      match denied name with
      | Some e => (d, Some (Wrap ("failed to write file " ++ text name) e))
      | None => writeContextFiles (put d name (chapterText file)) rest
      end
  end.

End Writes.

(** *** validation.ValidateDirectoryWritable

    [directory] is here the directory that is checked, [path] its path;
    a directory that does not exist holds no file.  [dirStat] is what
    [os.Stat(path)] returns, [mkdirAll] what [os.MkdirAll(path, 0755)]
    returns, [createDenied] the error of [os.Create(tempFile)], if any, and
    [removed] whether the deferred [os.Remove(tempFile)] succeeds (its
    error is dropped).  A successful [os.Create] leaves the test file
    empty, whatever it held. *)
Definition writeTest : gostring := lit ".contindex_write_test".

Definition remove (d : directory) (name : gostring) : directory :=
  fun n => if eqs n name then None else d n.

Section Writable.

Variable path : gostring.
Variable dirStat : Os.status.
Variable mkdirAll : option error.
Variable createDenied : option error.
Variable removed : bool.

Definition ValidateDirectoryWritable (d : directory) : directory * option error :=
  match Validation.ValidateDirectoryPath path with
  | Some e => (d, Some e)
  | None =>
      match dirStat with
      | Os.NotExist _ =>
          match mkdirAll with
          | Some e => (d, Some (Wrap ("cannot create directory: " ++ text path) e))
          | None => (d, None)
          end
      | Os.Failed e => (d, Some (Wrap ("cannot access directory: " ++ text path) e))
      | Os.Info info =>
          if negb (Os.FileInfo.IsDir info)
          then (d, Some (New ("path is not a directory: " ++ text path)))
          else
            match createDenied with
            | Some e => (d, Some (Wrap ("directory is not writable: " ++ text path) e))
            | None =>
                let created := put d writeTest [] in
                (if removed then remove created writeTest else created, None)
            end
      end
  end.

End Writable.

(** *** createBackup

    [directory] is here the backup directory [backupDir]; [os.Stat] of a
    path in it returns no error when the directory holds the file.
    [source] is what [os.ReadFile(sourceFile)] returns and [denied name]
    the error [os.WriteFile] raises for that file of the directory, if
    any. *)
Section Backup.

Variable backupDir : gostring.
Variable dirStat : Os.status.
Variable mkdirAll : option error.
Variable createDenied : option error.
Variable removed : bool.
Variable source : result gostring.
Variable denied : gostring -> option error.

(** The name the backup is written to. *)
Definition backupFile (d : directory) (sourceFile content : gostring) : gostring :=
  let originalName := Base sourceFile in
  let safeName := Validation.SanitizeFileName originalName in
  match d safeName with
  | Some _ =>
      let ext := Ext safeName in
      let nameWithoutExt := TrimSuffix safeName ext in
      nameWithoutExt ++ lit "_backup_" ++ FormatInt (length content) ++ ext
  | None => safeName
  end.

Definition createBackup (d : directory) (sourceFile : gostring) :
    directory * option error :=
  match ValidateDirectoryWritable backupDir dirStat mkdirAll createDenied removed d with
  | (checked, Some e) => (checked, Some (Wrap "backup directory validation failed" e))
  | (checked, None) =>
      match source with
      | Err e => (checked, Some (Wrap "failed to read source file" e))
      | Ok content =>
          let target := backupFile checked sourceFile content in
          match denied target with
          | Some e => (checked, Some (Wrap "failed to write backup file" e))
          | None => (put checked target content, None)
          end
      end
  end.

End Backup.

End ConvertSteps.

(** ** Facts about the string functions *)

Module StringFacts.
Import Go.

Lemma HasPrefix_app (p rest : gostring) : HasPrefix (p ++ rest) p = true.
Proof.
  induction p as [|c p IH]; [reflexivity|].
  simpl. now rewrite Ascii.eqb_refl, IH.
Qed.

Lemma HasPrefix_split (s p : gostring) :
  HasPrefix s p = true -> exists rest, s = p ++ rest.
Proof.
  revert s. induction p as [|c p IH]; intros s H.
  - now exists s.
  - destruct s as [|d s]; [discriminate|]. simpl in H.
    apply andb_true_iff in H. destruct H as [Hc Hp].
    apply Ascii.eqb_eq in Hc. subst d.
    destruct (IH s Hp) as [rest ->]. now exists rest.
Qed.

Lemma HasPrefix_head (c d : ascii) (s p : gostring) :
  HasPrefix (c :: s) (d :: p) = true -> c = d /\ HasPrefix s p = true.
Proof.
  simpl. intros H. apply andb_true_iff in H. destruct H as [Hc Hp].
  apply Ascii.eqb_eq in Hc. auto.
Qed.

(** An occurrence that starts in [b] and is not inside [b] runs over the
    end of [b]. *)
Lemma HasPrefix_overlap (b rest p : gostring) :
  HasPrefix (b ++ rest) p = true ->
  HasPrefix b p = true \/
  exists q0 q, p = b ++ q0 :: q /\ HasPrefix rest (q0 :: q) = true.
Proof.
  revert p. induction b as [|c b IH]; intros p H.
  - destruct p as [|q0 q]; [left; reflexivity|]. right. now exists q0, q.
  - destruct p as [|d p]; [left; reflexivity|]. cbn [app] in H.
    apply HasPrefix_head in H. destruct H as [-> H].
    destruct (IH p H) as [Hin|(q0 & q & -> & Hq)].
    + left. simpl. now rewrite Ascii.eqb_refl.
    + right. now exists q0, q.
Qed.

Lemma Contains_cons (c : ascii) (s p : gostring) :
  Contains (c :: s) p = HasPrefix (c :: s) p || Contains s p.
Proof. reflexivity. Qed.

Lemma Contains_nil (q0 : ascii) (q : gostring) : Contains [] (q0 :: q) = false.
Proof. reflexivity. Qed.

Lemma Contains_app_r (a b p : gostring) :
  Contains b p = true -> Contains (a ++ b) p = true.
Proof.
  intros H. induction a as [|c a IH]; [exact H|].
  cbn [app]. rewrite Contains_cons, IH. apply orb_true_r.
Qed.

(** No occurrence of [q0 :: q] starts inside a text that does not hold
    [q0]. *)
Lemma Contains_skip (a rest : gostring) (q0 : ascii) (q : gostring) :
  ~ In q0 a -> Contains (a ++ rest) (q0 :: q) = Contains rest (q0 :: q).
Proof.
  intros H. induction a as [|c a IH]; [reflexivity|].
  cbn [app]. rewrite Contains_cons, IH by (intros Hin; apply H; now right).
  replace (HasPrefix (c :: a ++ rest) (q0 :: q)) with false; [reflexivity|].
  symmetry. simpl. destruct (Ascii.eqb_spec c q0) as [->|_]; [|reflexivity].
  exfalso. apply H. now left.
Qed.

(** [runsInto l p]: an occurrence of [p] can start inside [l], that is,
    some end of [l] that is not empty begins with [p] or is a beginning of
    [p]. *)
Definition comparable (b p : gostring) : bool := HasPrefix b p || HasPrefix p b.

Fixpoint runsInto (l p : gostring) : bool :=
  match l with
  | [] => false
  | _ :: t => comparable l p || runsInto t p
  end.

Lemma HasPrefix_incomparable (l t p : gostring) :
  comparable l p = false -> HasPrefix (l ++ t) p = false.
Proof.
  intros H. apply orb_false_iff in H. destruct H as [H1 H2].
  destruct (HasPrefix (l ++ t) p) eqn:E; [|reflexivity].
  apply HasPrefix_overlap in E. destruct E as [E|(q0 & q & -> & _)]; [congruence|].
  now rewrite HasPrefix_app in H2.
Qed.

(** No occurrence of [p] starts inside a text that does not run into [p]. *)
Lemma Contains_clear (l t p : gostring) :
  runsInto l p = false -> Contains (l ++ t) p = Contains t p.
Proof.
  induction l as [|c l IH]; intros H; [reflexivity|].
  cbn [runsInto] in H. apply orb_false_iff in H. destruct H as [Hc Hl].
  change ((c :: l) ++ t) with (c :: l ++ t). rewrite Contains_cons.
  change (c :: l ++ t) with ((c :: l) ++ t).
  now rewrite (HasPrefix_incomparable (c :: l) t p Hc), IH.
Qed.

Lemma runsInto_fresh (l : gostring) (q0 : ascii) (q : gostring) :
  ~ In q0 l -> runsInto l (q0 :: q) = false.
Proof.
  induction l as [|c l IH]; intros H; [reflexivity|].
  cbn [runsInto]. rewrite IH by (intros Hin; apply H; now right).
  rewrite orb_false_r. unfold comparable. cbn [HasPrefix].
  destruct (Ascii.eqb_spec c q0) as [->|_].
  - exfalso. apply H. now left.
  - destruct (Ascii.eqb_spec q0 c) as [->|_]; [|reflexivity].
    exfalso. apply H. now left.
Qed.

(** A text that runs into [p] has an end of that kind. *)
Lemma runsInto_end (l p : gostring) :
  runsInto l p = true ->
  exists a b, l = a ++ b /\ b <> [] /\ comparable b p = true.
Proof.
  induction l as [|c l IH]; intros H; [discriminate|].
  cbn [runsInto] in H. apply orb_true_iff in H. destruct H as [H|H].
  - exists [], (c :: l). repeat split; [discriminate | exact H].
  - destruct (IH H) as (a & b & -> & Hb & Hc). exists (c :: a), b. auto.
Qed.

Lemma Contains_at (a p r : gostring) : Contains (a ++ p ++ r) p = true.
Proof.
  apply Contains_app_r. destruct (p ++ r) eqn:E.
  - destruct p; [reflexivity | discriminate].
  - rewrite Contains_cons, <- E, HasPrefix_app. reflexivity.
Qed.

Section Replace.

Variables (o : ascii) (os new : gostring).

Let old : gostring := o :: os.
Let R : gostring -> gostring := replaceFrom old new 0.

Lemma ReplaceAll_R (s : gostring) : ReplaceAll s (o :: os) new = R s.
Proof. reflexivity. Qed.

Lemma R_skip (xs rest : gostring) :
  replaceFrom old new (length xs) (xs ++ rest) = R rest.
Proof. induction xs as [|x xs IH]; [reflexivity | exact IH]. Qed.

Lemma R_nil : R [] = [].
Proof. reflexivity. Qed.

Lemma R_hit (rest : gostring) : R (old ++ rest) = new ++ R rest.
Proof.
  unfold R at 1. unfold old at 2. cbn [app replaceFrom].
  change (o :: os ++ rest) with (old ++ rest).
  rewrite HasPrefix_app. f_equal.
  unfold old. cbn [length]. replace (S (length os) - 1) with (length os) by lia.
  apply R_skip.
Qed.

Lemma R_miss (c : ascii) (t : gostring) :
  HasPrefix (c :: t) old = false -> R (c :: t) = c :: R t.
Proof. intros H. unfold R. cbn [replaceFrom]. now rewrite H. Qed.

(** Induction along the steps of the replacement. *)
Lemma R_ind (P : gostring -> Prop) :
  P [] ->
  (forall rest, P rest -> P (old ++ rest)) ->
  (forall c t, HasPrefix (c :: t) old = false -> P t -> P (c :: t)) ->
  forall s, P s.
Proof.
  intros Hnil Hhit Hmiss s.
  assert (H : forall n s, length s <= n -> P s).
  { clear s. induction n as [|n IH]; intros s Hlen.
    - destruct s; [exact Hnil | simpl in Hlen; lia].
    - destruct s as [|c t]; [exact Hnil|].
      destruct (HasPrefix (c :: t) old) eqn:Hp.
      + destruct (HasPrefix_split _ _ Hp) as [rest E]. rewrite E.
        apply Hhit, IH.
        apply (f_equal (@length ascii)) in E. rewrite length_app in E.
        unfold old in E. simpl in E, Hlen. lia.
      + apply Hmiss; [exact Hp|]. apply IH. simpl in Hlen. lia. }
  apply (H (length s)). lia.
Qed.

(** A text without occurrence is left as it is. *)
Lemma R_absent (s : gostring) : Contains s old = false -> R s = s.
Proof.
  induction s as [|c t IH]; intros H; [reflexivity|].
  rewrite Contains_cons in H. apply orb_false_iff in H. destruct H as [Hp Hc].
  rewrite R_miss by exact Hp. now rewrite IH.
Qed.

(** The characters of the result are characters of the text or of [new]. *)
Lemma replaceFrom_Forall (P : ascii -> Prop) (s : gostring) :
  Forall P new -> Forall P s ->
  forall skip, Forall P (replaceFrom old new skip s).
Proof.
  intros Hnew Hs. induction Hs as [|c t Hc Ht IH]; intros skip; [constructor|].
  cbn [replaceFrom]. destruct skip; [|apply IH].
  destruct (HasPrefix (c :: t) old).
  - apply Forall_app. split; [exact Hnew | apply IH].
  - constructor; [exact Hc | apply IH].
Qed.

(** [startsIn b rest]: an occurrence of [old] in [b ++ rest] starts in [b]. *)
Fixpoint startsIn (b rest : gostring) : bool :=
  match b with
  | [] => false
  | _ :: b' => HasPrefix (b ++ rest) old || startsIn b' rest
  end.

Lemma R_pass (b rest : gostring) :
  startsIn b rest = false -> R (b ++ rest) = b ++ R rest.
Proof.
  induction b as [|c b IH]; intros H; [reflexivity|].
  cbn [startsIn] in H. apply orb_false_iff in H. destruct H as [Hp Hs].
  cbn [app]. rewrite R_miss by exact Hp. now rewrite IH.
Qed.

Lemma startsIn_fresh (b rest : gostring) : ~ In o b -> startsIn b rest = false.
Proof.
  induction b as [|c b IH]; intros H; [reflexivity|].
  cbn [startsIn]. rewrite IH by (intros Hin; apply H; now right).
  rewrite orb_false_r. unfold old. cbn [app HasPrefix].
  destruct (Ascii.eqb_spec c o) as [->|_]; [|reflexivity].
  exfalso. apply H. now left.
Qed.

Lemma startsIn_clear (b rest : gostring) :
  runsInto b old = false -> startsIn b rest = false.
Proof.
  induction b as [|c b IH]; intros H; [reflexivity|].
  cbn [runsInto] in H. apply orb_false_iff in H. destruct H as [Hc Hb].
  cbn [startsIn]. now rewrite (HasPrefix_incomparable (c :: b) rest old Hc), IH.
Qed.

Lemma startsIn_absent (b rest : gostring) :
  Contains b old = false ->
  match rest with [] => True | x :: _ => ~ In x os end ->
  startsIn b rest = false.
Proof.
  intros Hb Hrest. induction b as [|c b IH]; [reflexivity|].
  rewrite Contains_cons in Hb. apply orb_false_iff in Hb. destruct Hb as [Hp Hc].
  cbn [startsIn]. rewrite (IH Hc), orb_false_r.
  destruct (HasPrefix ((c :: b) ++ rest) old) eqn:H; [|reflexivity].
  apply HasPrefix_overlap in H. destruct H as [H|(q0 & q & E & Hq)].
  - congruence.
  - exfalso. unfold old in E. cbn [app] in E. injection E as _ E.
    destruct rest as [|x rest]; [discriminate|].
    apply HasPrefix_head in Hq. destruct Hq as [-> _].
    apply Hrest. rewrite E. apply in_or_app. right. now left.
Qed.

Section NewStartsFresh.

(** From here on the replacement text starts with a character [n0]. *)
Variables (n0 : ascii) (new' : gostring).
Hypothesis new_eq : new = n0 :: new'.

(** A pattern without [n0] that the result starts with was there before. *)
Lemma HasPrefix_R (q : gostring) :
  ~ In n0 q -> forall s, HasPrefix (R s) q = true -> HasPrefix s q = true.
Proof.
  induction q as [|q0 q IH]; intros Hq s H; [reflexivity|].
  destruct s as [|c t]; [discriminate|].
  destruct (HasPrefix (c :: t) old) eqn:Hp.
  - exfalso. destruct (HasPrefix_split _ _ Hp) as [rest E]. rewrite E in H.
    rewrite R_hit, new_eq in H. cbn [app] in H.
    apply HasPrefix_head in H. destruct H as [<- _]. apply Hq. now left.
  - rewrite R_miss in H by exact Hp.
    apply HasPrefix_head in H. destruct H as [-> H].
    simpl. rewrite Ascii.eqb_refl. simpl. apply IH; [|exact H].
    intros Hin. apply Hq. now right.
Qed.

(** An occurrence of such a pattern in the result was there before, when
    [new] does not run into the pattern. *)
Lemma Contains_R (q0 : ascii) (q : gostring) :
  runsInto new (q0 :: q) = false -> ~ In n0 (q0 :: q) ->
  forall s, Contains (R s) (q0 :: q) = true -> Contains s (q0 :: q) = true.
Proof.
  intros Hq0 Hn0. apply (R_ind (fun s => Contains (R s) (q0 :: q) = true ->
                                       Contains s (q0 :: q) = true)).
  - rewrite R_nil. auto.
  - intros rest IH H. rewrite R_hit, Contains_clear in H by exact Hq0.
    apply Contains_app_r. auto.
  - intros c t Hp IH H. rewrite Contains_cons.
    rewrite R_miss, Contains_cons in H by exact Hp.
    apply orb_true_iff in H. apply orb_true_iff. destruct H as [H|H].
    + left. apply HasPrefix_R; [exact Hn0|]. now rewrite R_miss by exact Hp.
    + right. auto.
Qed.

(** No occurrence of [old] is left. *)
Lemma Contains_R_old :
  runsInto new old = false -> ~ In n0 old ->
  forall s, Contains (R s) old = false.
Proof.
  intros Ho Hn0. apply (R_ind (fun s => Contains (R s) old = false)).
  - reflexivity.
  - intros rest IH. unfold old in *. now rewrite R_hit, Contains_clear by exact Ho.
  - intros c t Hp IH. rewrite R_miss by exact Hp.
    rewrite Contains_cons, IH, orb_false_r.
    destruct (HasPrefix (c :: R t) old) eqn:H; [|reflexivity].
    rewrite <- R_miss in H by exact Hp.
    apply HasPrefix_R in H; [congruence | exact Hn0].
Qed.

(** A text that holds [old] is changed, when [new] starts with another
    character than [old]. *)
Lemma R_changes : n0 <> o -> forall s, Contains s old = true -> R s <> s.
Proof.
  intros Hn0 s. induction s as [|c t IH]; intros H; [discriminate|].
  destruct (HasPrefix (c :: t) old) eqn:Hp.
  - destruct (HasPrefix_split _ _ Hp) as [rest E]. rewrite E, R_hit, new_eq.
    unfold old. cbn [app]. intros E'. injection E' as E' _. now apply Hn0.
  - rewrite R_miss by exact Hp. rewrite Contains_cons, Hp in H. cbn [orb] in H.
    intros E. injection E as E. now apply IH.
Qed.

End NewStartsFresh.

End Replace.

End StringFacts.

Module SpaceFacts.
Import Go.

Definition asciiSpace (c : ascii) : bool :=
  existsb (Ascii.eqb c) (map byte [9; 10; 11; 12; 13; 32]%N).

Lemma dropWhile_In (A : Type) (p : A -> bool) (x : A) (l : list A) :
  In x (dropWhile p l) -> In x l.
Proof.
  induction l as [|y l IH]; simpl; [auto|].
  destruct (p y); [right; auto | auto].
Qed.

Lemma dropWhile_last (A : Type) (p : A -> bool) (x : A) (l : list A) :
  p x = false -> exists l', dropWhile p (l ++ [x]) = l' ++ [x].
Proof.
  intros Hx. induction l as [|y l IH]; simpl.
  - rewrite Hx. now exists [].
  - destruct (p y); [exact IH | now exists (y :: l)].
Qed.

Lemma marked_In (s : gostring) (c : ascii) (b : bool) :
  In (c, b) (marked s) -> In c s.
Proof. unfold marked. apply in_combine_l. Qed.

Lemma TrimSpace_In (s : gostring) (c : ascii) : In c (TrimSpace s) -> In c s.
Proof.
  unfold TrimSpace. intros H. apply in_map_iff in H.
  destruct H as ([c' b] & <- & H). cbn [fst].
  apply in_rev, dropWhile_In, in_rev, dropWhile_In in H.
  eapply marked_In; eauto.
Qed.

(** A text that starts outside white space keeps its first byte. *)
Lemma TrimSpace_head (c : ascii) (t : gostring) :
  spaceWidth (c :: t) = 0 -> exists t', TrimSpace (c :: t) = c :: t'.
Proof.
  intros H. unfold TrimSpace, marked. cbn [spaceMask]. rewrite H.
  cbn [combine dropWhile snd rev].
  destruct (@dropWhile_last _ snd (c, false)
              (rev (combine t (spaceMask 0 t))) eq_refl) as [l' E].
  rewrite E, rev_app_distr. cbn [rev app map fst]. eauto.
Qed.

(** A byte at which no white space starts is no ASCII white space. *)
Lemma spaceWidth_zero (c : ascii) (t : gostring) :
  spaceWidth (c :: t) = 0 -> asciiSpace c = false.
Proof.
  intros H. destruct (asciiSpace c) eqn:E; [|reflexivity].
  exfalso. revert H.
  destruct c as [[] [] [] [] [] [] [] []]; try discriminate E;
    vm_compute; discriminate.
Qed.

Lemma spaceMask_unmarked (c : ascii) (s : gostring) :
  forall skip, In (c, false) (combine s (spaceMask skip s)) ->
    In c s /\ asciiSpace c = false.
Proof.
  induction s as [|d s IH]; intros skip H; [destruct H|].
  cbn [spaceMask] in H. destruct skip as [|k].
  - destruct (spaceWidth (d :: s)) eqn:Hw; cbn [combine] in H.
    + destruct H as [E|H].
      * injection E as ->. split; [now left | eapply spaceWidth_zero; eauto].
      * destruct (IH _ H). split; [now right | assumption].
    + destruct H as [E|H]; [discriminate|].
      destruct (IH _ H). split; [now right | assumption].
  - cbn [combine] in H. destruct H as [E|H]; [discriminate|].
    destruct (IH _ H). split; [now right | assumption].
Qed.

Lemma fieldsOf_Forall (P : ascii -> Prop) (l : list (ascii * bool)) :
  (forall c, In (c, false) l -> P c) ->
  forall cur, Forall P cur -> Forall (Forall P) (fieldsOf cur l).
Proof.
  induction l as [|[c b] l IH]; intros Hl cur Hcur.
  - simpl. destruct cur; [constructor | constructor; [exact Hcur | constructor]].
  - assert (Hl' : forall c0, In (c0, false) l -> P c0)
      by (intros c0 Hin; apply Hl; now right).
    cbn [fieldsOf]. destruct b.
    + destruct cur; [apply IH; auto | constructor; [exact Hcur | apply IH; auto]].
    + apply IH; [exact Hl'|]. apply Forall_app. split; [exact Hcur|].
      constructor; [apply Hl; now left | constructor].
Qed.

(** The bytes of a field are bytes of the text, and none is ASCII white
    space. *)
Lemma Fields_bytes (s : gostring) :
  Forall (Forall (fun c => In c s /\ asciiSpace c = false)) (Fields s).
Proof.
  unfold Fields. apply fieldsOf_Forall; [|constructor].
  intros c H. unfold marked in H. eapply spaceMask_unmarked; eauto.
Qed.

(** *** Trimming does not change the fields

    [trimR] drops the marked bytes at the end, as [TrimSpace] does after it
    has dropped those at the start. *)
Definition trimR (l : list (ascii * bool)) : list (ascii * bool) :=
  rev (dropWhile snd (rev l)).

Lemma dropWhile_snoc (A : Type) (p : A -> bool) (x : A) (l : list A) :
  dropWhile p (l ++ [x]) =
  match dropWhile p l with
  | [] => if p x then [] else [x]
  | _ :: _ => dropWhile p l ++ [x]
  end.
Proof.
  induction l as [|y l IH]; simpl; [reflexivity|].
  destruct (p y); [exact IH | reflexivity].
Qed.

Lemma trimR_cons (x : ascii * bool) (l : list (ascii * bool)) :
  trimR (x :: l) =
  match trimR l with
  | [] => if snd x then [] else [x]
  | _ :: _ => x :: trimR l
  end.
Proof.
  unfold trimR. cbn [rev]. rewrite dropWhile_snoc.
  destruct (dropWhile snd (rev l)) as [|y r] eqn:E.
  - cbn [rev]. destruct (snd x); reflexivity.
  - rewrite rev_app_distr. cbn [rev app].
    destruct (rev r ++ [y]) eqn:E'; [|reflexivity].
    apply app_eq_nil in E'. destruct E' as [_ E']. discriminate E'.
Qed.

Lemma fieldsOf_trimR (l : list (ascii * bool)) :
  forall cur, fieldsOf cur (trimR l) = fieldsOf cur l.
Proof.
  induction l as [|[c b] l IH]; intros cur; [reflexivity|].
  rewrite trimR_cons. destruct (trimR l) as [|y r] eqn:E.
  - cbn [snd]. destruct b; cbn [fieldsOf].
    + rewrite <- (IH []). cbn [fieldsOf]. destruct cur; reflexivity.
    + rewrite <- IH. reflexivity.
  - destruct b; cbn [fieldsOf]; [destruct cur|]; now rewrite <- IH.
Qed.

Lemma fieldsOf_dropWhile (l : list (ascii * bool)) :
  fieldsOf [] (dropWhile snd l) = fieldsOf [] l.
Proof.
  induction l as [|[c b] l IH]; [reflexivity|].
  cbn [dropWhile snd]. destruct b; [exact IH | reflexivity].
Qed.

Lemma spaces_not_empty (s e : gostring) :
  find (HasPrefix s) unicodeSpaces = Some e -> e <> [].
Proof.
  intros H. apply find_some in H. destruct H as [Hin _].
  revert e Hin. apply Forall_forall. repeat constructor; discriminate.
Qed.

Lemma HasPrefix_mono (t u e : gostring) :
  HasPrefix t e = true -> HasPrefix (t ++ u) e = true.
Proof.
  intros H. destruct (StringFacts.HasPrefix_split _ _ H) as [r ->].
  rewrite <- app_assoc. apply StringFacts.HasPrefix_app.
Qed.

Lemma HasPrefix_short (t u e : gostring) :
  HasPrefix (t ++ u) e = true -> length e <= length t -> HasPrefix t e = true.
Proof.
  intros H Hlen. apply StringFacts.HasPrefix_overlap in H.
  destruct H as [H|(q0 & q & -> & _)]; [exact H|].
  rewrite length_app in Hlen. simpl in Hlen. lia.
Qed.

Lemma find_prefix (t u e : gostring) (table : list gostring) :
  find (HasPrefix (t ++ u)) table = Some e -> HasPrefix t e = true ->
  find (HasPrefix t) table = Some e.
Proof.
  induction table as [|x table IH]; [discriminate|]. cbn [find].
  destruct (HasPrefix (t ++ u) x) eqn:Hx.
  - intros E He. injection E as ->. now rewrite He.
  - intros E He. destruct (HasPrefix t x) eqn:Ht.
    + apply (HasPrefix_mono _ u) in Ht. congruence.
    + now apply IH.
Qed.

Lemma find_prefix_none (t u : gostring) (table : list gostring) :
  find (HasPrefix (t ++ u)) table = None -> find (HasPrefix t) table = None.
Proof.
  induction table as [|x table IH]; [reflexivity|]. cbn [find].
  destruct (HasPrefix (t ++ u) x) eqn:Hx; [discriminate|].
  destruct (HasPrefix t x) eqn:Ht; [|exact IH].
  apply (HasPrefix_mono _ u) in Ht. congruence.
Qed.

(** The white space a text starts with is that of its prefixes long enough
    to hold it. *)
Lemma spaceWidth_prefix_zero (t u : gostring) :
  spaceWidth (t ++ u) = 0 -> spaceWidth t = 0.
Proof.
  unfold spaceWidth. destruct (find _ unicodeSpaces) as [e|] eqn:E.
  - intros H. apply spaces_not_empty in E. destruct e; [congruence | discriminate].
  - intros _. now rewrite (find_prefix_none _ _ _ E).
Qed.

Lemma spaceWidth_prefix (t u : gostring) (k : nat) :
  spaceWidth (t ++ u) = S k -> S k <= length t -> spaceWidth t = S k.
Proof.
  unfold spaceWidth. destruct (find _ unicodeSpaces) as [e|] eqn:E; [|discriminate].
  intros H Hlen. rewrite (find_prefix _ _ _ E); [exact H|].
  apply find_some in E. destruct E as [_ E].
  apply (HasPrefix_short _ _ _ E). lia.
Qed.

Lemma spaceMask_length (s : gostring) :
  forall skip, length (spaceMask skip s) = length s.
Proof.
  induction s as [|c s IH]; intros skip; [reflexivity|].
  cbn [spaceMask]. destruct skip; [destruct (spaceWidth _)|]; simpl; now rewrite IH.
Qed.

Lemma map_fst_marks (s : gostring) (skip : nat) :
  map fst (combine s (spaceMask skip s)) = s.
Proof.
  revert skip. induction s as [|c s IH]; intros skip; [reflexivity|].
  cbn [spaceMask]. destruct skip; [destruct (spaceWidth _)|]; simpl; now rewrite IH.
Qed.

(** Dropping the marked bytes at the start leaves a text with its own
    marks. *)
Lemma leading (s : gostring) :
  forall skip, exists s',
    dropWhile snd (combine s (spaceMask skip s)) = marked s'.
Proof.
  induction s as [|c s IH]; intros skip; [now exists []|].
  cbn [spaceMask]. destruct skip as [|k].
  - destruct (spaceWidth (c :: s)) as [|k] eqn:E.
    + exists (c :: s). unfold marked. cbn [spaceMask]. now rewrite E.
    + cbn [combine dropWhile snd]. apply IH.
  - cbn [combine dropWhile snd]. apply IH.
Qed.

Lemma spaceMask_skip (c : ascii) (t : gostring) (k : nat) :
  spaceMask (S k) (c :: t) = true :: spaceMask k t.
Proof. reflexivity. Qed.

Lemma spaceMask_space (c : ascii) (t : gostring) (k : nat) :
  spaceWidth (c :: t) = S k -> spaceMask 0 (c :: t) = true :: spaceMask k t.
Proof. intros H. cbn [spaceMask]. now rewrite H. Qed.

Lemma spaceMask_other (c : ascii) (t : gostring) :
  spaceWidth (c :: t) = 0 -> spaceMask 0 (c :: t) = false :: spaceMask 0 t.
Proof. intros H. cbn [spaceMask]. now rewrite H. Qed.

Lemma trimR_prefix (l : list (ascii * bool)) : exists w, l = trimR l ++ w.
Proof.
  induction l as [|x l [w IH]]; [now exists []|].
  rewrite trimR_cons. revert IH. destruct (trimR l) as [|y r]; intros IH.
  - destruct (snd x); [now exists (x :: l) | now exists l].
  - exists w. cbn [app]. f_equal. exact IH.
Qed.

Lemma trailing_prefix (s t : gostring) (skip skip' : nat) :
  trimR (combine s (spaceMask skip s)) = combine t (spaceMask skip' t) ->
  exists u, s = t ++ u.
Proof.
  intros H. destruct (trimR_prefix (combine s (spaceMask skip s))) as [w Hw].
  apply (f_equal (map fst)) in Hw.
  rewrite map_fst_marks, map_app, H, map_fst_marks in Hw. now exists (map fst w).
Qed.

Lemma extend (x : ascii * bool) (d : ascii) (t : gostring) (skip : nat) :
  match combine (d :: t) (spaceMask skip (d :: t)) with
  | [] => if snd x then [] else [x]
  | _ :: _ => x :: combine (d :: t) (spaceMask skip (d :: t))
  end = x :: combine (d :: t) (spaceMask skip (d :: t)).
Proof.
  destruct (combine (d :: t) (spaceMask skip (d :: t))) eqn:E; [|reflexivity].
  apply (f_equal (@length _)) in E.
  rewrite length_combine, spaceMask_length in E. simpl in E. lia.
Qed.

(** Dropping the marked bytes at the end leaves a prefix with its own
    marks. *)
Lemma trailing (s : gostring) :
  forall skip, exists t,
    trimR (combine s (spaceMask skip s)) = combine t (spaceMask skip t) /\
    (t = [] \/ skip < length t).
Proof.
  induction s as [|c s IH]; intros skip.
  - exists []. split; [reflexivity | now left].
  - destruct skip as [|k].
    + destruct (spaceWidth (c :: s)) as [|k] eqn:E.
      * destruct (IH 0) as (t & Ht & _).
        rewrite (@spaceMask_other c s E). cbn [combine]. rewrite trimR_cons, Ht.
        exists (c :: t). split; [|right; simpl; lia].
        assert (E' : spaceWidth (c :: t) = 0).
        { destruct (@trailing_prefix s t 0 0 Ht) as [u Hu]. rewrite Hu in E.
          now apply (@spaceWidth_prefix_zero (c :: t) u). }
        rewrite (@spaceMask_other c t E'). cbn [combine].
        destruct t as [|d t]; [reflexivity | apply extend].
      * destruct (IH k) as (t & Ht & Hk).
        rewrite (@spaceMask_space c s k E). cbn [combine]. rewrite trimR_cons, Ht.
        destruct t as [|d t].
        { exists []. split; [reflexivity | now left]. }
        exists (c :: d :: t). split; [|right; simpl; lia].
        assert (E' : spaceWidth (c :: d :: t) = S k).
        { destruct (@trailing_prefix s (d :: t) k k Ht) as [u Hu]. rewrite Hu in E.
          apply (@spaceWidth_prefix (c :: d :: t) u k E).
          destruct Hk as [Hk|Hk]; [discriminate | simpl in *; lia]. }
        rewrite (@spaceMask_space c (d :: t) k E'). cbn [combine]. apply extend.
    + destruct (IH k) as (t & Ht & Hk).
      rewrite spaceMask_skip. cbn [combine]. rewrite trimR_cons, Ht.
      destruct t as [|d t].
      { exists []. split; [reflexivity | now left]. }
      exists (c :: d :: t). split.
      * rewrite spaceMask_skip. cbn [combine]. apply extend.
      * right. destruct Hk as [Hk|Hk]; [discriminate | simpl in *; lia].
Qed.

(** The marks of the trimmed text are the marks it had in the text. *)
Lemma TrimSpace_marked (s : gostring) :
  marked (TrimSpace s) = trimR (dropWhile snd (marked s)).
Proof.
  unfold TrimSpace. fold (trimR (dropWhile snd (marked s))).
  unfold marked at 2 3. destruct (leading s 0) as [s' ->].
  unfold marked at 2 3. destruct (trailing s' 0) as (t & -> & _).
  now rewrite map_fst_marks.
Qed.

(** Trimming a text does not change its fields. *)
Lemma Fields_TrimSpace (s : gostring) : Fields (TrimSpace s) = Fields s.
Proof.
  unfold Fields. rewrite TrimSpace_marked, fieldsOf_trimR. apply fieldsOf_dropWhile.
Qed.

Lemma TrimSpace_head_one (t : gostring) :
  exists t', TrimSpace ("1"%char :: t) = "1"%char :: t'.
Proof. apply TrimSpace_head. reflexivity. Qed.

End SpaceFacts.

(** * Properties *)

Module Naming.
Import Go Classifier.

(** [SanitizeFileName] never returns the empty string, so the test for
    an empty [fileName] that follows it in [generateDescriptiveFileName]
    never holds. *)
Lemma SanitizeFileName_not_empty (name : gostring) :
  Validation.SanitizeFileName name <> [].
Proof.
  unfold Validation.SanitizeFileName.
  destruct (if (_ <? _)%Z then _ else _); discriminate.
Qed.

(** A section with a two-letter title and ten plain words. *)
Definition plainSection : ContentSection.t :=
  {| ContentSection.Title := lit "To Be";
     ContentSection.Content := lit "one two three four five six seven eight nine ten";
     ContentSection.StartLine := 1;
     ContentSection.EndLine := 2;
     ContentSection.WordCount := 10 |}.

(** A section whose text names two technologies of the table. *)
Definition cacheSection : ContentSection.t :=
  {| ContentSection.Title := lit "Data Layer";
     ContentSection.Content :=
       lit "we run redis in docker containers so that every page loads fast";
     ContentSection.StartLine := 1;
     ContentSection.EndLine := 2;
     ContentSection.WordCount := 12 |}.

(** The tables visited from their last entry to their first. *)
Definition reversed : MapOrder :=
  {| techOrder := rev techPatterns; funcOrder := rev funcPatterns |}.

Lemma rangeOrder_declared : rangeOrder declared.
Proof. split; apply Permutation_refl. Qed.

Lemma rangeOrder_reversed : rangeOrder reversed.
Proof. split; apply Permutation_sym, Permutation_rev. Qed.

Section WithCaseTables.

Variable unicodeLower : gostring -> gostring.

(** C3: when the title yields no descriptor and neither table matches, the
    name is [unnamed.md]: [SanitizeFileName] has already replaced the empty
    string, and the default [general-context] of [generateDescriptiveFileName]
    is never taken. *)
Theorem empty_descriptors_give_unnamed (o : MapOrder) (section : ContentSection.t) :
  let content :=
    ToLower unicodeLower
      (ContentSection.Title section ++ lit " " ++ ContentSection.Content section) in
  extractTitleDescriptor unicodeLower (ContentSection.Title section) = [] ->
  extractTechnologyDescriptor o content = [] ->
  extractFunctionDescriptor o content = [] ->
  generateDescriptiveFileName unicodeLower o section = lit "unnamed.md".
Proof.
  intros content Htitle Htech Hfunc.
  unfold generateDescriptiveFileName. fold content.
  rewrite Htitle, Htech, Hfunc. reflexivity.
Qed.

(** C1: the identifier of [cacheSection] depends on the order in which the
    run time visits the technology map: visited as declared the name ends in
    [redis], visited backwards it ends in [docker]. *)
Theorem identifier_depends_on_map_order :
  rangeOrder declared /\ rangeOrder reversed /\
  generateDescriptiveFileName unicodeLower declared cacheSection
    = lit "data-layer-redis.md" /\
  generateDescriptiveFileName unicodeLower reversed cacheSection
    = lit "data-layer-docker.md".
Proof.
  split; [apply rangeOrder_declared|].
  split; [apply rangeOrder_reversed|].
  split; vm_compute; reflexivity.
Qed.

End WithCaseTables.

(** The case tables are not consulted on ASCII text; the examples below
    pass the identity for them. *)
Definition noCaseTables : gostring -> gostring := fun s => s.

Lemma empty_descriptors_give_unnamed_witness :
  generateDescriptiveFileName noCaseTables declared plainSection = lit "unnamed.md".
Proof.
  apply (@empty_descriptors_give_unnamed noCaseTables declared plainSection);
    vm_compute; reflexivity.
Defined.

End Naming.

Module Segmentation.
Import Go Classifier.

(** *** The sections of a document, as the design states them

    Every header line opens a section; its body is the text of the lines up
    to the next header line, and the lines before the first header belong
    to no section.  [candidates] lists these sections whatever their size;
    [parseSourceFile] is compared with it below. *)
Definition bodyText (body : list gostring) : gostring :=
  concat (map (fun line => line ++ [byte 10]) body).

Definition sectionOf (header : gostring) (startLine : Z) (body : list gostring) : ContentSection.t :=
  {| ContentSection.Title := TrimSpace (TrimLeft header (lit "#"));
     ContentSection.Content := TrimSpace (bodyText body);
     ContentSection.StartLine := startLine;
     ContentSection.EndLine := startLine + Z.of_nat (length body);
     ContentSection.WordCount := Z.of_nat (length (Fields (TrimSpace (bodyText body)))) |}.

Fixpoint takeBody (lines : list gostring) : list gostring :=
  match lines with
  | [] => []
  | line :: rest => if isHeader line then [] else line :: takeBody rest
  end.

Fixpoint candidates (n : Z) (lines : list gostring) : list ContentSection.t :=
  match lines with
  | [] => []
  | line :: rest =>
      if isHeader line
      then sectionOf line n (takeBody rest) :: candidates (n + 1) rest
      else candidates (n + 1) rest
  end.

Definition retained (s : ContentSection.t) : bool :=
  (MinWordCountForFile <=? ContentSection.WordCount s)%Z.

(** A header line with the lines that follow it up to the next header. *)
Record block : Type := { header : gostring; body : list gostring }.

Definition noHeader (lines : list gostring) : bool :=
  forallb (fun line => negb (isHeader line)) lines.

Definition wellFormed (b : block) : Prop :=
  isHeader (header b) = true /\
  noHeader (body b) = true /\
  (MinWordCountForFile <= Z.of_nat (length (Fields (bodyText (body b)))))%Z.

Definition linesOf (blocks : list block) : list gostring :=
  concat (map (fun b => header b :: body b) blocks).

(** The sections of a sequence of blocks whose first header is line [n]. *)
Fixpoint expected (n : Z) (blocks : list block) : list ContentSection.t :=
  match blocks with
  | [] => []
  | b :: rest =>
      sectionOf (header b) n (body b)
        :: expected (n + 1 + Z.of_nat (length (body b))) rest
  end.

(** *** The scanning loop computes the retained candidates *)

Lemma closeSection_spec (secs : list ContentSection.t) (cur : ContentSection.t)
    (buffer : gostring) (endLine : Z) :
  closeSection secs cur buffer endLine =
  secs ++ filter retained
    [ {| ContentSection.Title := ContentSection.Title cur;
         ContentSection.Content := TrimSpace buffer;
         ContentSection.StartLine := ContentSection.StartLine cur;
         ContentSection.EndLine := endLine;
         ContentSection.WordCount := Z.of_nat (length (Fields (TrimSpace buffer))) |} ].
Proof.
  unfold closeSection, retained. simpl.
  destruct (_ <=? _)%Z; [reflexivity | now rewrite app_nil_r].
Qed.

Lemma bodyText_cons (line : gostring) (body : list gostring) :
  bodyText (line :: body) = line ++ [byte 10] ++ bodyText body.
Proof. unfold bodyText. simpl. now rewrite <- app_assoc. Qed.

Lemma filter_one (A : Type) (f : A -> bool) (x : A) (l : list A) :
  filter f (x :: l) = filter f [x] ++ filter f l.
Proof. simpl. destruct (f x); reflexivity. Qed.

Lemma loop_spec (lines : list gostring) :
  forall p : parser,
    flush (fold_left scanLine lines p) (lineNum (fold_left scanLine lines p)) =
    match currentSection p with
    | None =>
        sections p ++ filter retained (candidates (lineNum p + 1) lines)
    | Some cur =>
        closeSection (sections p) cur
          (contentBuffer p ++ bodyText (takeBody lines))
          (lineNum p + Z.of_nat (length (takeBody lines)))
        ++ filter retained (candidates (lineNum p + 1) lines)
    end.
Proof.
  induction lines as [|line rest IH]; intros p.
  - simpl. unfold flush. destruct (currentSection p) as [cur|].
    + unfold bodyText. simpl. now rewrite !app_nil_r, Z.add_0_r.
    + now rewrite app_nil_r.
  - cbn [fold_left]. rewrite IH. clear IH.
    unfold scanLine. cbn [takeBody candidates].
    destruct (isHeader line) eqn:Hh.
    + cbn [currentSection sections contentBuffer lineNum].
      rewrite (closeSection_spec (flush p _)).
      cbn [ContentSection.Title ContentSection.StartLine].
      rewrite app_nil_l, (filter_one retained (sectionOf _ _ _)).
      unfold sectionOf, flush.
      replace (lineNum p + 1 - 1)%Z with (lineNum p) by lia.
      destruct (currentSection p) as [cur|].
      * change (bodyText []) with (@nil ascii). cbn [length Z.of_nat].
        rewrite app_nil_r, Z.add_0_r, <- !app_assoc. reflexivity.
      * rewrite <- !app_assoc. reflexivity.
    + destruct (currentSection p) as [cur|];
        cbn [currentSection sections contentBuffer lineNum].
      * rewrite bodyText_cons. cbn [length].
        rewrite <- !app_assoc. do 2 f_equal. lia.
      * reflexivity.
Qed.

Lemma parseLines_spec (lines : list gostring) :
  parseLines lines = filter retained (candidates 1 lines).
Proof.
  unfold parseLines. cbv zeta. rewrite loop_spec. reflexivity.
Qed.

Lemma candidates_noHeader (lines rest : list gostring) :
  forall n, noHeader lines = true ->
    candidates n (lines ++ rest) = candidates (n + Z.of_nat (length lines)) rest.
Proof.
  induction lines as [|l lines IH]; intros n H.
  - simpl. now rewrite Z.add_0_r.
  - simpl in H. apply andb_true_iff in H. destruct H as [Hl H].
    apply negb_true_iff in Hl. cbn [app candidates]. rewrite Hl, IH by assumption.
    f_equal. cbn [length]. lia.
Qed.

Lemma takeBody_noHeader (lines rest : list gostring) :
  noHeader lines = true ->
  match rest with [] => True | l :: _ => isHeader l = true end ->
  takeBody (lines ++ rest) = lines.
Proof.
  intros H Hrest. induction lines as [|l lines IH].
  - destruct rest as [|r rest]; [reflexivity|]. simpl. now rewrite Hrest.
  - simpl in H. apply andb_true_iff in H. destruct H as [Hl H].
    apply negb_true_iff in Hl. cbn [app takeBody]. rewrite Hl, IH by assumption.
    reflexivity.
Qed.

Lemma linesOf_head (blocks : list block) :
  Forall wellFormed blocks ->
  match linesOf blocks with [] => True | l :: _ => isHeader l = true end.
Proof.
  intros H. destruct H as [|b rest [Hh _] _]; simpl; auto.
Qed.

Lemma candidates_blocks (blocks : list block) :
  forall n, Forall wellFormed blocks ->
    candidates n (linesOf blocks) = expected n blocks.
Proof.
  induction blocks as [|b rest IH]; intros n H; [reflexivity|].
  inversion H as [|? ? Hb Hrest]; subst.
  destruct Hb as [Hh [Hbody _]].
  unfold linesOf. cbn [map concat app candidates expected]. rewrite Hh.
  fold (linesOf rest).
  rewrite takeBody_noHeader by (try assumption; apply linesOf_head; assumption).
  rewrite candidates_noHeader by assumption.
  rewrite IH by assumption. reflexivity.
Qed.

Lemma expected_retained (blocks : list block) :
  forall n, Forall wellFormed blocks ->
    filter retained (expected n blocks) = expected n blocks.
Proof.
  induction blocks as [|b rest IH]; intros n H; [reflexivity|].
  inversion H as [|? ? Hb Hrest]; subst.
  destruct Hb as [_ [_ Hwords]].
  cbn [expected filter]. unfold retained at 1. cbn [sectionOf ContentSection.WordCount].
  rewrite SpaceFacts.Fields_TrimSpace.
  apply Z.leb_le in Hwords. rewrite Hwords, IH by assumption. reflexivity.
Qed.

Lemma expected_length (blocks : list block) :
  forall n, length (expected n blocks) = length blocks.
Proof. induction blocks; intros n; simpl; auto. Qed.

Lemma expected_contents (blocks : list block) :
  forall n,
    map ContentSection.Content (expected n blocks) =
    map (fun b => TrimSpace (bodyText (body b))) blocks.
Proof. induction blocks as [|b rest IH]; intros n; simpl; [|rewrite IH]; auto. Qed.

Lemma expected_titles (blocks : list block) :
  forall n,
    map ContentSection.Title (expected n blocks) =
    map (fun b => TrimSpace (TrimLeft (header b) (lit "#"))) blocks.
Proof. induction blocks as [|b rest IH]; intros n; simpl; [|rewrite IH]; auto. Qed.


Lemma parseSourceFile_scanned (content : gostring) (lines : list gostring) :
  ScanLines content = (lines, false) ->
  parseSourceFile (Ok content) = Ok (filter retained (candidates 1 lines)).
Proof.
  intros H. unfold parseSourceFile. rewrite H, parseLines_spec. reflexivity.
Qed.

Lemma parseSourceFile_inv (file : result gostring) (secs : list ContentSection.t) :
  parseSourceFile file = Ok secs ->
  exists content lines,
    file = Ok content /\ ScanLines content = (lines, false) /\
    secs = filter retained (candidates 1 lines).
Proof.
  unfold parseSourceFile. destruct file as [content|e]; [|discriminate].
  destruct (ScanLines content) as [lines failed] eqn:Hs.
  destruct failed; [discriminate|].
  intros H. injection H as <-. exists content, lines.
  rewrite parseLines_spec. auto.
Qed.

Lemma candidates_wordCount (lines : list gostring) :
  forall n,
    Forall (fun s => ContentSection.WordCount s =
                     Z.of_nat (length (Fields (ContentSection.Content s))))
           (candidates n lines).
Proof.
  induction lines as [|l lines IH]; intros n; cbn [candidates]; [constructor|].
  destruct (isHeader l); [constructor|]; auto.
Qed.

(** C4, as the code has it: a document whose lines the scanner delivers
    and that consists of some lines without header followed by N blocks,
    each a header line and a body of at least ten words without header
    line, is cut into exactly N sections, in the order of the document; the
    body of each section is the text of its block's lines, each followed by
    a line feed, with the white space at both ends trimmed.  The lines
    before the first header are in no section. *)
Theorem segmentation_yields_one_section_per_block
    (content : gostring) (preamble : list gostring) (blocks : list block) :
  ScanLines content = (preamble ++ linesOf blocks, false) ->
  noHeader preamble = true ->
  Forall wellFormed blocks ->
  exists secs,
    parseSourceFile (Ok content) = Ok secs /\
    secs = expected (1 + Z.of_nat (length preamble)) blocks /\
    length secs = length blocks /\
    map ContentSection.Title secs =
      map (fun b => TrimSpace (TrimLeft (header b) (lit "#"))) blocks /\
    map ContentSection.Content secs =
      map (fun b => TrimSpace (bodyText (body b))) blocks.
Proof.
  intros Hscan Hpre Hblocks.
  exists (expected (1 + Z.of_nat (length preamble)) blocks).
  rewrite (parseSourceFile_scanned _ Hscan).
  rewrite candidates_noHeader, candidates_blocks, expected_retained by assumption.
  rewrite expected_length, expected_titles, expected_contents. auto.
Qed.

(** C5: every section [parseSourceFile] stores, and every context file made
    from it, has at least [MinWordCountForFile] words, counted as the
    fields of its content.  The stored sections are the candidate sections
    of the document that reach the minimum, each with its own body: a
    smaller one is left out and its text is in no other section. *)
Theorem sections_reach_minimum_word_count
    (unicodeLower : gostring -> gostring) (orders : nat -> MapOrder)
    (validated : option error) (file : result gostring)
    (files : list ContextFile.t) :
  AnalyzeAndGenerate unicodeLower orders validated file = Ok files ->
  exists content lines secs,
    file = Ok content /\ ScanLines content = (lines, false) /\
    parseSourceFile file = Ok secs /\
    secs = filter retained (candidates 1 lines) /\
    Forall (fun s =>
              (MinWordCountForFile <= ContentSection.WordCount s)%Z /\
              ContentSection.WordCount s =
                Z.of_nat (length (Fields (ContentSection.Content s)))) secs /\
    map ContextFile.Content files = map ContentSection.Content secs /\
    Forall (fun f =>
              (MinWordCountForFile <= ContextFile.WordCount f)%Z /\
              ContextFile.WordCount f =
                Z.of_nat (length (Fields (ContextFile.Content f)))) files.
Proof.
  unfold AnalyzeAndGenerate. destruct validated; [discriminate|].
  destruct (parseSourceFile file) as [secs|e] eqn:Hparse; [|discriminate].
  intros H. injection H as <-.
  destruct (parseSourceFile_inv _ Hparse) as (content & lines & Hfile & Hscan & Hsecs).
  exists content, lines, secs.
  assert (Hall : Forall (fun s =>
              (MinWordCountForFile <= ContentSection.WordCount s)%Z /\
              ContentSection.WordCount s =
                Z.of_nat (length (Fields (ContentSection.Content s)))) secs).
  { subst secs. apply Forall_forall. intros s Hin.
    apply filter_In in Hin. destruct Hin as [Hin Hkeep].
    split; [now apply Z.leb_le|].
    pose proof (candidates_wordCount lines 1) as Hwc.
    rewrite Forall_forall in Hwc. now apply Hwc. }
  repeat split; auto.
  - unfold generateContextFiles. generalize 0%nat.
    clear. induction secs as [|s secs IH]; intros i; simpl; [|rewrite IH]; auto.
  - unfold generateContextFiles. generalize 0%nat.
    clear - Hall. induction Hall as [|s secs Hs _ IH]; intros i; simpl; constructor; auto.
Qed.

(** A document with a line before its first header and two sections. *)
Definition sample : gostring :=
  lit "intro" ++ [byte 10] ++
  lit "## Setup" ++ [byte 10] ++
  [byte 10] ++
  lit "alpha beta gamma delta epsilon zeta eta theta iota kappa" ++ [byte 10] ++
  lit "## Usage" ++ [byte 10] ++
  lit "one two three four five six seven eight nine ten eleven" ++ [byte 10].

Definition sampleBlocks : list block :=
  [ {| header := lit "## Setup";
       body := [ []; lit "alpha beta gamma delta epsilon zeta eta theta iota kappa" ] |};
    {| header := lit "## Usage";
       body := [ lit "one two three four five six seven eight nine ten eleven" ] |} ].

Lemma sampleBlocks_wellFormed : Forall wellFormed sampleBlocks.
Proof.
  repeat constructor; try (vm_compute; reflexivity);
    apply Z.leb_le; vm_compute; reflexivity.
Defined.

Lemma segmentation_yields_one_section_per_block_witness :
  exists secs,
    parseSourceFile (Ok sample) = Ok secs /\
    secs = expected (1 + Z.of_nat (length [lit "intro"])) sampleBlocks /\
    length secs = length sampleBlocks /\
    map ContentSection.Title secs =
      map (fun b => TrimSpace (TrimLeft (header b) (lit "#"))) sampleBlocks /\
    map ContentSection.Content secs =
      map (fun b => TrimSpace (bodyText (body b))) sampleBlocks.
Proof.
  apply (@segmentation_yields_one_section_per_block sample [lit "intro"] sampleBlocks).
  - vm_compute; reflexivity.
  - vm_compute; reflexivity.
  - apply sampleBlocks_wellFormed.
Defined.

(** C4 as the specification states it reads the body as exactly the text
    between two header lines.  In [spaced] the header is followed by an empty line: the text
    between the header line and the end of the document is [spacedText],
    and the body stored is that text without the line feeds around it. *)
Definition spacedText : gostring :=
  [byte 10] ++ lit "alpha beta gamma delta epsilon zeta eta theta iota kappa" ++ [byte 10].

Definition spaced : gostring := lit "## Setup" ++ [byte 10] ++ spacedText.

Definition spacedBlock : block :=
  {| header := lit "## Setup";
     body := [ []; lit "alpha beta gamma delta epsilon zeta eta theta iota kappa" ] |}.

Lemma body_is_not_the_exact_text :
  ScanLines spaced = (linesOf [spacedBlock], false) /\
  wellFormed spacedBlock /\
  bodyText (body spacedBlock) = spacedText /\
  parseSourceFile (Ok spaced) = Ok (expected 1 [spacedBlock]) /\
  map ContentSection.Content (expected 1 [spacedBlock])
    = [lit "alpha beta gamma delta epsilon zeta eta theta iota kappa"] /\
  map ContentSection.Content (expected 1 [spacedBlock]) <> [spacedText].
Proof.
  repeat split; try (vm_compute; reflexivity).
  - apply Z.leb_le; vm_compute; reflexivity.
  - vm_compute. intros H. discriminate H.
Qed.

Definition sampleFiles : list ContextFile.t :=
  generateContextFiles Naming.noCaseTables (fun _ => declared)
    (expected 2 sampleBlocks).

Lemma sections_reach_minimum_word_count_witness :
  Forall (fun f =>
            (MinWordCountForFile <= ContextFile.WordCount f)%Z /\
            ContextFile.WordCount f =
              Z.of_nat (length (Fields (ContextFile.Content f)))) sampleFiles.
Proof.
  destruct (@sections_reach_minimum_word_count Naming.noCaseTables
              (fun _ => declared) None (Ok sample) sampleFiles)
    as (content & lines & secs & _ & _ & _ & _ & _ & _ & H).
  - vm_compute; reflexivity.
  - exact H.
Defined.

End Segmentation.

Module Convert.
Import Go Classifier Cmd.


Lemma generateContextFiles_length (unicodeLower : gostring -> gostring)
    (orders : nat -> MapOrder) (secs : list ContentSection.t) :
  length (generateContextFiles unicodeLower orders secs) = length secs.
Proof.
  unfold generateContextFiles. generalize 0%nat.
  induction secs as [|s secs IH]; intros i; simpl; [|rewrite IH]; reflexivity.
Qed.

(** What [analyzeAndGenerateFiles] returns on success is not empty. *)
Lemma analyzeAndGenerateFiles_not_empty (unicodeLower : gostring -> gostring)
    (env : ConvertEnv) (contextFiles : list ContextFile.t) :
  analyzeAndGenerateFiles unicodeLower env = Ok contextFiles ->
  (0 < Z.of_nat (length contextFiles))%Z.
Proof.
  unfold analyzeAndGenerateFiles.
  destruct (AnalyzeAndGenerate _ _ _ _) as [files|e]; [|discriminate].
  destruct (Z.eqb_spec (Z.of_nat (length files)) 0); [discriminate|].
  intros H. injection H as <-. lia.
Qed.

Lemma quo_defined (a b : Z) : (0 < b)%Z -> quo a b = Some (Z.quot a b).
Proof.
  intros H. unfold quo. destruct (Z.eqb_spec b 0); [lia | reflexivity].
Qed.

(** *** The scanner and lines of 64 KiB *)

Lemma rawLines_run (run : gostring) :
  forall cur rest,
    Forall (fun c => c <> byte 10) run ->
    rawLines cur (run ++ rest) = rawLines (cur ++ run) rest.
Proof.
  induction run as [|c run IH]; intros cur rest H.
  - now rewrite app_nil_r.
  - inversion H as [|? ? Hc Hrun]; subst. cbn [app rawLines].
    destruct (Ascii.eqb_spec c (byte 10)) as [E|_]; [now destruct Hc|].
    rewrite IH by assumption. now rewrite <- app_assoc.
Qed.

Lemma rawLines_long (rest : gostring) :
  forall cur, (MaxScanTokenSize <= len cur)%Z ->
    exists l ls, rawLines cur rest = l :: ls /\ (MaxScanTokenSize <= len l)%Z.
Proof.
  induction rest as [|c rest IH]; intros cur H.
  - cbn [rawLines]. destruct cur as [|d cur]; [|eauto].
    unfold len, MaxScanTokenSize in H. simpl in H. lia.
  - cbn [rawLines]. destruct (Ascii.eqb c (byte 10)); [eauto|].
    apply IH. unfold len in *. rewrite length_app. cbn [length]. lia.
Qed.

Lemma rawLines_before (before : gostring) :
  forall cur x, exists pre cur',
    rawLines cur (before ++ x) = pre ++ rawLines cur' x.
Proof.
  induction before as [|c before IH]; intros cur x.
  - now exists [], cur.
  - cbn [app rawLines]. destruct (Ascii.eqb c (byte 10)).
    + destruct (IH [] x) as (pre & cur' & ->). now exists (cur :: pre), cur'.
    + apply IH.
Qed.

Lemma deliver_long (pre : list gostring) (l : gostring) (ls : list gostring) :
  (MaxScanTokenSize <= len l)%Z -> snd (deliver (pre ++ l :: ls)) = true.
Proof.
  intros H. induction pre as [|p pre IH]; cbn [app deliver].
  - apply Z.leb_le in H. now rewrite H.
  - destruct (MaxScanTokenSize <=? len p)%Z; [reflexivity|].
    destruct (deliver (pre ++ l :: ls)). exact IH.
Qed.

(** A run of 65536 bytes or more without a line feed makes the scanner
    fail. *)
Lemma scan_overlong (before run rest : gostring) :
  Forall (fun c => c <> byte 10) run ->
  (MaxScanTokenSize <= len run)%Z ->
  snd (ScanLines (before ++ run ++ rest)) = true.
Proof.
  intros Hrun Hlen. unfold ScanLines.
  destruct (rawLines_before before [] (run ++ rest)) as (pre & cur & ->).
  rewrite rawLines_run by assumption.
  destruct (@rawLines_long rest (cur ++ run)) as (l & ls & -> & Hl).
  { unfold len in *. rewrite length_app. lia. }
  exact (@deliver_long pre l ls Hl).
Qed.

Definition scanningError : error := Wrap "error scanning file" ErrTooLong.

Lemma parse_overlong (before run rest : gostring) :
  Forall (fun c => c <> byte 10) run ->
  (MaxScanTokenSize <= len run)%Z ->
  parseSourceFile (Ok (before ++ run ++ rest)) = Err scanningError.
Proof.
  intros Hrun Hlen. pose proof (scan_overlong before rest Hrun Hlen) as Hfail.
  unfold parseSourceFile.
  destruct (ScanLines (before ++ run ++ rest)) as [lines failed].
  cbn [snd] in Hfail. now rewrite Hfail.
Qed.




(** C9: the two divisions by [len(contextFiles)] are reached with a list
    that is not empty, and no run of the convert command panics. *)
Theorem convert_never_divides_by_zero
    (unicodeLower : gostring -> gostring) (env : ConvertEnv) (dryRun noBackup : bool) :
  (forall contextFiles,
     analyzeAndGenerateFiles unicodeLower env = Ok contextFiles ->
     contextFiles <> [] /\
     previewConversion contextFiles = Value None /\
     printConversionSuccess contextFiles = Value tt) /\
  runConvert unicodeLower env dryRun noBackup <> Panic.
Proof.
  assert (Hguard : forall contextFiles,
     analyzeAndGenerateFiles unicodeLower env = Ok contextFiles ->
     contextFiles <> [] /\
     previewConversion contextFiles = Value None /\
     printConversionSuccess contextFiles = Value tt).
  { intros files Hok. apply analyzeAndGenerateFiles_not_empty in Hok.
    unfold previewConversion, printConversionSuccess.
    rewrite quo_defined by assumption.
    repeat split. intros ->. simpl in Hok. lia. }
  split; [exact Hguard|].
  unfold runConvert.
  destruct (validateConvertInputs env); [discriminate|].
  destruct (if negb dryRun && negb noBackup then createBackup env else None);
    [discriminate|].
  destruct (analyzeAndGenerateFiles unicodeLower env) as [files|e] eqn:Hok;
    [|discriminate].
  destruct (Hguard files eq_refl) as (_ & Hpreview & Hprint).
  rewrite Hpreview, Hprint.
  destruct dryRun; [discriminate|].
  destruct (executeConversion env files); discriminate.
Qed.

(** A run in which every step outside the analysis succeeds; the source is
    the text [source]. *)
Definition quietEnv (source : gostring) : ConvertEnv :=
  {| validateConvertInputs := None;
     createBackup := None;
     validateMarkdownFile := None;
     readSourceFile := Ok source;
     mapOrders := fun _ => declared;
     contextDir := lit "context";
     mkdirAll := None;
     writeFile := fun _ _ => None;
     updateForTemplate := None;
     applyTemplate := None;
     readMainFile := Ok (nth 0 placeholders []);
     writeMainFile := fun _ => None |}.





Lemma convert_never_divides_by_zero_witness :
  Segmentation.sampleFiles <> [] /\
  previewConversion Segmentation.sampleFiles = Value None /\
  printConversionSuccess Segmentation.sampleFiles = Value tt.
Proof.
  destruct (convert_never_divides_by_zero Naming.noCaseTables
              (quietEnv Segmentation.sample) true false) as [Hguard _].
  apply Hguard. vm_compute; reflexivity.
Defined.

End Convert.

Module UpdateScan.
Import Go Cmd.

(** The entries [scanContextDirectory] keeps. *)
Definition isChapter (entry : DirEntry) : bool :=
  negb (IsDir entry) && HasSuffix (Name entry) (lit ".md").

Definition before (s t : gostring) : Prop := leStr s t = true.

Lemma leStr_trans (s t u : gostring) :
  leStr s t = true -> leStr t u = true -> leStr s u = true.
Proof.
  revert t u. induction s as [|a s IH]; intros [|b t] [|c u]; simpl; auto;
    try discriminate.
  intros H1 H2.
  apply orb_true_iff in H1. apply orb_true_iff in H2. apply orb_true_iff.
  destruct H1 as [H1|H1], H2 as [H2|H2];
    rewrite ?andb_true_iff, ?N.ltb_lt, ?N.eqb_eq in *.
  - left. lia.
  - left. destruct H2 as [H2 _]. lia.
  - left. destruct H1 as [H1 _]. lia.
  - right. destruct H1 as [H1 H1'], H2 as [H2 H2']. split; [lia|]. eapply IH; eauto.
Qed.

Lemma collectMarkdown_spec (entries : list DirEntry) :
  collectMarkdown entries = map onlyFileName (map Name (filter isChapter entries)).
Proof.
  induction entries as [|e entries IH]; [reflexivity|].
  cbn [collectMarkdown filter]. unfold isChapter at 1.
  destruct (IsDir e); cbn [negb orb andb]; [exact IH|].
  destruct (HasSuffix (Name e) (lit ".md")); cbn [negb map]; [|exact IH].
  now rewrite IH.
Qed.

Lemma sorted_names (entries : list DirEntry) :
  StronglySorted before (map Name (filter isChapter (EntrySort.sort entries))).
Proof.
  assert (Htrans : Transitive (fun x y : DirEntry => is_true (EntryOrder.leb x y))).
  { intros x y z. unfold is_true, EntryOrder.leb. apply leStr_trans. }
  pose proof (EntrySort.StronglySorted_sort entries Htrans) as Hs.
  induction Hs as [|e l Hl IH Hall]; cbn [filter map]; [constructor|].
  destruct (isChapter e); cbn [map]; [|exact IH].
  constructor; [exact IH|].
  apply Forall_forall. intros name Hin.
  apply in_map_iff in Hin. destruct Hin as (e' & <- & Hin).
  apply filter_In in Hin. destruct Hin as [Hin _].
  rewrite Forall_forall in Hall. exact (Hall e' Hin).
Qed.

Lemma filter_Permutation (A : Type) (f : A -> bool) (l l' : list A) :
  Permutation l l' -> Permutation (filter f l) (filter f l').
Proof.
  induction 1 as [|x l l' _ IH|x y l|l l' l'' _ IH1 _ IH2]; simpl.
  - constructor.
  - destruct (f x); auto.
  - destruct (f x), (f y); auto. constructor.
  - eapply Permutation_trans; eauto.
Qed.

Lemma chapterListFrom_entries (names : list gostring) (dir : gostring) :
  forall i,
    chapterListFrom i (map onlyFileName names) dir =
    concat (map (fun p => chapterEntry (fst p) (onlyFileName (snd p)) dir)
                (combine (seq i (length names)) names)).
Proof.
  induction names as [|name names IH]; intros i; [reflexivity|].
  cbn [map chapterListFrom length seq combine concat fst snd].
  now rewrite IH.
Qed.

(** What the update command does once the context directory is found
    and holds chapters. *)
Lemma runUpdate_regenerates (env : UpdateEnv) (entries : list DirEntry)
    (forceUpdate : bool) :
  let chapterFiles :=
    map onlyFileName (map Name (filter isChapter (EntrySort.sort entries))) in
  contextDirEntries env = Ok entries ->
  validateDirectoryPath env = None ->
  validateTemplate env = None ->
  contextDirStat env <> NotExist ->
  getMainFileForTemplate env = None ->
  chapterFiles <> [] ->
  runUpdate env forceUpdate =
    (if forceUpdate then regenerate env chapterFiles
     else match checkIfUpdateNeeded env chapterFiles with
          | (false, None) => None
          | _ => regenerate env chapterFiles
          end).
Proof.
  intros chapterFiles Hdir Hpath Htemplate Hstat Hmain Hfiles.
  assert (Hscan : scanContextDirectory (Ok entries) = Ok chapterFiles).
  { unfold scanContextDirectory, Os.ReadDir. now rewrite collectMarkdown_spec. }
  unfold runUpdate. rewrite Hpath, Htemplate, Hdir, Hscan, Hmain.
  destruct (Z.eqb_spec (Z.of_nat (length chapterFiles)) 0) as [E|_].
  - destruct chapterFiles; [congruence | simpl in E; lia].
  - destruct (contextDirStat env); try congruence;
      destruct forceUpdate; try reflexivity;
      destruct (checkIfUpdateNeeded env chapterFiles) as [[] []]; reflexivity.
Qed.

(** C10: in update mode the chapters handed to the regeneration of the
    index are the entries of the context directory that are no directory
    and whose name ends in [.md], in the sorted order in which [os.ReadDir]
    lists them; the numbered entries of the index follow that order; and
    when the update is forced or the index is found stale, the text
    written to the index file is the text read from it with every
    placeholder replaced by these numbered entries. *)
Theorem update_chapters_are_sorted_markdown_entries
    (env : UpdateEnv) (entries : list DirEntry) :
  let names := map Name (filter isChapter (EntrySort.sort entries)) in
  let chapterFiles := map onlyFileName names in
  let numbered :=
    concat (map (fun p => chapterEntry (fst p) (onlyFileName (snd p)) (lit "context"))
                (combine (seq 0 (length names)) names)) in
  scanContextDirectory (Ok entries) = Ok chapterFiles /\
  Permutation names (map Name (filter isChapter entries)) /\
  StronglySorted before names /\
  chapterList chapterFiles (lit "context") = numbered /\
  (forall forceUpdate,
   contextDirEntries env = Ok entries ->
   validateDirectoryPath env = None ->
   validateTemplate env = None ->
   contextDirStat env <> NotExist ->
   getMainFileForTemplate env = None ->
   chapterFiles <> [] ->
   runUpdate env forceUpdate =
     (if forceUpdate then regenerate env chapterFiles
      else match checkIfUpdateNeeded env chapterFiles with
           | (false, None) => None
           | _ => regenerate env chapterFiles
           end) /\
   regenerate env chapterFiles =
     match configureTemplate env with
     | Some e => Some (Wrap "failed to configure template" e)
     | None =>
         match regenerateTemplate env with
         | Some e => Some (Wrap "failed to apply template" e)
         | None =>
             match UpdateTemplateWithChapters (readIndexFile env) (writeIndexFile env)
                     chapterFiles (lit "context") with
             | Some e => Some (Wrap "failed to update template with chapters" e)
             | None => None
             end
         end
     end) /\
  (forall forceUpdate content,
   contextDirEntries env = Ok entries ->
   validateDirectoryPath env = None ->
   validateTemplate env = None ->
   contextDirStat env <> NotExist ->
   getMainFileForTemplate env = None ->
   chapterFiles <> [] ->
   forceUpdate = true \/ checkIfUpdateNeeded env chapterFiles <> (false, None) ->
   configureTemplate env = None ->
   regenerateTemplate env = None ->
   readIndexFile env = Ok content ->
   runUpdate env forceUpdate =
     match writeIndexFile env
             (fold_left
                (fun updated placeholder =>
                   ReplaceAll updated placeholder (TrimSpace numbered))
                placeholders content) with
     | Some e => Some (Wrap "failed to update template with chapters" e)
     | None => None
     end) /\
  (validateDirectoryPath env = None ->
   validateTemplate env = None ->
   contextDirStat env = NotExist ->
   forall forceUpdate,
     runUpdate env forceUpdate =
     Some (New ("context directory not found: " ++ text (contextDirPath env) ++
                String (byte 10) "Run 'contindex init' to set up the structure")%string)).
Proof.
  intros names chapterFiles numbered.
  assert (Hscan : scanContextDirectory (Ok entries) = Ok chapterFiles).
  { unfold scanContextDirectory, Os.ReadDir. now rewrite collectMarkdown_spec. }
  assert (Hlist : chapterList chapterFiles (lit "context") = numbered)
    by apply chapterListFrom_entries.
  split; [exact Hscan|].
  split.
  { apply Permutation_map, filter_Permutation, Permutation_sym, EntrySort.Permuted_sort. }
  split; [apply sorted_names|].
  split; [exact Hlist|].
  split; [|split].
  - intros forceUpdate Hdir Hpath Htemplate Hstat Hmain Hfiles.
    split; [|reflexivity].
    now apply runUpdate_regenerates.
  - intros forceUpdate content Hdir Hpath Htemplate Hstat Hmain Hfiles Hdue
      Hconf Hregen Hread.
    rewrite (@runUpdate_regenerates env entries forceUpdate
               Hdir Hpath Htemplate Hstat Hmain Hfiles).
    fold names. fold chapterFiles.
    assert (Hwrite : regenerate env chapterFiles =
              match writeIndexFile env
                      (fold_left
                         (fun updated placeholder =>
                            ReplaceAll updated placeholder (TrimSpace numbered))
                         placeholders content) with
              | Some e => Some (Wrap "failed to update template with chapters" e)
              | None => None
              end).
    { unfold regenerate. rewrite Hconf, Hregen, Hread.
      unfold UpdateTemplateWithChapters, updatedContent. now rewrite Hlist. }
    destruct forceUpdate; [exact Hwrite|].
    destruct Hdue as [Hforce|Hstale]; [discriminate Hforce|].
    destruct (checkIfUpdateNeeded env chapterFiles) as [[] []];
      first [exact Hwrite | congruence].
  - intros Hpath Htemplate Hstat forceUpdate.
    unfold runUpdate. rewrite Hpath, Htemplate, Hstat. reflexivity.
Qed.

(** A context directory with two chapters, a subdirectory and a text file,
    stored in no particular order. *)
Definition sampleDirectory : list DirEntry :=
  [ {| Name := lit "login-auth.md"; IsDir := false |};
    {| Name := lit "notes.txt"; IsDir := false |};
    {| Name := lit "archive.md"; IsDir := true |};
    {| Name := lit "db-schema.md"; IsDir := false |} ].

(** An update run on that directory; the index file holds a title and the
    first placeholder, and writing to it fails with an error that shows the
    text to be written. *)
Definition sampleUpdate : UpdateEnv :=
  {| validateDirectoryPath := None;
     validateTemplate := None;
     contextDirPath := lit "context";
     contextDirStat := ModTime 0;
     contextDirEntries := Ok sampleDirectory;
     getMainFileForTemplate := None;
     indexStat := ModTime 5;
     chapterStat := fun _ => ModTime 3;
     configureTemplate := None;
     regenerateTemplate := None;
     readIndexFile := Ok (lit "# Index" ++ [byte 10] ++ nth 0 placeholders []);
     writeIndexFile := fun written => Some (New (text written)) |}.

Lemma update_chapters_are_sorted_markdown_entries_witness :
  runUpdate sampleUpdate true
    = regenerate sampleUpdate
        (map onlyFileName [lit "db-schema.md"; lit "login-auth.md"]) /\
  runUpdate sampleUpdate true =
    Some (Wrap "failed to update template with chapters"
            (New (text (lit "# Index" ++ [byte 10] ++
                        lit "1. **db-schema** - `context/db-schema.md`" ++ [byte 10] ++
                        lit "2. **login-auth** - `context/login-auth.md`")))).
Proof.
  destruct (update_chapters_are_sorted_markdown_entries sampleUpdate sampleDirectory)
    as (_ & _ & _ & _ & Hrun & Hwritten & _).
  split.
  - apply (Hrun true); try (vm_compute; reflexivity); vm_compute; discriminate.
  - rewrite (Hwritten true (lit "# Index" ++ [byte 10] ++ nth 0 placeholders []));
      try (vm_compute; reflexivity).
    + vm_compute; discriminate.
    + vm_compute; discriminate.
    + now left.
Defined.

End UpdateScan.

Module IndexSync.
Import Go Cmd StringFacts.

Definition chapterPlaceholder : gostring := nth 0 placeholders [].
Definition contextPlaceholder : gostring := nth 1 placeholders [].

(** A text that holds neither placeholder. *)
Definition placeholderFree (s : gostring) : Prop :=
  Contains s chapterPlaceholder = false /\ Contains s contextPlaceholder = false.

(** A text given by its pieces: [s0], then for every element of [pieces] a
    placeholder (the first one for [true], the second for [false]) and the
    text that follows it.  [X] and [Y] stand for what is written at the
    place of the first and of the second placeholder. *)
Definition assemble (X Y s0 : gostring) (pieces : list (bool * gostring)) : gostring :=
  s0 ++ concat (map (fun p : bool * gostring => (if fst p then X else Y) ++ snd p) pieces).

Definition document : gostring -> list (bool * gostring) -> gostring :=
  assemble chapterPlaceholder contextPlaceholder.

(** C2 as the specification states it: only the first occurrence of a
    placeholder is replaced. *)
Fixpoint replaceFirstOf (olds : list gostring) (new s : gostring) : gostring :=
  match s with
  | [] => []
  | c :: t =>
      match find (HasPrefix s) olds with
      | Some old => new ++ skipn (length old) s
      | None => c :: replaceFirstOf olds new t
      end
  end.

Definition firstOccurrenceReplaced (content : gostring)
    (contextFiles : list ContextFile.t) (contextDirName : gostring) : gostring :=
  replaceFirstOf placeholders (TrimSpace (chapterList contextFiles contextDirName)) content.

Definition mem (c : ascii) (s : gostring) : bool := existsb (Ascii.eqb c) s.

Lemma mem_false (c : ascii) (s : gostring) : mem c s = false -> ~ In c s.
Proof.
  intros H Hin. unfold mem in H.
  assert (E : existsb (Ascii.eqb c) s = true).
  { apply existsb_exists. exists c. split; [exact Hin | apply Ascii.eqb_refl]. }
  congruence.
Qed.

(** A character is shown absent from a literal by running [mem]. *)
Ltac absent := apply mem_false; vm_compute; reflexivity.

Lemma eqs_false (s t : gostring) : eqs s t = false -> s <> t.
Proof.
  intros H E. subst t. induction s as [|c s IH]; [discriminate|].
  simpl in H. rewrite Ascii.eqb_refl in H. auto.
Qed.

(** *** Two passes of replacement, for any two patterns that start with the
    same character [o] and hold it nowhere else, and a replacement text
    that starts with another character [n0] *)
Section Passes.

Variables (o : ascii) (osA osB : gostring) (n0 : ascii) (L' : gostring).

Let A : gostring := o :: osA.
Let B : gostring := o :: osB.
Let L : gostring := n0 :: L'.

Hypothesis o_osA : ~ In o osA.
Hypothesis o_osB : ~ In o osB.
Hypothesis n0_o : n0 <> o.
Hypothesis n0_osA : ~ In n0 osA.
Hypothesis n0_osB : ~ In n0 osB.
Hypothesis B_not_A : forall rest, HasPrefix (B ++ rest) A = false.

Let free (s : gostring) : Prop := Contains s A = false /\ Contains s B = false.

Let passes (s : gostring) : gostring := replaceFrom B L 0 (replaceFrom A L 0 s).

Lemma assemble_cons (X Y s0 : gostring) (p : bool * gostring)
    (pieces : list (bool * gostring)) :
  assemble X Y s0 (p :: pieces) =
  s0 ++ (if fst p then X else Y) ++ assemble X Y (snd p) pieces.
Proof. unfold assemble. cbn [map concat]. now rewrite <- !app_assoc. Qed.

Lemma assemble_nil (X Y s0 : gostring) : assemble X Y s0 [] = s0.
Proof. unfold assemble. simpl. apply app_nil_r. Qed.

Lemma assemble_one (X Y : gostring) (ph : bool) (c : gostring) :
  assemble X Y [] [(ph, c)] = (if ph then X else Y) ++ c.
Proof. rewrite assemble_cons, assemble_nil. reflexivity. Qed.

Lemma first_pass (pieces : list (bool * gostring)) :
  forall s0, free s0 -> Forall (fun p => free (snd p)) pieces ->
    replaceFrom A L 0 (assemble A B s0 pieces) = assemble L B s0 pieces.
Proof.
  induction pieces as [|[ph s] pieces IH]; intros s0 [HA HB] Hall.
  - rewrite !assemble_nil. now apply R_absent.
  - inversion Hall as [|? ? Hs Hrest]; subst. cbn [snd] in Hs.
    rewrite !assemble_cons. cbn [fst snd].
    unfold A at 1. rewrite R_pass.
    + f_equal. fold A. destruct ph.
      * unfold A at 1 2. rewrite R_hit. fold A. now rewrite IH.
      * unfold A at 1. rewrite R_pass; [fold A; now rewrite IH|].
        unfold B at 1. cbn [startsIn]. fold B.
        change (o :: osB ++ ?x) with (B ++ x).
        fold A. rewrite B_not_A. now apply startsIn_fresh.
    + apply startsIn_absent; [exact HA|]. destruct ph; exact o_osA.
Qed.

Lemma second_pass (pieces : list (bool * gostring)) :
  runsInto L B = false ->
  forall s0, free s0 -> Forall (fun p => free (snd p)) pieces ->
    replaceFrom B L 0 (assemble L B s0 pieces) = assemble L L s0 pieces.
Proof.
  intros Hclear.
  induction pieces as [|[ph s] pieces IH]; intros s0 [HA HB] Hall.
  - rewrite !assemble_nil. now apply R_absent.
  - inversion Hall as [|? ? Hs Hrest]; subst. cbn [snd] in Hs.
    rewrite !assemble_cons. cbn [fst snd].
    unfold B at 1. rewrite R_pass.
    + f_equal. fold B. destruct ph.
      * unfold B at 1. rewrite R_pass; [fold B; now rewrite IH|].
        now apply startsIn_clear.
      * unfold B at 1 2. rewrite R_hit. fold B. now rewrite IH.
    + apply startsIn_absent; [exact HB|]. destruct ph; [exact n0_osB | exact o_osB].
Qed.

Lemma n0_A : ~ In n0 A.
Proof. intros [E|Hin]; [apply n0_o; now symmetry | now apply n0_osA]. Qed.

Lemma n0_B : ~ In n0 B.
Proof. intros [E|Hin]; [apply n0_o; now symmetry | now apply n0_osB]. Qed.

(** After the two passes neither pattern is left, when the replacement
    text runs into neither. *)
Lemma passes_leave_none (s : gostring) :
  runsInto L A = false -> runsInto L B = false -> free (passes s).
Proof.
  intros HcA HcB. split.
  - destruct (Contains (passes s) A) eqn:H; [|reflexivity].
    apply (@Contains_R o osB L n0 L' eq_refl o osA HcA n0_A) in H.
    unfold A in H. now rewrite (@Contains_R_old o osA L n0 L' eq_refl HcA n0_A) in H.
  - apply (@Contains_R_old o osB L n0 L' eq_refl HcB n0_B).
Qed.

(** A text without [o] holds neither pattern. *)
Lemma free_fresh (c : gostring) : ~ In o c -> free c.
Proof.
  intros H. split.
  - rewrite <- (app_nil_r c). unfold A. now rewrite Contains_skip.
  - rewrite <- (app_nil_r c). unfold B. now rewrite Contains_skip.
Qed.

(** What is left of a pattern after a beginning of it that is not empty
    holds neither pattern. *)
Lemma free_rest (os b c : gostring) :
  ~ In o os -> o :: os = b ++ c -> b <> [] -> free c.
Proof.
  intros Hos E Hb. apply free_fresh. intros Hin. apply Hos.
  destruct b as [|x b]; [congruence|]. cbn [app] in E. injection E as _ ->.
  apply in_or_app. now right.
Qed.

(** The second pass keeps the occurrences of the first pattern. *)
Lemma Contains_kept (s : gostring) :
  Contains s A = true -> Contains (replaceFrom B L 0 s) A = true.
Proof.
  revert s.
  apply (@R_ind o osB (fun s => Contains s A = true ->
                                Contains (replaceFrom B L 0 s) A = true)).
  - discriminate.
  - intros rest IH H. unfold B. rewrite R_hit. apply Contains_app_r, IH.
    cbn [app] in H. rewrite Contains_cons in H.
    change (o :: osB ++ rest) with (B ++ rest) in H. rewrite B_not_A in H.
    cbn [orb] in H. unfold A in H. now rewrite Contains_skip in H.
  - intros c t Hp IH H. unfold B. rewrite R_miss by exact Hp.
    rewrite Contains_cons in H |- *. apply orb_true_iff in H. apply orb_true_iff.
    destruct H as [H|H]; [left | right; now apply IH].
    destruct (HasPrefix_split _ _ H) as [rest E]. unfold A in E. cbn [app] in E.
    injection E as -> ->.
    rewrite R_pass by now apply startsIn_fresh.
    change (o :: osA ++ ?x) with (A ++ x). apply HasPrefix_app.
Qed.

(** When the replacement text runs into the second pattern, some
    occurrence of a pattern is not replaced by the replacement text. *)
Lemma second_pass_needs :
  runsInto L B = true ->
  exists c, free c /\ passes (assemble A B [] [(true, c)]) <> assemble L L [] [(true, c)].
Proof.
  intros H. destruct (runsInto_end _ _ H) as (a & b & E & Hb & Hc).
  assert (Hchange : forall c, free c -> Contains (L ++ c) B = true ->
            passes (assemble A B [] [(true, c)]) <> assemble L L [] [(true, c)]).
  { intros c Hfree Hin. unfold passes.
    rewrite (@first_pass [(true, c)] [] (@free_fresh [] (fun F : In o [] => F))
               (@Forall_cons _ _ (true, c) [] Hfree (@Forall_nil _ _))).
    rewrite !assemble_one.
    apply (@R_changes o osB L n0 L' eq_refl n0_o). exact Hin. }
  unfold comparable in Hc. apply orb_true_iff in Hc. destruct Hc as [Hc|Hc].
  - destruct (HasPrefix_split _ _ Hc) as [r Er]. exists [].
    split; [apply free_fresh; intros []|]. apply Hchange; [apply free_fresh; intros []|].
    rewrite E, Er, app_nil_r. apply Contains_at.
  - destruct (HasPrefix_split _ _ Hc) as [c Ec]. exists c.
    assert (Hfree : free c) by exact (@free_rest osB b c o_osB Ec Hb).
    split; [exact Hfree|]. apply Hchange; [exact Hfree|].
    rewrite E, <- app_assoc. fold B in Ec. rewrite <- Ec.
    rewrite <- (app_nil_r B) at 1. apply Contains_at.
Qed.

(** When the replacement text runs into a pattern, the two passes leave
    that pattern in some text. *)
Lemma passes_leave_A :
  runsInto L A = true -> exists s, Contains (passes s) A = true.
Proof.
  intros H. destruct (runsInto_end _ _ H) as (a & b & E & Hb & Hc).
  assert (Hleft : forall c, free c -> Contains (L ++ c) A = true ->
            Contains (passes (assemble A B [] [(true, c)])) A = true).
  { intros c Hfree Hin. unfold passes.
    rewrite (@first_pass [(true, c)] [] (@free_fresh [] (fun F : In o [] => F))
               (@Forall_cons _ _ (true, c) [] Hfree (@Forall_nil _ _))).
    rewrite assemble_one. now apply Contains_kept. }
  unfold comparable in Hc. apply orb_true_iff in Hc. destruct Hc as [Hc|Hc].
  - destruct (HasPrefix_split _ _ Hc) as [r Er]. eexists.
    apply (Hleft []); [apply free_fresh; intros []|].
    rewrite E, Er, app_nil_r. apply Contains_at.
  - destruct (HasPrefix_split _ _ Hc) as [c Ec]. eexists.
    apply (Hleft c); [exact (@free_rest osA b c o_osA Ec Hb)|].
    rewrite E, <- app_assoc. fold A in Ec. rewrite <- Ec.
    rewrite <- (app_nil_r A) at 1. apply Contains_at.
Qed.

Lemma passes_leave_B :
  runsInto L B = true -> exists s, Contains (passes s) B = true.
Proof.
  intros H. destruct (runsInto_end _ _ H) as (a & b & E & Hb & Hc).
  assert (Hleft : forall c, free c -> Contains (L ++ c) B = true ->
            Contains (passes (assemble A B [] [(false, c)])) B = true).
  { intros c Hfree Hin. unfold passes.
    rewrite (@first_pass [(false, c)] [] (@free_fresh [] (fun F : In o [] => F))
               (@Forall_cons _ _ (false, c) [] Hfree (@Forall_nil _ _))).
    rewrite assemble_one. unfold B at 1 2. rewrite R_hit.
    destruct Hfree as [_ HB]. unfold B in HB. now rewrite (R_absent _ _ _ _ HB). }
  unfold comparable in Hc. apply orb_true_iff in Hc. destruct Hc as [Hc|Hc].
  - destruct (HasPrefix_split _ _ Hc) as [r Er]. eexists.
    apply (Hleft []); [apply free_fresh; intros []|].
    rewrite E, Er, app_nil_r. apply Contains_at.
  - destruct (HasPrefix_split _ _ Hc) as [c Ec]. eexists.
    apply (Hleft c); [exact (@free_rest osB b c o_osB Ec Hb)|].
    rewrite E, <- app_assoc. fold B in Ec. rewrite <- Ec.
    rewrite <- (app_nil_r B) at 1. apply Contains_at.
Qed.

End Passes.

(** *** The chapter list *)

Definition paren : ascii := "("%char.

Definition parenFree (s : gostring) : Prop := ~ In paren s.

Definition chapterTail : gostring := tl chapterPlaceholder.
Definition contextTail : gostring := tl contextPlaceholder.

(** The text written at the place of a placeholder. *)
Definition listing (contextFiles : list ContextFile.t) (contextDirName : gostring) : gostring :=
  TrimSpace (chapterList contextFiles contextDirName).

Lemma updatedContent_passes (content : gostring) (contextFiles : list ContextFile.t)
    (contextDirName : gostring) :
  updatedContent content contextFiles contextDirName =
  replaceFrom (paren :: contextTail) (listing contextFiles contextDirName) 0
    (replaceFrom (paren :: chapterTail) (listing contextFiles contextDirName) 0 content).
Proof. reflexivity. Qed.

Lemma paren_chapterTail : ~ In paren chapterTail.
Proof. absent. Qed.

Lemma paren_contextTail : ~ In paren contextTail.
Proof. absent. Qed.

Lemma one_chapterTail : ~ In "1"%char chapterTail.
Proof. absent. Qed.

Lemma one_contextTail : ~ In "1"%char contextTail.
Proof. absent. Qed.

Lemma context_not_chapter (rest : gostring) :
  HasPrefix ((paren :: contextTail) ++ rest) (paren :: chapterTail) = false.
Proof. vm_compute. reflexivity. Qed.

Lemma firstn_In (A : Type) (x : A) (l : list A) :
  forall n, In x (firstn n l) -> In x l.
Proof.
  induction l as [|y l IH]; intros [|n] H; simpl in H; try contradiction.
  destruct H as [H|H]; [now left | right; eauto].
Qed.

Lemma TrimSuffix_In (c : ascii) (s suffix : gostring) :
  In c (TrimSuffix s suffix) -> In c s.
Proof.
  unfold TrimSuffix. destruct (HasSuffix s suffix); [apply firstn_In | auto].
Qed.

Lemma digits_parenFree (d : Decimal.uint) :
  parenFree (list_ascii_of_string (NilEmpty.string_of_uint d)).
Proof.
  unfold parenFree, paren.
  induction d; simpl; intros H; [exact H | ..];
    (destruct H as [H|H]; [discriminate H | auto]).
Qed.

Lemma FormatInt_parenFree (n : nat) : parenFree (FormatInt n).
Proof.
  unfold FormatInt, lit, NilZero.string_of_uint.
  destruct (Nat.to_uint n) eqn:E; try (rewrite <- E; apply digits_parenFree).
  unfold parenFree, paren. simpl. intros [H|[]]. discriminate H.
Qed.

Lemma chapterEntry_parenFree (i : nat) (file : ContextFile.t) (dir : gostring) :
  parenFree dir -> parenFree (ContextFile.FileName file) ->
  parenFree (chapterEntry i file dir).
Proof.
  intros Hdir Hname H. unfold chapterEntry in H. cbv zeta in H.
  repeat (apply in_app_or in H; destruct H as [H|H]).
  - now apply (@FormatInt_parenFree (i + 1)).
  - revert H. absent.
  - apply Hname. eapply TrimSuffix_In; eauto.
  - revert H. absent.
  - now apply Hdir.
  - revert H. absent.
  - now apply Hname.
  - revert H. absent.
  - revert H. absent.
Qed.

Lemma chapterListFrom_parenFree (files : list ContextFile.t) (dir : gostring) :
  parenFree dir ->
  Forall (fun f => parenFree (ContextFile.FileName f)) files ->
  forall i, parenFree (chapterListFrom i files dir).
Proof.
  intros Hdir Hall. induction Hall as [|f files Hf _ IH]; intros i H; [destruct H|].
  cbn [chapterListFrom] in H. apply in_app_or in H. destruct H as [H|H].
  - now apply (chapterEntry_parenFree i f Hdir Hf).
  - now apply (IH (S i)).
Qed.

Lemma one_not_paren : "1"%char <> paren.
Proof. discriminate. Qed.

(** The listing of a list of chapters that is not empty starts with the
    digit 1. *)
Lemma listing_head (files : list ContextFile.t) (dir : gostring) :
  files <> [] -> exists rest, listing files dir = "1"%char :: rest.
Proof.
  intros Hne. destruct files as [|f files]; [congruence|].
  assert (Hhead : exists t, chapterList (f :: files) dir = "1"%char :: t)
    by (eexists; reflexivity).
  destruct Hhead as [t Ht].
  destruct (SpaceFacts.TrimSpace_head_one t) as [rest Hrest].
  exists rest. unfold listing. now rewrite Ht, Hrest.
Qed.

(** The listing holds no opening parenthesis when no name does, and then
    no placeholder can start in it. *)
Lemma listing_parenFree (files : list ContextFile.t) (dir : gostring) :
  parenFree dir ->
  Forall (fun f => parenFree (ContextFile.FileName f)) files ->
  parenFree (listing files dir).
Proof.
  intros Hdir Hall Hin. unfold listing in Hin.
  apply SpaceFacts.TrimSpace_In in Hin.
  now apply (chapterListFrom_parenFree Hdir Hall 0).
Qed.

Lemma listing_clear (files : list ContextFile.t) (dir : gostring) :
  parenFree dir ->
  Forall (fun f => parenFree (ContextFile.FileName f)) files ->
  runsInto (listing files dir) chapterPlaceholder = false /\
  runsInto (listing files dir) contextPlaceholder = false.
Proof.
  intros Hdir Hall. pose proof (listing_parenFree Hdir Hall) as H. split.
  - change chapterPlaceholder with (paren :: chapterTail). now apply runsInto_fresh.
  - change contextPlaceholder with (paren :: contextTail). now apply runsInto_fresh.
Qed.

Lemma placeholderFree_suffix (a r : gostring) :
  placeholderFree (a ++ r) -> placeholderFree r.
Proof.
  intros [HA HB]. split.
  - destruct (Contains r chapterPlaceholder) eqn:E; [|reflexivity].
    now rewrite (Contains_app_r a _ _ E) in HA.
  - destruct (Contains r contextPlaceholder) eqn:E; [|reflexivity].
    now rewrite (Contains_app_r a _ _ E) in HB.
Qed.

(** Every text is made of pieces that hold no placeholder, joined by
    placeholders. *)
Lemma pieces_exist (content : gostring) :
  exists s0 pieces,
    content = document s0 pieces /\
    placeholderFree s0 /\
    Forall (fun p => placeholderFree (snd p)) pieces.
Proof.
  induction content as [|c t (s0 & pieces & -> & Hs0 & Hpieces)].
  - exists [], []. repeat split; constructor.
  - destruct (HasPrefix (c :: s0) chapterPlaceholder) eqn:HA.
    { destruct (HasPrefix_split _ _ HA) as [r E].
      exists [], ((true, r) :: pieces). split; [|split].
      - unfold document. rewrite assemble_cons. cbn [fst snd app].
        unfold document, assemble in *. rewrite app_comm_cons, E.
        now rewrite <- app_assoc.
      - split; reflexivity.
      - constructor; [|exact Hpieces]. cbn [snd].
        apply (@placeholderFree_suffix chapterTail r).
        replace (chapterTail ++ r) with s0; [exact Hs0|].
        change (tl (c :: s0) = tl (chapterPlaceholder ++ r)). now rewrite E. }
    destruct (HasPrefix (c :: s0) contextPlaceholder) eqn:HB.
    { destruct (HasPrefix_split _ _ HB) as [r E].
      exists [], ((false, r) :: pieces). split; [|split].
      - unfold document. rewrite assemble_cons. cbn [fst snd app].
        unfold document, assemble in *. rewrite app_comm_cons, E.
        now rewrite <- app_assoc.
      - split; reflexivity.
      - constructor; [|exact Hpieces]. cbn [snd].
        apply (@placeholderFree_suffix contextTail r).
        replace (contextTail ++ r) with s0; [exact Hs0|].
        change (tl (c :: s0) = tl (contextPlaceholder ++ r)). now rewrite E. }
    exists (c :: s0), pieces. split; [reflexivity|]. split; [|exact Hpieces].
    destruct Hs0 as [H1 H2]. split; rewrite Contains_cons.
    + now rewrite HA, H1.
    + now rewrite HB, H2.
Qed.

Lemma nothing_to_replace (content : gostring) (contextFiles : list ContextFile.t)
    (contextDirName : gostring) :
  placeholderFree content ->
  updatedContent content contextFiles contextDirName = content.
Proof.
  intros [HA HB]. rewrite updatedContent_passes.
  rewrite (@R_absent paren chapterTail _ content HA).
  now apply R_absent.
Qed.

(** Every occurrence of a placeholder is replaced by the chapter list
    exactly when the second placeholder cannot start inside the chapter
    list. *)
Lemma replaced_iff (contextFiles : list ContextFile.t) (contextDirName : gostring) :
  contextFiles <> [] ->
  (forall s0 pieces,
     placeholderFree s0 ->
     Forall (fun p => placeholderFree (snd p)) pieces ->
     updatedContent (document s0 pieces) contextFiles contextDirName =
     assemble (listing contextFiles contextDirName)
              (listing contextFiles contextDirName) s0 pieces)
  <-> runsInto (listing contextFiles contextDirName) contextPlaceholder = false.
Proof.
  intros Hne. destruct (listing_head contextDirName Hne) as [rest HL]. split.
  - intros H.
    destruct (runsInto (listing contextFiles contextDirName) contextPlaceholder) eqn:E;
      [exfalso | reflexivity].
    rewrite HL in E. change contextPlaceholder with (paren :: contextTail) in E.
    destruct (@second_pass_needs paren chapterTail contextTail "1"%char rest
                paren_chapterTail paren_contextTail one_not_paren
                context_not_chapter E) as (c & Hc & Hneq).
    apply Hneq.
    assert (Hnil : placeholderFree []) by (split; reflexivity).
    specialize (H [] [(true, c)] Hnil (@Forall_cons _ _ (true, c) [] Hc (@Forall_nil _ _))).
    rewrite updatedContent_passes, HL in H. exact H.
  - intros Hclear s0 pieces Hs0 Hpieces.
    rewrite updatedContent_passes, HL. unfold document.
    rewrite HL in Hclear.
    change chapterPlaceholder with (paren :: chapterTail).
    change contextPlaceholder with (paren :: contextTail) in Hclear |- *.
    rewrite (@first_pass paren chapterTail contextTail "1"%char rest
               paren_chapterTail paren_contextTail context_not_chapter
               pieces s0 Hs0 Hpieces).
    apply (@second_pass paren chapterTail contextTail "1"%char rest
             paren_contextTail one_contextTail pieces Hclear s0 Hs0 Hpieces).
Qed.

(** The written text holds neither placeholder, whatever the text was,
    exactly when no placeholder can start inside the chapter list. *)
Lemma clean_iff (contextFiles : list ContextFile.t) (contextDirName : gostring) :
  contextFiles <> [] ->
  (forall content,
     placeholderFree (updatedContent content contextFiles contextDirName))
  <-> (runsInto (listing contextFiles contextDirName) chapterPlaceholder = false /\
       runsInto (listing contextFiles contextDirName) contextPlaceholder = false).
Proof.
  intros Hne. destruct (listing_head contextDirName Hne) as [rest HL]. split.
  - intros H. split.
    + destruct (runsInto (listing contextFiles contextDirName) chapterPlaceholder) eqn:E;
        [exfalso | reflexivity].
      rewrite HL in E. change chapterPlaceholder with (paren :: chapterTail) in E.
      destruct (@passes_leave_A paren chapterTail contextTail "1"%char rest
                  paren_chapterTail paren_contextTail context_not_chapter E)
        as [s Hs].
      destruct (H s) as [HA _]. rewrite updatedContent_passes, HL in HA.
      change chapterPlaceholder with (paren :: chapterTail) in HA. congruence.
    + destruct (runsInto (listing contextFiles contextDirName) contextPlaceholder) eqn:E;
        [exfalso | reflexivity].
      rewrite HL in E. change contextPlaceholder with (paren :: contextTail) in E.
      destruct (@passes_leave_B paren chapterTail contextTail "1"%char rest
                  paren_chapterTail paren_contextTail context_not_chapter E)
        as [s Hs].
      destruct (H s) as [_ HB]. rewrite updatedContent_passes, HL in HB.
      change contextPlaceholder with (paren :: contextTail) in HB. congruence.
  - intros [HA HB] content. rewrite HL in HA, HB.
    rewrite updatedContent_passes, HL.
    apply (@passes_leave_none paren chapterTail contextTail "1"%char rest
             one_not_paren one_chapterTail one_contextTail content HA HB).
Qed.

(** C2, as the code has it: a text that holds neither placeholder is
    returned as it is, and the function then returns what writing that
    same text returns, raising no error of its own; every text is made of
    pieces that hold neither placeholder, joined by occurrences of the two
    placeholders; for a list of chapters that is not empty, every one of
    these occurrences (not only the first) is replaced by the trimmed
    chapter list exactly when the second placeholder cannot start inside
    the chapter list; and no placeholder can start inside the chapter list
    when the file names and the directory name hold no opening
    parenthesis. *)
Theorem every_placeholder_is_replaced :
  (forall content contextFiles contextDirName,
     placeholderFree content ->
     updatedContent content contextFiles contextDirName = content) /\
  (forall content write contextFiles contextDirName,
     placeholderFree content ->
     UpdateTemplateWithChapters (Ok content) write contextFiles contextDirName =
     write content) /\
  (forall content, exists s0 pieces,
     content = document s0 pieces /\
     placeholderFree s0 /\
     Forall (fun p => placeholderFree (snd p)) pieces) /\
  (forall contextFiles contextDirName,
     contextFiles <> [] ->
     ((forall s0 pieces,
         placeholderFree s0 ->
         Forall (fun p => placeholderFree (snd p)) pieces ->
         updatedContent (document s0 pieces) contextFiles contextDirName =
         assemble (listing contextFiles contextDirName)
                  (listing contextFiles contextDirName) s0 pieces)
      <-> runsInto (listing contextFiles contextDirName) contextPlaceholder = false)) /\
  (forall contextFiles contextDirName,
     parenFree contextDirName ->
     Forall (fun f => parenFree (ContextFile.FileName f)) contextFiles ->
     runsInto (listing contextFiles contextDirName) contextPlaceholder = false).
Proof.
  split; [exact nothing_to_replace|].
  split; [|split; [exact pieces_exist|split; [exact replaced_iff|]]].
  - intros content write files dir H. unfold UpdateTemplateWithChapters.
    now rewrite nothing_to_replace.
  - intros files dir Hdir Hall. exact (proj2 (listing_clear Hdir Hall)).
Qed.

(** C7, as the code has it: whenever the text written by a synchronisation
    holds neither placeholder, a second synchronisation with the same
    chapters returns it as it is; for a list of chapters that is not
    empty, the written text holds neither placeholder, whatever the text
    was, exactly when no placeholder can start inside the chapter list;
    and no placeholder can start inside the chapter list when the file
    names and the directory name hold no opening parenthesis. *)
Theorem synchronization_is_idempotent :
  (forall content contextFiles contextDirName,
     placeholderFree (updatedContent content contextFiles contextDirName) ->
     updatedContent (updatedContent content contextFiles contextDirName)
       contextFiles contextDirName
     = updatedContent content contextFiles contextDirName) /\
  (forall contextFiles contextDirName,
     contextFiles <> [] ->
     ((forall content,
         placeholderFree (updatedContent content contextFiles contextDirName))
      <-> (runsInto (listing contextFiles contextDirName) chapterPlaceholder = false /\
           runsInto (listing contextFiles contextDirName) contextPlaceholder = false))) /\
  (forall contextFiles contextDirName,
     parenFree contextDirName ->
     Forall (fun f => parenFree (ContextFile.FileName f)) contextFiles ->
     runsInto (listing contextFiles contextDirName) chapterPlaceholder = false /\
     runsInto (listing contextFiles contextDirName) contextPlaceholder = false).
Proof.
  split; [|split; [exact clean_iff | exact listing_clear]].
  intros content files dir H. now apply nothing_to_replace.
Qed.

(** *** Examples *)

Definition twoChapters : list ContextFile.t :=
  [onlyFileName (lit "login-auth.md"); onlyFileName (lit "db-schema.md")].

(** Chapters as convert names them, one with parentheses in its name. *)
Definition draftChapters : list ContextFile.t :=
  [onlyFileName (lit "notes-(draft).md"); onlyFileName (lit "db-schema.md")].

(** An index with both placeholders, the first of them twice. *)
Definition indexPieces : list (bool * gostring) :=
  [ (true, [byte 10] ++ lit "## More" ++ [byte 10]);
    (false, [byte 10]);
    (true, [byte 10] ++ lit "(end)" ++ [byte 10]) ].

Definition indexText : gostring :=
  document (lit "# Index (chapters)" ++ [byte 10]) indexPieces.

Lemma twoChapters_parenFree :
  Forall (fun f => parenFree (ContextFile.FileName f)) twoChapters.
Proof. repeat constructor; absent. Defined.

Lemma every_placeholder_is_replaced_witness :
  updatedContent (lit "# Index without placeholder") twoChapters (lit "context")
    = lit "# Index without placeholder" /\
  UpdateTemplateWithChapters (Ok (lit "# Index without placeholder"))
    (fun _ => None) twoChapters (lit "context") = None /\
  updatedContent indexText draftChapters (lit "context") =
    assemble (listing draftChapters (lit "context")) (listing draftChapters (lit "context"))
      (lit "# Index (chapters)" ++ [byte 10]) indexPieces /\
  runsInto (listing twoChapters (lit "context")) contextPlaceholder = false.
Proof.
  destruct every_placeholder_is_replaced as (Hsame & Hquiet & _ & Hiff & Hplain).
  split; [|split; [|split]].
  - apply Hsame. split; vm_compute; reflexivity.
  - apply (Hquiet (lit "# Index without placeholder") (fun _ => None)).
    split; vm_compute; reflexivity.
  - apply (proj2 (Hiff draftChapters (lit "context") ltac:(discriminate))).
    + vm_compute. reflexivity.
    + split; vm_compute; reflexivity.
    + repeat constructor; vm_compute; reflexivity.
  - apply Hplain.
    + absent.
    + apply twoChapters_parenFree.
Defined.

Lemma synchronization_is_idempotent_witness :
  placeholderFree (updatedContent indexText draftChapters (lit "context")) /\
  updatedContent (updatedContent indexText draftChapters (lit "context"))
    draftChapters (lit "context")
  = updatedContent indexText draftChapters (lit "context") /\
  runsInto (listing twoChapters (lit "context")) chapterPlaceholder = false.
Proof.
  destruct synchronization_is_idempotent as (Hnoop & Hiff & Hplain).
  assert (Hfree : placeholderFree (updatedContent indexText draftChapters (lit "context"))).
  { apply (proj2 (Hiff draftChapters (lit "context") ltac:(discriminate))).
    split; vm_compute; reflexivity. }
  split; [exact Hfree|]. split.
  - apply Hnoop. exact Hfree.
  - apply (Hplain twoChapters (lit "context")).
    + absent.
    + apply twoChapters_parenFree.
Defined.

(** The first placeholder twice: the code replaces both occurrences, C2 as
    the specification states it only the first. *)
Definition twice : gostring :=
  chapterPlaceholder ++ [byte 10] ++ chapterPlaceholder.

Lemma second_occurrence_is_replaced_too :
  updatedContent twice twoChapters (lit "context") =
    listing twoChapters (lit "context") ++ [byte 10] ++
    listing twoChapters (lit "context") /\
  firstOccurrenceReplaced twice twoChapters (lit "context") =
    listing twoChapters (lit "context") ++ [byte 10] ++ chapterPlaceholder /\
  updatedContent twice twoChapters (lit "context")
    <> firstOccurrenceReplaced twice twoChapters (lit "context").
Proof.
  split; [vm_compute; reflexivity|].
  split; [vm_compute; reflexivity|].
  apply eqs_false. vm_compute. reflexivity.
Qed.

(** A chapter file whose name holds the first placeholder: the chapter
    list brings the placeholder back, and a second synchronisation changes
    the text again. *)
Definition oddChapter : list ContextFile.t :=
  [onlyFileName (chapterPlaceholder ++ lit ".md")].

Lemma second_synchronization_changes_the_text :
  Contains (updatedContent chapterPlaceholder oddChapter (lit "context"))
    chapterPlaceholder = true /\
  updatedContent (updatedContent chapterPlaceholder oddChapter (lit "context"))
    oddChapter (lit "context")
  <> updatedContent chapterPlaceholder oddChapter (lit "context").
Proof.
  split; [vm_compute; reflexivity|].
  apply not_eq_sym, eqs_false. vm_compute. reflexivity.
Qed.

End IndexSync.

Module Identifier.
Import Go Classifier StringFacts SpaceFacts.

(** The characters a to z, 0 to 9 and the dash. *)
Definition idChar (c : ascii) : bool :=
  let n := N_of_ascii c in
  ((97 <=? n) && (n <=? 122) || (48 <=? n) && (n <=? 57) || (n =? 45))%N.

(** The characters [SanitizeFileName] replaces by a dash. *)
Definition replaced (c : ascii) : bool :=
  existsb (Ascii.eqb c) Validation.unsafeChars.

(** ASCII letters, digits, the dash, ASCII white space and the characters
    [SanitizeFileName] replaces. *)
Definition titleChar (c : ascii) : bool :=
  let n := N_of_ascii c in
  ((65 <=? n) && (n <=? 90))%N || idChar c || asciiSpace c || replaced c.

(** What the characters of a text must be for its sanitised form to hold
    only characters of [idChar]. *)
Definition plainAfterSanitizing (c : ascii) : Prop :=
  idChar c = true \/ In c Validation.unsafeChars.

(** C6 as the specification states it: a stem of characters of [idChar]
    and the suffix [.md]. *)
Definition plainIdentifier (name : gostring) : bool :=
  HasSuffix name (lit ".md") && forallb idChar (TrimSuffix name (lit ".md")).

Definition safe (c : ascii) : Prop := ~ In c Validation.unsafeChars.

Definition dash : ascii := "-"%char.

(** *** What [SanitizeFileName] keeps *)

Lemma dropWhile_Forall (A : Type) (P : A -> Prop) (p : A -> bool) (l : list A) :
  Forall P l -> Forall P (dropWhile p l).
Proof.
  intros H. apply Forall_forall. intros x Hin.
  rewrite Forall_forall in H. apply H. eapply dropWhile_In; eauto.
Qed.

Lemma Trim_Forall (P : ascii -> Prop) (s cutset : gostring) :
  Forall P s -> Forall P (Trim s cutset).
Proof.
  intros H. unfold Trim, TrimRight, TrimLeft.
  apply Forall_rev, dropWhile_Forall, Forall_rev, dropWhile_Forall, H.
Qed.

Lemma firstn_Forall (A : Type) (P : A -> Prop) (n : nat) (l : list A) :
  Forall P l -> Forall P (firstn n l).
Proof.
  intros H. apply Forall_forall. intros x Hin.
  rewrite Forall_forall in H. apply H. eapply IndexSync.firstn_In; eauto.
Qed.

Lemma collapseDashes_Forall (P : ascii -> Prop) (s : gostring) :
  Forall P s -> Forall P (Validation.collapseDashes s).
Proof.
  induction 1 as [|c t Hc Ht IH]; [constructor|].
  cbn [Validation.collapseDashes]. destruct t as [|d t]; [now constructor|].
  destruct (_ && _); [exact IH | now constructor].
Qed.

Lemma ReplaceAll_Forall (P : ascii -> Prop) (s : gostring) (c : ascii) :
  P dash -> Forall P s -> Forall P (ReplaceAll s [c] (lit "-")).
Proof.
  intros Hdash Hs. cbn [ReplaceAll]. apply replaceFrom_Forall; [|exact Hs].
  repeat constructor. exact Hdash.
Qed.

Lemma replaceChars_Forall (P : ascii -> Prop) (cs : list ascii) :
  P dash -> forall name, Forall P name ->
    Forall P (fold_left (fun n c => ReplaceAll n [c] (lit "-")) cs name).
Proof.
  intros Hdash. induction cs as [|c cs IH]; intros name H; [exact H|].
  cbn [fold_left]. apply IH. now apply ReplaceAll_Forall.
Qed.

Lemma ReplaceAll_removes (c : ascii) (s : gostring) :
  c <> dash -> ~ In c (ReplaceAll s [c] (lit "-")).
Proof.
  intros Hc. cbn [ReplaceAll]. induction s as [|x t IH]; [intros []|].
  cbn [replaceFrom HasPrefix length Nat.sub].
  destruct (Ascii.eqb_spec x c) as [->|Hx]; cbn [andb].
  - intros [E|Hin]; [apply Hc; now symmetry | now apply IH].
  - intros [E|Hin]; [now apply Hx | now apply IH].
Qed.

Lemma replaceChars_removes (cs : list ascii) :
  forall name u, In u cs -> u <> dash ->
    ~ In u (fold_left (fun n c => ReplaceAll n [c] (lit "-")) cs name).
Proof.
  induction cs as [|c cs IH]; intros name u Hin Hu; [destruct Hin|].
  cbn [fold_left]. destruct Hin as [->|Hin]; [|now apply IH].
  assert (H : Forall (fun x => x <> u)
                (fold_left (fun n c => ReplaceAll n [c] (lit "-")) cs
                   (ReplaceAll name [u] (lit "-")))).
  { apply replaceChars_Forall; [intros E; apply Hu; now symmetry|].
    apply Forall_forall. intros x Hx ->. now apply (ReplaceAll_removes name Hu). }
  rewrite Forall_forall in H. intros Hin'. now apply (H u Hin').
Qed.

Lemma unsafe_not_dash (u : ascii) : In u Validation.unsafeChars -> u <> dash.
Proof.
  intros Hin ->. revert Hin. IndexSync.absent.
Qed.

Lemma sanitized (P : ascii -> Prop) (name : gostring) :
  P dash -> Forall P (lit "unnamed") ->
  Forall P (Validation.replaceUnsafe name) ->
  Forall P (Validation.SanitizeFileName name).
Proof.
  intros Hdash Hdefault H. unfold Validation.SanitizeFileName.
  set (trimmed := Trim (Validation.collapseDashes (Validation.replaceUnsafe name)) (lit "-")).
  assert (Ht : Forall P trimmed) by now apply Trim_Forall, collapseDashes_Forall.
  destruct (_ <? _)%Z.
  - destruct (firstn _ trimmed) eqn:E; [exact Hdefault|].
    rewrite <- E. now apply firstn_Forall.
  - destruct trimmed; [exact Hdefault | exact Ht].
Qed.

Lemma SanitizeFileName_Forall (P : ascii -> Prop) (name : gostring) :
  P dash -> Forall P (lit "unnamed") -> Forall P name ->
  Forall P (Validation.SanitizeFileName name).
Proof.
  intros Hdash Hdefault H. apply sanitized; auto.
  now apply replaceChars_Forall.
Qed.

Lemma SanitizeFileName_safe (name : gostring) :
  Forall safe (Validation.SanitizeFileName name).
Proof.
  apply sanitized.
  - IndexSync.absent.
  - repeat constructor; IndexSync.absent.
  - apply Forall_forall. intros x Hx Hin.
    revert Hx. apply replaceChars_removes; [exact Hin | now apply unsafe_not_dash].
Qed.

Lemma replaced_In (c : ascii) : replaced c = true -> In c Validation.unsafeChars.
Proof.
  unfold replaced. intros H. apply existsb_exists in H.
  destruct H as (u & Hin & E). apply Ascii.eqb_eq in E. now subst u.
Qed.

Lemma replaceUnsafe_idChar (name : gostring) :
  Forall plainAfterSanitizing name ->
  Forall (fun c => idChar c = true) (Validation.replaceUnsafe name).
Proof.
  intros H. unfold Validation.replaceUnsafe.
  assert (Hall : Forall plainAfterSanitizing
                   (fold_left (fun n c => ReplaceAll n [c] (lit "-"))
                      Validation.unsafeChars name)).
  { apply replaceChars_Forall; [now left | exact H]. }
  apply Forall_forall. intros x Hx. rewrite Forall_forall in Hall.
  destruct (Hall x Hx) as [Hid|Hin]; [exact Hid|]. exfalso.
  revert Hx. apply replaceChars_removes; [exact Hin | now apply unsafe_not_dash].
Qed.

Lemma SanitizeFileName_idChar (name : gostring) :
  Forall plainAfterSanitizing name ->
  Forall (fun c => idChar c = true) (Validation.SanitizeFileName name).
Proof.
  intros H. apply sanitized; [reflexivity | repeat constructor |].
  now apply replaceUnsafe_idChar.
Qed.

(** *** What [SanitizeFileName] does not touch *)

Lemma ReplaceAll_keeps (c u : ascii) (s : gostring) :
  c <> u -> In c s -> In c (ReplaceAll s [u] (lit "-")).
Proof.
  intros Hc. cbn [ReplaceAll]. induction s as [|x t IH]; [intros []|].
  cbn [replaceFrom HasPrefix length Nat.sub].
  destruct (Ascii.eqb_spec x u) as [->|Hx]; cbn [andb].
  - intros [E|Hin]; [congruence | right; now apply IH].
  - intros [E|Hin]; [now left | right; now apply IH].
Qed.

Lemma replaceChars_keeps (c : ascii) (cs : list ascii) :
  ~ In c cs -> forall name, In c name ->
    In c (fold_left (fun n u => ReplaceAll n [u] (lit "-")) cs name).
Proof.
  induction cs as [|u cs IH]; intros Hc name H; [exact H|].
  cbn [fold_left]. apply IH; [intros Hin; apply Hc; now right|].
  apply ReplaceAll_keeps; [intros ->; apply Hc; now left | exact H].
Qed.

Lemma collapseDashes_keeps (c : ascii) (s : gostring) :
  c <> dash -> In c s -> In c (Validation.collapseDashes s).
Proof.
  intros Hc. induction s as [|x t IH]; [intros []|].
  intros Hin. cbn [Validation.collapseDashes]. destruct t as [|d t]; [exact Hin|].
  destruct (Ascii.eqb_spec x "-"%char) as [->|Hx]; cbn [andb].
  - destruct (Ascii.eqb d "-"%char).
    + destruct Hin as [E|Hin]; [exfalso; apply Hc; now symmetry | now apply IH].
    + destruct Hin as [E|Hin]; [now left | right; now apply IH].
  - destruct Hin as [E|Hin]; [now left | right; now apply IH].
Qed.

Lemma dropWhile_keeps (A : Type) (p : A -> bool) (x : A) (l : list A) :
  p x = false -> In x l -> In x (dropWhile p l).
Proof.
  intros Hx. induction l as [|y l IH]; [intros []|].
  intros Hin. cbn [dropWhile]. destruct (p y) eqn:Hy; [|exact Hin].
  destruct Hin as [->|Hin]; [congruence | now apply IH].
Qed.

Lemma Trim_keeps (c : ascii) (s : gostring) :
  c <> dash -> In c s -> In c (Trim s (lit "-")).
Proof.
  intros Hc Hin. unfold Trim, TrimRight, TrimLeft.
  assert (Hcut : inCutset (lit "-") c = false).
  { unfold inCutset. cbn [lit list_ascii_of_string existsb].
    destruct (Ascii.eqb_spec c "-"%char) as [E|_]; [now destruct (Hc E) | reflexivity]. }
  apply in_rev. rewrite rev_involutive.
  apply dropWhile_keeps; [exact Hcut|]. apply in_rev. rewrite rev_involutive.
  now apply dropWhile_keeps.
Qed.

(** A character that is neither a dash nor one of the replaced ones stays
    in the sanitised name, unless the name is cut at 100 bytes. *)
Lemma SanitizeFileName_keeps (c : ascii) (name : gostring) :
  c <> dash -> ~ In c Validation.unsafeChars -> In c name ->
  length (Validation.SanitizeFileName name) < 100 ->
  In c (Validation.SanitizeFileName name).
Proof.
  intros Hc Hsafe Hin. unfold Validation.SanitizeFileName.
  set (trimmed := Trim (Validation.collapseDashes (Validation.replaceUnsafe name)) (lit "-")).
  assert (Ht : In c trimmed).
  { apply Trim_keeps; [exact Hc|]. apply collapseDashes_keeps; [exact Hc|].
    now apply replaceChars_keeps. }
  unfold Validation.MaxFileNameLength, len.
  destruct (Z.ltb_spec 100 (Z.of_nat (length trimmed))) as [Hlong|Hshort].
  - change (Z.to_nat 100) with 100.
    assert (Hl : length (firstn 100 trimmed) = 100) by (rewrite length_firstn; lia).
    destruct (firstn 100 trimmed) as [|y r]; [discriminate Hl|].
    rewrite Hl. lia.
  - intros _. destruct trimmed; [destruct Ht | exact Ht].
Qed.

(** *** The descriptors *)

Lemma addDescriptor_head (d : gostring) (ds : list gostring) (x : gostring) :
  exists rest, addDescriptor (d :: ds) x = d :: rest.
Proof. unfold addDescriptor. destruct x; eexists; reflexivity. Qed.

Lemma Join_head (c : ascii) (d : gostring) (rest : list gostring) (sep : gostring) :
  In c d -> In c (Join (d :: rest) sep).
Proof.
  intros H. cbn [Join]. destruct rest; [exact H|]. apply in_or_app. now left.
Qed.

(** The title descriptor is the first part of the joined name. *)
Lemma joined_head (c : ascii) (td x y sep : gostring) :
  In c td ->
  In c (Join (addDescriptor (addDescriptor (addDescriptor [] td) x) y) sep).
Proof.
  intros H. destruct td as [|a td]; [destruct H|].
  cbn [addDescriptor app].
  destruct (addDescriptor_head (a :: td) [] x) as [r1 E1]. rewrite E1.
  destruct (addDescriptor_head (a :: td) r1 y) as [r2 E2]. rewrite E2.
  now apply Join_head.
Qed.

Lemma Join_Forall (P : ascii -> Prop) (sep : gostring) (elems : list gostring) :
  Forall P sep -> Forall (Forall P) elems -> Forall P (Join elems sep).
Proof.
  intros Hsep H. induction H as [|x rest Hx Hrest IH]; [constructor|].
  cbn [Join]. destruct rest as [|y rest]; [exact Hx|].
  apply Forall_app. split; [exact Hx|]. apply Forall_app. split; [exact Hsep | exact IH].
Qed.

Lemma idChar_lower (c : ascii) :
  titleChar c = true ->
  idChar (lowerByte c) = true \/ asciiSpace (lowerByte c) = true \/
  replaced (lowerByte c) = true.
Proof.
  destruct c as [[] [] [] [] [] [] [] []]; vm_compute; intros H;
    first [discriminate H | now left | now (right; left) | now (right; right)].
Qed.

Lemma titleChar_ascii (c : ascii) : titleChar c = true -> (N_of_ascii c <? 128)%N = true.
Proof.
  destruct c as [[] [] [] [] [] [] [] []]; vm_compute; intros H;
    first [discriminate H | reflexivity].
Qed.

Lemma firstMatch_table (P : ascii -> Prop) (table visit : list (gostring * gostring))
    (content : gostring) :
  Permutation visit table ->
  Forall (fun e => Forall P (snd e)) table ->
  Forall P (firstMatch visit content).
Proof.
  intros Hperm Htable. unfold firstMatch.
  destruct (find _ visit) as [e|] eqn:Hfind; [|constructor].
  apply find_some in Hfind. destruct Hfind as [Hin _].
  rewrite Forall_forall in Htable. apply Htable.
  eapply Permutation_in; eauto.
Qed.

Lemma forallb_Forall_idChar (s : gostring) :
  forallb idChar s = true -> Forall (fun c => idChar c = true) s.
Proof. intros H. apply Forall_forall. now apply forallb_forall. Qed.

Lemma tables_idChar :
  Forall (fun e => Forall (fun c => idChar c = true) (snd e)) techPatterns /\
  Forall (fun e => Forall (fun c => idChar c = true) (snd e)) funcPatterns.
Proof.
  split; repeat constructor; apply forallb_Forall_idChar; vm_compute; reflexivity.
Qed.

Lemma addDescriptor_Forall (P : ascii -> Prop) (ds : list gostring) (d : gostring) :
  Forall (Forall P) ds -> Forall P d -> Forall (Forall P) (addDescriptor ds d).
Proof.
  intros Hds Hd. unfold addDescriptor. destruct d; [exact Hds|].
  apply Forall_app. split; [exact Hds | now constructor].
Qed.

Section WithCaseTables.

Variable unicodeLower : gostring -> gostring.

Lemma extractTitleDescriptor_titleChar (title : gostring) :
  forallb titleChar title = true ->
  Forall plainAfterSanitizing (extractTitleDescriptor unicodeLower title).
Proof.
  intros Htitle. unfold extractTitleDescriptor. cbv zeta.
  assert (Hascii : isASCII title = true).
  { unfold isASCII. apply forallb_forall. intros c Hc.
    apply titleChar_ascii. rewrite forallb_forall in Htitle. auto. }
  unfold ToLower. rewrite Hascii.
  assert (Hwords : Forall (Forall plainAfterSanitizing)
                     (Fields (map lowerByte title))).
  { pose proof (Fields_bytes (map lowerByte title)) as Hb.
    eapply Forall_impl; [|exact Hb]. intros w Hw.
    eapply Forall_impl; [|exact Hw]. intros c [Hin Hspace].
    apply in_map_iff in Hin. destruct Hin as (c0 & <- & Hin0).
    rewrite forallb_forall in Htitle.
    destruct (idChar_lower c0 (Htitle c0 Hin0)) as [H|[H|H]];
      [now left | congruence | right; now apply replaced_In]. }
  apply Join_Forall; [repeat constructor; now left|].
  assert (Hfiltered : forall f, Forall (Forall plainAfterSanitizing)
                        (filter f (Fields (map lowerByte title)))).
  { intros f. apply Forall_forall. intros w Hin. apply filter_In in Hin.
    rewrite Forall_forall in Hwords. now apply Hwords. }
  destruct (_ <? _)%Z; [apply firstn_Forall|]; apply Hfiltered.
Qed.

(** C6, as the code has it: the identifier is a stem followed by [.md];
    the stem is not empty, has at most 60 bytes and holds none of the
    characters that [SanitizeFileName] replaces; the stem is made of the
    characters a to z, 0 to 9 and the dash when every character of the
    title descriptor is one of these or one of the nine replaced
    characters, which is so when the title is made of ASCII letters,
    digits, dashes, ASCII white space and the nine replaced characters;
    and any other character of the title descriptor stays in a stem of
    fewer than 60 bytes. *)
Theorem identifier_characters (o : MapOrder) (section : ContentSection.t) :
  exists stem,
    generateDescriptiveFileName unicodeLower o section = stem ++ lit ".md" /\
    stem <> [] /\
    length stem <= 60 /\
    Forall safe stem /\
    (rangeOrder o ->
     Forall plainAfterSanitizing
       (extractTitleDescriptor unicodeLower (ContentSection.Title section)) ->
     forallb idChar stem = true /\
     plainIdentifier (generateDescriptiveFileName unicodeLower o section) = true) /\
    (forallb titleChar (ContentSection.Title section) = true ->
     Forall plainAfterSanitizing
       (extractTitleDescriptor unicodeLower (ContentSection.Title section))) /\
    (forall c,
       In c (extractTitleDescriptor unicodeLower (ContentSection.Title section)) ->
       idChar c = false -> ~ In c Validation.unsafeChars ->
       length stem < 60 ->
       In c stem /\ forallb idChar stem = false).
Proof.
  unfold generateDescriptiveFileName. cbv zeta.
  set (content := ToLower unicodeLower _).
  set (descriptors := addDescriptor _ (extractFunctionDescriptor o content)).
  set (clean := Validation.SanitizeFileName (Join descriptors (lit "-"))).
  set (short := if (MaxDescriptiveLength <? len clean)%Z
                then firstn (Z.to_nat MaxDescriptiveLength) clean else clean).
  assert (Hclean : clean <> []) by apply Naming.SanitizeFileName_not_empty.
  assert (Hshort : short <> []).
  { unfold short. destruct (_ <? _)%Z; [|exact Hclean].
    destruct clean; [congruence | discriminate]. }
  assert (Hlen : length short <= 60).
  { unfold short, MaxDescriptiveLength, len.
    destruct (Z.ltb_spec 60 (Z.of_nat (length clean))).
    - rewrite length_firstn. change (Z.to_nat 60) with 60. lia.
    - lia. }
  assert (Hkeep : forall P : ascii -> Prop, Forall P clean -> Forall P short).
  { intros P H. unfold short. destruct (_ <? _)%Z; [now apply firstn_Forall | exact H]. }
  assert (Hwhole : length short < 60 -> short = clean).
  { unfold short, MaxDescriptiveLength, len.
    destruct (Z.ltb_spec 60 (Z.of_nat (length clean))); [|reflexivity].
    rewrite length_firstn. change (Z.to_nat 60) with 60. lia. }
  exists short. destruct short as [|c0 short'] eqn:E; [congruence|]. rewrite <- E in *.
  clear E c0 short'.
  split; [reflexivity|]. split; [exact Hshort|]. split; [exact Hlen|].
  split; [apply Hkeep, SanitizeFileName_safe|].
  split; [|split; [apply extractTitleDescriptor_titleChar|]].
  - intros [Htech Hfunc] Htitle.
    assert (Hid : forallb idChar short = true).
    { apply forallb_forall. apply Forall_forall. apply Hkeep.
      apply SanitizeFileName_idChar.
      apply Join_Forall; [repeat constructor; now left|].
      destruct tables_idChar as [Ht Hf].
      assert (Hplain : forall table visit content0,
                Permutation visit table ->
                Forall (fun e => Forall (fun c => idChar c = true) (snd e)) table ->
                Forall plainAfterSanitizing (firstMatch visit content0)).
      { intros table visit content0 Hperm Htable.
        eapply Forall_impl; [|exact (firstMatch_table content0 Hperm Htable)].
        intros a Ha. now left. }
      unfold descriptors. apply addDescriptor_Forall.
      - apply addDescriptor_Forall.
        + apply addDescriptor_Forall; [constructor | exact Htitle].
        + unfold extractTechnologyDescriptor. eapply Hplain; eauto.
      - unfold extractFunctionDescriptor. eapply Hplain; eauto. }
    split; [exact Hid|].
    unfold plainIdentifier, HasSuffix, TrimSuffix, HasSuffix.
    rewrite rev_app_distr. change (rev (lit ".md")) with (lit "dm.").
    rewrite HasPrefix_app. cbn [andb].
    rewrite length_app. change (length (lit ".md")) with 3.
    replace (length short + 3 - 3) with (length short + 0) by lia.
    rewrite firstn_app_2. cbn [firstn]. rewrite app_nil_r. exact Hid.
  - intros c Hin Hid Hsafe Hlt.
    assert (Hc : c <> dash) by (intros ->; discriminate Hid).
    assert (Hstem : In c short).
    { rewrite (Hwhole Hlt). unfold clean.
      apply SanitizeFileName_keeps; [exact Hc | exact Hsafe | |].
      - unfold descriptors. now apply joined_head.
      - fold clean. rewrite <- (Hwhole Hlt). lia. }
    split; [exact Hstem|].
    destruct (forallb idChar short) eqn:Hall; [|reflexivity].
    rewrite forallb_forall in Hall. rewrite (Hall c Hstem) in Hid. discriminate Hid.
Qed.

End WithCaseTables.

(** A title with an underscore. *)
Definition notesSection : ContentSection.t :=
  {| ContentSection.Title := lit "my_notes file";
     ContentSection.Content := lit "one two three four five six seven eight nine ten";
     ContentSection.StartLine := 1;
     ContentSection.EndLine := 2;
     ContentSection.WordCount := 10 |}.

Lemma underscore_stays_in_identifier :
  (forall unicodeLower,
     generateDescriptiveFileName unicodeLower declared notesSection
       = lit "my_notes-file.md") /\
  plainIdentifier (lit "my_notes-file.md") = false.
Proof. split; [intros unicodeLower|]; vm_compute; reflexivity. Qed.

(** A title with three of the replaced characters. *)
Definition setupSection : ContentSection.t :=
  {| ContentSection.Title := lit "Step 1: Install/Setup?";
     ContentSection.Content := lit "one two three four five six seven eight nine ten";
     ContentSection.StartLine := 1;
     ContentSection.EndLine := 2;
     ContentSection.WordCount := 10 |}.

Lemma identifier_characters_witness :
  generateDescriptiveFileName Naming.noCaseTables declared setupSection
    = lit "step-install-setup-configuration.md" /\
  plainIdentifier
    (generateDescriptiveFileName Naming.noCaseTables declared setupSection) = true /\
  plainIdentifier
    (generateDescriptiveFileName Naming.noCaseTables declared Naming.cacheSection) = true /\
  In "_"%char (lit "my_notes-file").
Proof.
  split; [vm_compute; reflexivity|]. split; [|split].
  - destruct (identifier_characters Naming.noCaseTables declared setupSection)
      as (stem & _ & _ & _ & _ & Hplain & Htitle & _).
    apply Hplain; [apply Naming.rangeOrder_declared|].
    apply Htitle. vm_compute. reflexivity.
  - destruct (identifier_characters Naming.noCaseTables declared Naming.cacheSection)
      as (stem & _ & _ & _ & _ & Hplain & Htitle & _).
    apply Hplain; [apply Naming.rangeOrder_declared|].
    apply Htitle. vm_compute. reflexivity.
  - destruct (identifier_characters Naming.noCaseTables declared notesSection)
      as (stem & Hname & _ & _ & _ & _ & _ & Hstays).
    assert (E : stem = lit "my_notes-file").
    { apply (app_inv_tail (lit ".md")). rewrite <- Hname. vm_compute. reflexivity. }
    rewrite <- E. apply (Hstays "_"%char).
    + vm_compute. tauto.
    + reflexivity.
    + IndexSync.absent.
    + rewrite E. vm_compute. lia.
Defined.

End Identifier.

(** ** Further properties of the code *)

Module Further.
Import Go Classifier Cmd StringFacts.

(** The entries of a table whose pattern matches. *)
Definition matching (table : list (gostring * gostring)) (content : gostring) :
    list (gostring * gostring) :=
  filter (fun e => MatchString (fst e) content) table.

Lemma find_filter (A : Type) (f : A -> bool) (l : list A) :
  find f l = hd_error (filter f l).
Proof.
  induction l as [|x l IH]; [reflexivity|]. simpl. destruct (f x); auto.
Qed.

Lemma firstMatch_single (table visit : list (gostring * gostring)) (content : gostring) :
  Permutation visit table ->
  length (matching table content) <= 1 ->
  firstMatch visit content = firstMatch table content.
Proof.
  intros Hperm Hone. unfold firstMatch. rewrite !find_filter.
  pose proof (UpdateScan.filter_Permutation
                (fun e => MatchString (fst e) content) Hperm) as Hp.
  fold (matching table content) in Hp |- *. fold (matching visit content) in Hp |- *.
  destruct (matching table content) as [|e [|e' rest]].
  - apply Permutation_sym, Permutation_nil in Hp. now rewrite Hp.
  - apply Permutation_sym, Permutation_length_1_inv in Hp. now rewrite Hp.
  - simpl in Hone. lia.
Qed.

Section WithCaseTables.

Variable unicodeLower : gostring -> gostring.

(** The text the two tables are matched against. *)
Definition matchedText (section : ContentSection.t) : gostring :=
  ToLower unicodeLower
    (ContentSection.Title section ++ lit " " ++ ContentSection.Content section).

(** X1: when at most one pattern of each table matches the text of a
    section, its identifier does not depend on the order in which the maps
    are visited. *)
Theorem identifier_is_fixed_when_one_pattern_matches
    (o : MapOrder) (section : ContentSection.t) :
  rangeOrder o ->
  length (matching techPatterns (matchedText section)) <= 1 ->
  length (matching funcPatterns (matchedText section)) <= 1 ->
  generateDescriptiveFileName unicodeLower o section =
  generateDescriptiveFileName unicodeLower declared section.
Proof.
  intros [Ht Hf] Htech Hfunc.
  unfold generateDescriptiveFileName, extractTechnologyDescriptor,
    extractFunctionDescriptor. cbv zeta. fold (matchedText section).
  rewrite (firstMatch_single _ Ht Htech), (firstMatch_single _ Hf Hfunc).
  reflexivity.
Qed.

(** X2: [generateContextFiles] makes one context file for every stored
    section, in the order of the sections; a file carries the content and
    the word count of its section unchanged, and its token count is the
    length of the content in bytes divided by four, rounded down. *)
Theorem context_files_mirror_the_sections
    (orders : nat -> MapOrder) (secs : list ContentSection.t) :
  map ContextFile.Content (generateContextFiles unicodeLower orders secs) =
    map ContentSection.Content secs /\
  map ContextFile.WordCount (generateContextFiles unicodeLower orders secs) =
    map ContentSection.WordCount secs /\
  Forall (fun f => ContextFile.TokenCount f = (len (ContextFile.Content f) / 4)%Z)
         (generateContextFiles unicodeLower orders secs).
Proof.
  unfold generateContextFiles. generalize 0.
  induction secs as [|s secs IH]; intros i; cbn [generateFrom map];
    [repeat split; constructor|].
  destruct (IH (S i)) as (Hc & Hw & Ht). rewrite Hc, Hw.
  repeat split. constructor; [|exact Ht].
  cbn [contextFileOf ContextFile.TokenCount ContextFile.Content].
  unfold TokenEstimationRatio, len. apply Z.quot_div_nonneg; lia.
Qed.

End WithCaseTables.

(** A section with its line numbers moved by [k]. *)
Definition shift (k : Z) (s : ContentSection.t) : ContentSection.t :=
  {| ContentSection.Title := ContentSection.Title s;
     ContentSection.Content := ContentSection.Content s;
     ContentSection.StartLine := ContentSection.StartLine s + k;
     ContentSection.EndLine := ContentSection.EndLine s + k;
     ContentSection.WordCount := ContentSection.WordCount s |}.

Lemma takeBody_header (lines : list gostring) (h : gostring) (rest : list gostring) :
  isHeader h = true ->
  Segmentation.takeBody (lines ++ h :: rest) = Segmentation.takeBody lines.
Proof.
  intros Hh. induction lines as [|l lines IH]; cbn [app Segmentation.takeBody].
  - now rewrite Hh.
  - destruct (isHeader l); [reflexivity | now rewrite IH].
Qed.

Lemma candidates_header (lines : list gostring) (h : gostring) (rest : list gostring) :
  isHeader h = true ->
  forall n,
    Segmentation.candidates n (lines ++ h :: rest) =
    Segmentation.candidates n lines ++
    Segmentation.candidates (n + Z.of_nat (length lines)) (h :: rest).
Proof.
  intros Hh. induction lines as [|l lines IH]; intros n.
  - cbn [app length Z.of_nat Segmentation.candidates]. now rewrite Z.add_0_r.
  - cbn [app Segmentation.candidates]. rewrite IH, takeBody_header by exact Hh.
    replace (n + 1 + Z.of_nat (length lines))%Z
      with (n + Z.of_nat (length (l :: lines)))%Z by (cbn [length]; lia).
    destruct (isHeader l); reflexivity.
Qed.

Lemma candidates_shift (lines : list gostring) :
  forall n k,
    Segmentation.candidates (n + k) lines =
    map (shift k) (Segmentation.candidates n lines).
Proof.
  induction lines as [|l lines IH]; intros n k; [reflexivity|].
  cbn [Segmentation.candidates].
  replace (n + k + 1)%Z with (n + 1 + k)%Z by lia. rewrite IH.
  destruct (isHeader l); [|reflexivity]. cbn [map]. f_equal.
  unfold shift, Segmentation.sectionOf.
  cbn [ContentSection.Title ContentSection.Content ContentSection.StartLine
       ContentSection.EndLine ContentSection.WordCount].
  f_equal. lia.
Qed.

Lemma filter_shift (k : Z) (l : list ContentSection.t) :
  filter Segmentation.retained (map (shift k) l) =
  map (shift k) (filter Segmentation.retained l).
Proof.
  induction l as [|s l IH]; [reflexivity|]. cbn [map filter].
  change (Segmentation.retained (shift k s)) with (Segmentation.retained s).
  destruct (Segmentation.retained s); cbn [map]; now rewrite IH.
Qed.

(** X3: a section whose body has fewer than ten words leaves no trace in
    what [parseSourceFile] stores: the result is the sections of the lines
    before its header, followed by the sections of the lines after its
    body with their line numbers moved; its words are joined to no
    neighbour. *)
Theorem short_sections_are_dropped
    (content : gostring) (pre : list gostring) (h : gostring)
    (body post : list gostring) :
  ScanLines content = (pre ++ h :: body ++ post, false) ->
  isHeader h = true ->
  Segmentation.noHeader body = true ->
  match post with [] => True | l :: _ => isHeader l = true end ->
  (Z.of_nat (length (Fields (TrimSpace (Segmentation.bodyText body))))
   < MinWordCountForFile)%Z ->
  parseSourceFile (Ok content) =
  Ok (parseLines pre ++
      map (shift (Z.of_nat (length pre) + 1 + Z.of_nat (length body)))
          (parseLines post)).
Proof.
  intros Hscan Hh Hbody Hpost Hshort.
  rewrite (Segmentation.parseSourceFile_scanned _ Hscan). f_equal.
  rewrite !Segmentation.parseLines_spec.
  rewrite candidates_header by exact Hh. rewrite filter_app. f_equal.
  cbn [Segmentation.candidates]. rewrite Hh.
  rewrite Segmentation.takeBody_noHeader by assumption.
  rewrite Segmentation.candidates_noHeader by assumption.
  cbn [filter]. unfold Segmentation.retained at 1.
  cbn [Segmentation.sectionOf ContentSection.WordCount].
  destruct (Z.leb_spec MinWordCountForFile
              (Z.of_nat (length (Fields (TrimSpace (Segmentation.bodyText body))))))
    as [Hlong|_]; [lia|].
  rewrite <- filter_shift, <- candidates_shift. do 2 f_equal. lia.
Qed.

(** X4: [SanitizeFileName] returns a name that is not empty, has at most
    [MaxFileNameLength] bytes and holds none of the characters it
    replaces. *)
Theorem sanitized_names_are_safe (name : gostring) :
  Validation.SanitizeFileName name <> [] /\
  (len (Validation.SanitizeFileName name) <= Validation.MaxFileNameLength)%Z /\
  Forall Identifier.safe (Validation.SanitizeFileName name).
Proof.
  split; [apply Naming.SanitizeFileName_not_empty|].
  split; [|apply Identifier.SanitizeFileName_safe].
  unfold Validation.SanitizeFileName, Validation.MaxFileNameLength, len.
  set (trimmed := Trim _ _).
  destruct (Z.ltb_spec 100 (Z.of_nat (length trimmed))) as [Hlong|Hshort].
  - destruct (firstn _ trimmed) eqn:E; [simpl; lia|].
    rewrite <- E, length_firstn. change (Z.to_nat 100) with 100. lia.
  - destruct trimmed; [simpl; lia | exact Hshort].
Qed.

(** X5: the index is regenerated when it is missing, when its state cannot
    be read, or when some chapter file that can be read is newer than
    it. *)
Theorem staleness_check (env : UpdateEnv) (chapterFiles : list ContextFile.t) :
  checkIfUpdateNeeded env chapterFiles =
  match indexStat env with
  | NotExist => (true, None)
  | StatError e => (true, Some e)
  | ModTime indexTime =>
      (existsb (fun file =>
                  match chapterStat env (lit "context/" ++ ContextFile.FileName file) with
                  | ModTime t => (indexTime <? t)%Z
                  | _ => false
                  end) chapterFiles, None)
  end.
Proof.
  unfold checkIfUpdateNeeded. destruct (indexStat env) as [indexTime| |e]; try reflexivity.
  f_equal. induction chapterFiles as [|f files IH]; [reflexivity|].
  cbn [anyNewer existsb]. rewrite IH.
  destruct (chapterStat env _) as [t| |e]; reflexivity.
Qed.

(** An example: an index that holds the first placeholder and the chapters
    [login-auth] and [db-schema] becomes the numbered list of the two, in
    that order. *)
Example placeholder_becomes_numbered_list :
  updatedContent IndexSync.chapterPlaceholder IndexSync.twoChapters (lit "context") =
  lit "1. **login-auth** - `context/login-auth.md`" ++ [byte 10] ++
  lit "2. **db-schema** - `context/db-schema.md`".
Proof. vm_compute. reflexivity. Qed.

(** The document of the specification's scenario: a section on an
    authentication flow. *)
Definition authSection : ContentSection.t :=
  {| ContentSection.Title := lit "Auth Flow";
     ContentSection.Content :=
       lit "Word Word Word Word Word Word Word Word Word Word Word Word oauth jwt login";
     ContentSection.StartLine := 1;
     ContentSection.EndLine := 2;
     ContentSection.WordCount := 15 |}.

Lemma identifier_is_fixed_when_one_pattern_matches_witness :
  generateDescriptiveFileName Naming.noCaseTables Naming.reversed authSection =
  generateDescriptiveFileName Naming.noCaseTables declared authSection.
Proof.
  apply (@identifier_is_fixed_when_one_pattern_matches
           Naming.noCaseTables Naming.reversed authSection).
  - apply Naming.rangeOrder_reversed.
  - vm_compute. lia.
  - vm_compute. lia.
Defined.

(** A section of three words between two sections of ten words. *)
Definition shortBetween : gostring :=
  lit "## First" ++ [byte 10] ++
  lit "one two three four five six seven eight nine ten" ++ [byte 10] ++
  lit "## Short" ++ [byte 10] ++
  lit "too few words" ++ [byte 10] ++
  lit "## Last" ++ [byte 10] ++
  lit "ten nine eight seven six five four three two one" ++ [byte 10].

Lemma short_sections_are_dropped_witness :
  parseSourceFile (Ok shortBetween) =
  Ok [ Segmentation.sectionOf (lit "## First") 1
         [lit "one two three four five six seven eight nine ten"];
       Segmentation.sectionOf (lit "## Last") 5
         [lit "ten nine eight seven six five four three two one"] ].
Proof.
  rewrite (@short_sections_are_dropped shortBetween
             [lit "## First"; lit "one two three four five six seven eight nine ten"]
             (lit "## Short") [lit "too few words"]
             [lit "## Last"; lit "ten nine eight seven six five four three two one"]).
  - vm_compute; reflexivity.
  - vm_compute; reflexivity.
  - vm_compute; reflexivity.
  - vm_compute; reflexivity.
  - vm_compute; reflexivity.
  - vm_compute; reflexivity.
Defined.

(** The table of [TestSanitizeFileName] holds of the embedding. *)
Example sanitize_test_table :
  Validation.SanitizeFileName (lit "test-file") = lit "test-file" /\
  Validation.SanitizeFileName (lit "my test file") = lit "my test file" /\
  Validation.SanitizeFileName (lit "test/file\name:with*dangerous?chars")
    = lit "test-file-name-with-dangerous-chars" /\
  Validation.SanitizeFileName ([byte 34] ++ lit "quoted filename" ++ [byte 34])
    = lit "quoted filename" /\
  Validation.SanitizeFileName (lit "test---file---name") = lit "test-file-name" /\
  Validation.SanitizeFileName [] = lit "unnamed" /\
  Validation.SanitizeFileName (lit "/\:*?" ++ [byte 34] ++ lit "<>|") = lit "unnamed" /\
  Validation.SanitizeFileName (repeat "a"%char 150) = repeat "a"%char 100 /\
  Validation.SanitizeFileName (lit "---test-file---") = lit "test-file".
Proof. repeat split; vm_compute; reflexivity. Qed.

(** An example: a document with the section [Auth Flow] yields one context
    file; for every order in which the maps are visited its name is
    [auth-flow-oauth-authentication.md], and its key terms are [jwt] and
    [oauth]. *)
Example auth_flow_scenario (o : MapOrder) :
  rangeOrder o ->
  parseSourceFile
    (Ok (lit "## Auth Flow" ++ [byte 10] ++ ContentSection.Content authSection))
    = Ok [authSection] /\
  generateDescriptiveFileName Naming.noCaseTables o authSection
    = lit "auth-flow-oauth-authentication.md" /\
  extractKeyTerms Naming.noCaseTables authSection = [lit "jwt"; lit "oauth"].
Proof.
  intros [Ht Hf]. split; [vm_compute; reflexivity|]. split; [|vm_compute; reflexivity].
  unfold generateDescriptiveFileName, extractTechnologyDescriptor,
    extractFunctionDescriptor. cbv zeta.
  rewrite (@firstMatch_single techPatterns (techOrder o) _ Ht) by (vm_compute; lia).
  rewrite (@firstMatch_single funcPatterns (funcOrder o) _ Hf) by (vm_compute; lia).
  vm_compute. reflexivity.
Qed.

Lemma auth_flow_scenario_witness :
  generateDescriptiveFileName Naming.noCaseTables Naming.reversed authSection
    = lit "auth-flow-oauth-authentication.md".
Proof.
  destruct (@auth_flow_scenario Naming.reversed Naming.rangeOrder_reversed)
    as (_ & H & _).
  exact H.
Defined.

End Further.

(** ** Package validation: what the validators accept *)

Module Accepted.
Import Go Validation.

Lemma Contains_char (c : ascii) (s : gostring) :
  Contains s [c] = true <-> In c s.
Proof.
  induction s as [|d s IH]; [simpl; split; [discriminate | tauto]|].
  cbn [Contains HasPrefix]. rewrite orb_true_iff, andb_true_r, IH.
  rewrite Ascii.eqb_eq. simpl. tauto.
Qed.

Lemma find_none_all (A : Type) (f : A -> bool) (l : list A) :
  (forall x, In x l -> f x = false) -> find f l = None.
Proof.
  induction l as [|x l IH]; intros H; [reflexivity|]. simpl.
  rewrite (H x) by now left. apply IH. intros y Hy. apply H. now right.
Qed.

(** The characters [dangerousChars] lists, each as a one-character text. *)
Definition dangerous : gostring := lit ";&|`$(){}[]".

Lemma dangerousChars_chars : dangerousChars = map (fun c => [c]) dangerous.
Proof. reflexivity. Qed.

(** *** Texts that are not blank *)

Lemma dropWhile_nil (A : Type) (p : A -> bool) (l : list A) :
  dropWhile p l = [] <-> forallb p l = true.
Proof.
  induction l as [|x l IH]; simpl; [tauto|].
  destruct (p x); simpl; [exact IH | split; discriminate].
Qed.

Lemma dropWhile_head (A : Type) (p : A -> bool) (l : list A) (x : A) (r : list A) :
  dropWhile p l = x :: r -> p x = false.
Proof.
  induction l as [|y l IH]; simpl; [discriminate|].
  destruct (p y) eqn:E; [exact IH|]. intros H. injection H as -> _. exact E.
Qed.

Lemma trimmed_nil (l : list (ascii * bool)) :
  SpaceFacts.trimR (dropWhile snd l) = [] <-> forallb snd l = true.
Proof.
  rewrite <- dropWhile_nil. destruct (dropWhile snd l) as [|x r] eqn:E.
  - split; reflexivity.
  - apply dropWhile_head in E. rewrite SpaceFacts.trimR_cons.
    destruct (SpaceFacts.trimR r); rewrite ?E; split; discriminate.
Qed.

Lemma TrimSpace_nil (s : gostring) :
  TrimSpace s = [] <-> forallb snd (marked s) = true.
Proof.
  rewrite <- trimmed_nil. unfold TrimSpace. fold (SpaceFacts.trimR (dropWhile snd (marked s))).
  destruct (SpaceFacts.trimR _); simpl; split; congruence.
Qed.

(** In a text of ASCII bytes the white space is the ASCII white space. *)
Definition plain (c : ascii) : bool := (N_of_ascii c <? 128)%N.

Lemma spaceWidth_plain (c : ascii) (t : gostring) :
  plain c = true ->
  spaceWidth (c :: t) = if SpaceFacts.asciiSpace c then 1 else 0.
Proof.
  destruct c as [[] [] [] [] [] [] [] []]; intros H; try discriminate H;
    vm_compute; reflexivity.
Qed.

Lemma spaceMask_plain (s : gostring) :
  forallb plain s = true -> spaceMask 0 s = map SpaceFacts.asciiSpace s.
Proof.
  induction s as [|c s IH]; [reflexivity|]. simpl forallb.
  intros H. apply andb_true_iff in H. destruct H as [Hc Hs].
  cbn [spaceMask map]. rewrite (@spaceWidth_plain c s Hc).
  destruct (SpaceFacts.asciiSpace c); now rewrite IH.
Qed.

Lemma forallb_marks (f : ascii -> bool) (s : gostring) :
  forallb snd (combine s (map f s)) = forallb f s.
Proof. induction s as [|c s IH]; simpl; [reflexivity | now rewrite IH]. Qed.

Lemma blank_plain (s : gostring) :
  forallb plain s = true ->
  (TrimSpace s = [] <-> forallb SpaceFacts.asciiSpace s = true).
Proof.
  intros H. rewrite TrimSpace_nil. unfold marked.
  rewrite (@spaceMask_plain s H), forallb_marks. tauto.
Qed.

(** *** The character classes *)

Lemma category_in_template (c : ascii) :
  categoryNameChar c = true -> templateNameChar c = true.
Proof.
  unfold categoryNameChar, templateNameChar.
  destruct (lowerLetter c), (upperLetter c), (digit c), (Ascii.eqb c "-"); auto.
Qed.

Lemma template_in_project (c : ascii) :
  templateNameChar c = true -> projectNameChar c = true.
Proof.
  unfold projectNameChar, templateNameChar.
  destruct (lowerLetter c), (upperLetter c), (digit c), (Ascii.eqb c "-"),
    (regexpSpace c), (Ascii.eqb c "_"); auto.
Qed.

Lemma project_plain (c : ascii) : projectNameChar c = true -> plain c = true.
Proof.
  destruct c as [[] [] [] [] [] [] [] []]; intros H; try reflexivity;
    vm_compute in H; discriminate H.
Qed.

Lemma project_space (c : ascii) :
  projectNameChar c = true -> SpaceFacts.asciiSpace c = regexpSpace c.
Proof.
  destruct c as [[] [] [] [] [] [] [] []]; intros H; try reflexivity;
    vm_compute in H; discriminate H.
Qed.

Lemma template_solid (c : ascii) :
  templateNameChar c = true -> SpaceFacts.asciiSpace c = false.
Proof.
  destruct c as [[] [] [] [] [] [] [] []]; intros H; try reflexivity;
    vm_compute in H; discriminate H.
Qed.

Lemma forallb_impl (A : Type) (f g : A -> bool) (l : list A) :
  (forall x, f x = true -> g x = true) -> forallb f l = true -> forallb g l = true.
Proof.
  intros H. rewrite !forallb_forall. auto.
Qed.

Lemma matchClass_spec (class : ascii -> bool) (s : gostring) :
  matchClass class s = true <-> s <> [] /\ forallb class s = true.
Proof.
  destruct s as [|c s].
  - simpl. split; [discriminate | intros [H _]; congruence].
  - cbn [matchClass]. split; [intros H; split; [discriminate | exact H] | tauto].
Qed.

(** A name in the class of template names starts outside white space, so
    it is not blank. *)
Lemma template_not_blank (name : gostring) :
  name <> [] -> forallb templateNameChar name = true -> TrimSpace name <> [].
Proof.
  intros Hne Hall Hblank.
  assert (Hplain : forallb plain name = true).
  { revert Hall. apply forallb_impl. intros c Hc.
    now apply project_plain, template_in_project. }
  apply (@blank_plain name Hplain) in Hblank.
  destruct name as [|c t]; [congruence|]. simpl in Hall, Hblank.
  apply andb_true_iff in Hall, Hblank. destruct Hall as [Hc _], Hblank as [Hs _].
  rewrite (@template_solid c Hc) in Hs. discriminate.
Qed.

(** A name in the class of project names is blank when all its characters
    are white space of the class [\s]. *)
Lemma project_blank (name : gostring) :
  forallb projectNameChar name = true ->
  (TrimSpace name = [] <->
   existsb (fun c => negb (regexpSpace c)) name = false).
Proof.
  intros Hall.
  assert (Hplain : forallb plain name = true)
    by (revert Hall; apply forallb_impl; exact project_plain).
  rewrite (@blank_plain name Hplain). clear Hplain.
  induction name as [|c t IH]; [simpl; tauto|].
  simpl in Hall. apply andb_true_iff in Hall. destruct Hall as [Hc Ht].
  simpl. rewrite (@project_space c Hc), andb_true_iff, orb_false_iff, (IH Ht).
  rewrite negb_false_iff. tauto.
Qed.

Lemma validatePathCommon_spec (path : gostring) (pathType : string) :
  validatePathCommon path pathType = None <->
  TrimSpace path <> [] /\
  Contains path (lit "..") = false /\
  (forall c, In c dangerous -> ~ In c path) /\
  (len path <= MaxPathLength)%Z.
Proof.
  unfold validatePathCommon. split.
  - destruct (TrimSpace path) eqn:Ht; [discriminate|].
    destruct (Contains path (lit "..")) eqn:Hd; [discriminate|].
    destruct (find _ dangerousChars) eqn:Hf; [discriminate|].
    destruct (Z.ltb_spec MaxPathLength (len path)); [discriminate|].
    intros _. repeat split; try discriminate; try assumption.
    intros c Hc Hin. apply Contains_char in Hin.
    assert (Hlisted : In [c] dangerousChars)
      by (rewrite dangerousChars_chars;
          exact (in_map (fun c0 : ascii => [c0]) dangerous c Hc)).
    now rewrite (find_none _ _ Hf _ Hlisted) in Hin.
  - intros (Ht & Hd & Hc & Hlen).
    destruct (TrimSpace path); [congruence|]. rewrite Hd.
    rewrite find_none_all.
    + destruct (Z.ltb_spec MaxPathLength (len path)); [lia | reflexivity].
    + intros char Hin. rewrite dangerousChars_chars in Hin.
      apply in_map_iff in Hin. destruct Hin as (c & <- & Hin).
      destruct (Contains path [c]) eqn:E; [|reflexivity].
      apply Contains_char in E. now destruct (Hc c Hin).
Qed.

(** X6: [validatePathCommon], and with it [ValidateFilePath] and
    [ValidateDirectoryPath], accepts exactly the paths that are not blank,
    do not hold two dots in a row, hold none of the eleven characters of
    [dangerousChars] and have at most 255 bytes. *)
Theorem accepted_paths (path : gostring) (pathType : string) :
  validatePathCommon path pathType = None <->
  TrimSpace path <> [] /\
  Contains path (lit "..") = false /\
  (forall c, In c dangerous -> ~ In c path) /\
  (len path <= MaxPathLength)%Z.
Proof. exact (validatePathCommon_spec path pathType). Qed.

Lemma template_and_category_spec (name : gostring) :
  (ValidateTemplateName name = None <->
   name <> [] /\ forallb templateNameChar name = true /\
   (len name <= MaxTemplateNameLength)%Z) /\
  (ValidateCategoryName name = None <->
   name <> [] /\ forallb categoryNameChar name = true /\
   (len name <= MaxCategoryNameLength)%Z).
Proof.
  unfold ValidateTemplateName, ValidateCategoryName. split; split.
  - destruct (TrimSpace name); [discriminate|].
    destruct (matchClass templateNameChar name) eqn:Hm; [|discriminate].
    apply matchClass_spec in Hm. cbn [negb].
    destruct (Z.ltb_spec MaxTemplateNameLength (len name)); [discriminate|].
    intros _. tauto.
  - intros (Hne & Hall & Hlen).
    pose proof (@template_not_blank name Hne Hall) as Hb.
    destruct (TrimSpace name); [congruence|].
    rewrite (proj2 (matchClass_spec templateNameChar name) (conj Hne Hall)).
    cbn [negb]. destruct (Z.ltb_spec MaxTemplateNameLength (len name)); [lia | reflexivity].
  - destruct (TrimSpace name); [discriminate|].
    destruct (matchClass categoryNameChar name) eqn:Hm; [|discriminate].
    apply matchClass_spec in Hm. cbn [negb].
    destruct (Z.ltb_spec MaxCategoryNameLength (len name)); [discriminate|].
    intros _. tauto.
  - intros (Hne & Hall & Hlen).
    assert (Hb : TrimSpace name <> []).
    { apply (@template_not_blank name Hne). revert Hall. apply forallb_impl.
      exact category_in_template. }
    destruct (TrimSpace name); [congruence|].
    rewrite (proj2 (matchClass_spec categoryNameChar name) (conj Hne Hall)).
    cbn [negb]. destruct (Z.ltb_spec MaxCategoryNameLength (len name)); [lia | reflexivity].
Qed.

Lemma project_spec (name : gostring) :
  ValidateProjectName name = None <->
  forallb projectNameChar name = true /\
  existsb (fun c => negb (regexpSpace c)) name = true /\
  (len name <= MaxProjectNameLength)%Z.
Proof.
  unfold ValidateProjectName. split.
  - destruct (TrimSpace name) eqn:Ht; [discriminate|].
    destruct (Z.ltb_spec MaxProjectNameLength (len name)); [discriminate|].
    destruct (matchClass projectNameChar name) eqn:Hm; [|discriminate].
    apply matchClass_spec in Hm. destruct Hm as [_ Hall]. intros _.
    split; [exact Hall|]. split; [|assumption].
    destruct (existsb _ name) eqn:E; [reflexivity|].
    apply (@project_blank name Hall) in E. congruence.
  - intros (Hall & Hsolid & Hlen).
    destruct (TrimSpace name) eqn:Ht.
    { apply (@project_blank name Hall) in Ht. congruence. }
    destruct (Z.ltb_spec MaxProjectNameLength (len name)); [lia|].
    assert (Hne : name <> []) by (intros ->; discriminate Hsolid).
    now rewrite (proj2 (matchClass_spec projectNameChar name) (conj Hne Hall)).
Qed.

(** X7: [ValidateTemplateName] accepts exactly the names that are not
    empty, consist of ASCII letters, digits and dashes and have at most 50
    bytes; [ValidateCategoryName] accepts exactly the names that are not
    empty, consist of lower-case ASCII letters, digits and dashes and have
    at most 30 bytes. *)
Theorem accepted_template_and_category_names (name : gostring) :
  (ValidateTemplateName name = None <->
   name <> [] /\ forallb templateNameChar name = true /\
   (len name <= MaxTemplateNameLength)%Z) /\
  (ValidateCategoryName name = None <->
   name <> [] /\ forallb categoryNameChar name = true /\
   (len name <= MaxCategoryNameLength)%Z).
Proof. exact (template_and_category_spec name). Qed.

(** X8: [ValidateProjectName] accepts exactly the names that consist of
    ASCII letters, digits, dashes, underscores and the white space of the
    class [\s], hold at least one character that is no white space, and
    have at most 100 bytes.  White space at the start or at the end of the
    name is accepted. *)
Theorem accepted_project_names (name : gostring) :
  ValidateProjectName name = None <->
  forallb projectNameChar name = true /\
  existsb (fun c => negb (regexpSpace c)) name = true /\
  (len name <= MaxProjectNameLength)%Z.
Proof. exact (project_spec name). Qed.

(** X9: the three rules for names nest: a name [ValidateCategoryName]
    accepts is accepted by [ValidateTemplateName], and a name
    [ValidateTemplateName] accepts is accepted by [ValidateProjectName]. *)
Theorem name_rules_nest (name : gostring) :
  (ValidateCategoryName name = None -> ValidateTemplateName name = None) /\
  (ValidateTemplateName name = None -> ValidateProjectName name = None).
Proof.
  destruct (template_and_category_spec name) as [Ht Hc]. split.
  - intros H. apply Hc in H. destruct H as (Hne & Hall & Hlen). apply Ht.
    split; [exact Hne|]. split.
    + revert Hall. apply forallb_impl. exact category_in_template.
    + unfold MaxCategoryNameLength, MaxTemplateNameLength in *. lia.
  - intros H. apply Ht in H. destruct H as (Hne & Hall & Hlen).
    apply project_spec. split; [|split].
    + revert Hall. apply forallb_impl. exact template_in_project.
    + destruct name as [|c t]; [congruence|]. simpl in Hall |- *.
      apply andb_true_iff in Hall. destruct Hall as [Hc' _].
      rewrite <- (@project_space c (@template_in_project c Hc')).
      now rewrite (@template_solid c Hc').
    + unfold MaxProjectNameLength, MaxTemplateNameLength in *. lia.
Qed.

Lemma name_rules_nest_witness :
  ValidateTemplateName (lit "api-docs") = None /\
  ValidateProjectName (lit "api-docs") = None.
Proof.
  destruct (name_rules_nest (lit "api-docs")) as [Hc Ht].
  assert (H : ValidateTemplateName (lit "api-docs") = None)
    by (apply Hc; vm_compute; reflexivity).
  split; [exact H | exact (Ht H)].
Defined.

End Accepted.

(** ** Package validation: the check for binary content *)

Module BinaryCheck.
Import Go Validation.

(** The comparison of [isBinaryContent] on [c] control characters among
    [n] bytes. *)
Definition exceeds (c n : Z) : bool :=
  PrimFloat.ltb BinaryThreshold (PrimFloat.div (float64 c) (float64 n)).

(** The numbers [lo], [lo + 1], ... up to [count] of them. *)
Fixpoint zrange (lo : Z) (count : nat) : list Z :=
  match count with
  | O => []
  | S k => lo :: zrange (lo + 1) k
  end.

Lemma zrange_In (x : Z) (count : nat) :
  forall lo, (lo <= x < lo + Z.of_nat count)%Z -> In x (zrange lo count).
Proof.
  induction count as [|k IH]; intros lo H; [lia|].
  cbn [zrange]. destruct (Z.eq_dec lo x) as [E|E]; [now left | right].
  apply IH. lia.
Qed.

(** For every number of bytes the check reads and every number of control
    characters among them, the comparison of the quotient with the
    threshold in binary64 arithmetic is the comparison of the fractions. *)
Lemma thresholdTable :
  forallb
    (fun n => forallb (fun c => Bool.eqb (exceeds c n) (3 * n <? 10 * c)%Z)
                      (zrange 0 (Z.to_nat (n + 1))))
    (zrange 1 512) = true.
Proof. vm_compute. reflexivity. Qed.

Lemma threshold_exact (c n : Z) :
  (1 <= n <= 512)%Z -> (0 <= c <= n)%Z -> exceeds c n = (3 * n <? 10 * c)%Z.
Proof.
  intros Hn Hc. pose proof thresholdTable as H.
  rewrite forallb_forall in H.
  assert (Hin : In n (zrange 1 512)) by (apply zrange_In; lia).
  specialize (H n Hin). rewrite forallb_forall in H.
  assert (Hin' : In c (zrange 0 (Z.to_nat (n + 1)))) by (apply zrange_In; lia).
  specialize (H c Hin'). now apply eqb_prop in H.
Qed.

(** The control characters among the first [n] bytes. *)
Definition controls (n : nat) (content : gostring) : nat :=
  length (filter isControl (firstn n content)).

Lemma controlChars_controls (content : gostring) :
  forall n, controlChars n content = Z.of_nat (controls n content).
Proof.
  unfold controls.
  induction content as [|c rest IH]; intros [|k]; try reflexivity.
  cbn [controlChars firstn filter]. rewrite IH.
  destruct (isControl c); cbn [length]; lia.
Qed.

Lemma controls_le (n : nat) (content : gostring) :
  controls n content <= Nat.min n (length content).
Proof.
  unfold controls.
  pose proof (filter_length_le isControl (firstn n content)) as H.
  rewrite length_firstn in H. exact H.
Qed.

Lemma isBinaryContent_spec (content : gostring) :
  isBinaryContent content =
  (3 * Z.min 512 (len content) <? 10 * Z.of_nat (controls 512 content))%Z.
Proof.
  unfold isBinaryContent, CheckBytesLength, len.
  destruct (Z.ltb_spec (Z.of_nat (length content)) 512) as [Hshort|Hlong].
  - rewrite Z.min_r by lia.
    destruct (Z.eqb_spec (Z.of_nat (length content)) 0) as [Hzero|Hpos].
    + assert (E : content = []) by (destruct content; [reflexivity | discriminate]).
      subst content. reflexivity.
    + rewrite Nat2Z.id, controlChars_controls.
      assert (E : controls (length content) content = controls 512 content).
      { unfold controls. rewrite !firstn_all2 by lia. reflexivity. }
      rewrite E. apply threshold_exact; [lia|].
      pose proof (controls_le 512 content). lia.
  - rewrite Z.min_l by lia. change (512 =? 0)%Z with false. cbv iota.
    change (Z.to_nat 512) with 512. rewrite controlChars_controls.
    apply threshold_exact; [lia|].
    pose proof (controls_le 512 content). lia.
Qed.

(** X10: [isBinaryContent] answers true exactly when, among the first
    [min(512, len(content))] bytes, the control characters (the bytes
    below 32 other than tab, line feed and carriage return) are more than
    three tenths; the comparison in [float64] makes no rounding error on
    any input.  In particular an empty content is not binary. *)
Theorem binary_means_more_than_three_tenths (content : gostring) :
  isBinaryContent content =
  (3 * Z.min 512 (len content) <? 10 * Z.of_nat (controls 512 content))%Z.
Proof. exact (isBinaryContent_spec content). Qed.

(** X11: [isBinaryContent] never looks beyond the first 512 bytes: a
    content and its first 512 bytes get the same answer. *)
Theorem binary_check_reads_512_bytes (content : gostring) :
  isBinaryContent (firstn 512 content) = isBinaryContent content.
Proof.
  rewrite !isBinaryContent_spec.
  unfold controls, len. rewrite length_firstn, firstn_firstn, Nat.min_id.
  replace (Z.min 512 (Z.of_nat (Nat.min 512 (length content))))
    with (Z.min 512 (Z.of_nat (length content))) by lia.
  reflexivity.
Qed.

End BinaryCheck.

(** ** Package validation: the source file *)

Module SourceFile.
Import Go Validation.

Lemma eqs_eq (s t : gostring) : eqs s t = true <-> s = t.
Proof.
  revert t. induction s as [|c s IH]; intros [|d t]; simpl;
    try (split; [discriminate | congruence]); [tauto|].
  rewrite andb_true_iff, Ascii.eqb_eq, IH. split.
  - intros [-> ->]. reflexivity.
  - intros H. injection H as -> ->. auto.
Qed.

Section WithFileSystem.

Variable unicodeLower : gostring -> gostring.
Variable fs : Os.FileSystem.

(** What [ValidateMarkdownFile] asks of the file at [path]. *)
Definition markdownSource (path : gostring) : Prop :=
  ValidateFilePath path = None /\
  exists info content,
    Os.Stat fs path = Os.Info info /\
    Os.FileInfo.IsDir info = false /\
    Os.Open fs path = None /\
    (ToLower unicodeLower (Ext path) = lit ".md" \/
     ToLower unicodeLower (Ext path) = lit ".markdown") /\
    (Os.FileInfo.Size info <= MaxMarkdownFileSize)%Z /\
    Os.ReadFile fs path = Ok content /\
    isBinaryContent content = false.

Lemma ValidateMarkdownFile_spec (path : gostring) :
  ValidateMarkdownFile unicodeLower fs path = None <-> markdownSource path.
Proof.
  unfold ValidateMarkdownFile, ValidateFileExists, markdownSource. split.
  - destruct (ValidateFilePath path); [discriminate|].
    destruct (Os.Stat fs path) as [info|e|e]; try discriminate.
    destruct (Os.FileInfo.IsDir info) eqn:Hdir; [discriminate|].
    destruct (Os.Open fs path) eqn:Hopen; [discriminate|].
    destruct (eqs _ (lit ".md")) eqn:Hmd.
    + cbn [negb andb].
      destruct (Z.ltb_spec MaxMarkdownFileSize (Os.FileInfo.Size info)); [discriminate|].
      destruct (Os.ReadFile fs path) as [content|e] eqn:Hread; [|discriminate].
      destruct (isBinaryContent content) eqn:Hbin; [discriminate|].
      intros _. split; [reflexivity|]. exists info, content.
      apply eqs_eq in Hmd. repeat split; auto.
    + destruct (eqs _ (lit ".markdown")) eqn:Hmarkdown; [|discriminate].
      cbn [negb andb].
      destruct (Z.ltb_spec MaxMarkdownFileSize (Os.FileInfo.Size info)); [discriminate|].
      destruct (Os.ReadFile fs path) as [content|e] eqn:Hread; [|discriminate].
      destruct (isBinaryContent content) eqn:Hbin; [discriminate|].
      intros _. split; [reflexivity|]. exists info, content.
      apply eqs_eq in Hmarkdown. repeat split; auto.
  - intros (-> & info & content & -> & -> & -> & Hext & Hsize & -> & ->).
    assert (E : negb (eqs (ToLower unicodeLower (Ext path)) (lit ".md")) &&
                negb (eqs (ToLower unicodeLower (Ext path)) (lit ".markdown")) = false).
    { destruct Hext as [H|H]; apply eqs_eq in H; rewrite H;
        [reflexivity | apply andb_false_r]. }
    rewrite E.
    destruct (Z.ltb_spec MaxMarkdownFileSize (Os.FileInfo.Size info)); [lia | reflexivity].
Qed.

(** X12: [ValidateMarkdownFile] accepts a path exactly when
    [ValidateFilePath] accepts it, the file exists, is no directory and can
    be opened, its extension is [.md] or [.markdown] in any mix of upper
    and lower case, its size is at most 50 MB, it can be read, and
    [isBinaryContent] does not hold of what it holds. *)
Theorem accepted_markdown_files (path : gostring) :
  ValidateMarkdownFile unicodeLower fs path = None <-> markdownSource path.
Proof. exact (ValidateMarkdownFile_spec path). Qed.

End WithFileSystem.

End SourceFile.

(** ** Packages config and template: the tables of templates *)

Module Templates.
Import Go Config.

Lemma supported (template : gostring) :
  ValidateTemplate template = None <-> In template SupportedTemplates.
Proof.
  unfold ValidateTemplate.
  destruct (existsb _ SupportedTemplates) eqn:E.
  - split; [intros _ | reflexivity].
    apply existsb_exists in E. destruct E as (t & Hin & E).
    apply SourceFile.eqs_eq in E. now subst.
  - split; [discriminate|]. intros Hin.
    assert (E' : existsb (fun supported => eqs template supported) SupportedTemplates = true).
    { apply existsb_exists. exists template. split; [exact Hin|].
      now apply SourceFile.eqs_eq. }
    congruence.
Qed.

(** The path [GetMainFileForTemplate] builds from the entry of a
    template. *)
Definition mainFilePath (Join : list gostring -> gostring)
    (config : TemplateConfig.t) (projectRoot : gostring) : gostring :=
  match TemplateConfig.SubDir config with
  | [] => Join [projectRoot; TemplateConfig.MainFile config]
  | _ :: _ =>
      Join [projectRoot; TemplateConfig.SubDir config; TemplateConfig.MainFile config]
  end.

Definition unsupported (template : gostring) : error :=
  New ("unsupported template: " ++ text template).

Lemma GetMainFileForTemplate_spec (Join : list gostring -> gostring)
    (template projectRoot : gostring) :
  GetMainFileForTemplate Join template projectRoot =
  match ValidateTemplate template with
  | None => Ok (mainFilePath Join (templateConfig template) projectRoot)
  | Some _ => Err (unsupported template)
  end.
Proof.
  unfold GetMainFileForTemplate, mainFilePath, ValidateTemplate, unsupported.
  destruct (existsb _ SupportedTemplates); [|reflexivity].
  cbv zeta. destruct (TemplateConfig.SubDir _); reflexivity.
Qed.

(** X13: [UpdateForTemplate] either changes nothing or changes both the
    template and the main file.  For a supported template it cannot fail:
    it sets [Template] to the template and [MainFile] to the path
    [GetMainFileForTemplate] returns for the project root, and leaves
    [ContextDir] and [ProjectRoot] as they are.  For any other template it
    returns the error [unsupported template: <name>] and leaves the
    configuration as it is. *)
Theorem template_update_is_all_or_nothing (Join : list gostring -> gostring)
    (pc : ProjectConfig.t) (template : gostring) :
  (In template SupportedTemplates ->
   GetMainFileForTemplate Join template (ProjectConfig.ProjectRoot pc) =
     Ok (mainFilePath Join (templateConfig template) (ProjectConfig.ProjectRoot pc)) /\
   UpdateForTemplate Join pc template =
     ({| ProjectConfig.ContextDir := ProjectConfig.ContextDir pc;
         ProjectConfig.Template := template;
         ProjectConfig.MainFile :=
           mainFilePath Join (templateConfig template) (ProjectConfig.ProjectRoot pc);
         ProjectConfig.ProjectRoot := ProjectConfig.ProjectRoot pc |}, None)) /\
  (~ In template SupportedTemplates ->
   GetMainFileForTemplate Join template (ProjectConfig.ProjectRoot pc) =
     Err (unsupported template) /\
   UpdateForTemplate Join pc template = (pc, Some (unsupported template))).
Proof.
  unfold UpdateForTemplate. cbv zeta. cbn [ProjectConfig.ProjectRoot].
  rewrite GetMainFileForTemplate_spec.
  pose proof (supported template) as Hs. split; intros H.
  - apply Hs in H. rewrite H. split; reflexivity.
  - destruct (ValidateTemplate template) as [e|] eqn:E.
    + split; [reflexivity|]. unfold ValidateTemplate in E.
      destruct (existsb _ SupportedTemplates); [discriminate|].
      injection E as <-. reflexivity.
    + destruct H. now apply Hs.
Qed.

Lemma template_update_is_all_or_nothing_witness :
  Config.UpdateForTemplate (fun elems => Join elems (lit "/"))
    (Config.DefaultConfig (fun elems => Join elems (lit "/")) (lit "."))
    (lit "copilot") =
  ({| ProjectConfig.ContextDir := lit "./context";
      ProjectConfig.Template := lit "copilot";
      ProjectConfig.MainFile := lit "./.github/copilot-instructions.md";
      ProjectConfig.ProjectRoot := lit "." |}, None).
Proof.
  destruct (@template_update_is_all_or_nothing
              (fun elems => Join elems (lit "/"))
              (Config.DefaultConfig (fun elems => Join elems (lit "/")) (lit "."))
              (lit "copilot")) as [H _].
  destruct H as [_ H]; [vm_compute; tauto|]. exact H.
Defined.

(** X14: the tables of the three packages agree on the supported
    templates: a template [config.ValidateTemplate] accepts has an entry in
    [TemplateConfigs] whose main file is not empty and is the name
    [getIndexFileName] prints, it has a description of its own, and its
    name passes [validation.ValidateTemplateName], the check the commands
    run before [config.ValidateTemplate]. *)
Theorem template_tables_agree (template : gostring) :
  ValidateTemplate template = None ->
  In (template, templateConfig template) TemplateConfigs /\
  TemplateConfig.MainFile (templateConfig template) <> [] /\
  ConvertSteps.getIndexFileName template =
    TemplateConfig.MainFile (templateConfig template) /\
  Template.getTemplateDescription template <> lit "No description available" /\
  Validation.ValidateTemplateName template = None.
Proof.
  intros H. apply supported in H.
  repeat (destruct H as [<-|H];
          [repeat split; try (vm_compute; reflexivity); try (vm_compute; tauto);
           intros E; vm_compute in E; discriminate E|]).
  destruct H.
Qed.

Lemma template_tables_agree_witness :
  ConvertSteps.getIndexFileName (lit "gemini") =
  TemplateConfig.MainFile (templateConfig (lit "gemini")).
Proof.
  destruct (@template_tables_agree (lit "gemini")) as (_ & _ & H & _);
    [vm_compute; reflexivity | exact H].
Defined.

End Templates.

(** ** The convert command: accepted inputs *)

Module Inputs.
Import Go ConvertSteps.

Lemma accepted_path_parenFree (path : gostring) (pathType : string) :
  Validation.validatePathCommon path pathType = None -> IndexSync.parenFree path.
Proof.
  intros H. apply Accepted.validatePathCommon_spec in H.
  destruct H as (_ & _ & H & _). apply H. vm_compute. tauto.
Qed.

Section WithFileSystem.

Variable unicodeLower : gostring -> gostring.
Variable fs : Os.FileSystem.
Variable flags : Flags.

(** X15: when [validateConvertInputs] returns no error, the source is a
    markdown file as [ValidateMarkdownFile] asks, the template is a
    supported one, the name of the context directory is an accepted path
    and so holds no parenthesis, with backups enabled the backup directory
    is an accepted path other than the context directory, and without
    [--force] an existing context directory whose entries can be read is
    empty. *)
Theorem accepted_convert_inputs :
  validateConvertInputs unicodeLower fs flags = None ->
  SourceFile.markdownSource unicodeLower fs (sourceFile flags) /\
  In (templateType flags) Config.SupportedTemplates /\
  Validation.ValidateDirectoryPath (contextDir flags) = None /\
  IndexSync.parenFree (contextDir flags) /\
  (noBackup flags = false ->
   Validation.ValidateDirectoryPath (backupDir flags) = None /\
   contextDir flags <> backupDir flags) /\
  (force flags = false ->
   forall info files,
     Os.Stat fs (contextDir flags) = Os.Info info ->
     Os.FileInfo.IsDir info = true ->
     Os.Entries fs (contextDir flags) = Ok files ->
     files = []).
Proof.
  unfold validateConvertInputs, checkDirectoryConflicts.
  destruct (Validation.ValidateMarkdownFile _ _ _) eqn:Hsource; [discriminate|].
  destruct (Validation.ValidateTemplateName _); [discriminate|].
  destruct (Config.ValidateTemplate _) eqn:Htemplate; [discriminate|].
  destruct (if negb (noBackup flags) then _ else None) eqn:Hbackup; [discriminate|].
  destruct (Validation.ValidateDirectoryPath (contextDir flags)) eqn:Hdir; [discriminate|].
  cbv zeta. intros H.
  split; [now apply SourceFile.ValidateMarkdownFile_spec|].
  split; [now apply Templates.supported|].
  split; [reflexivity|].
  split; [exact (accepted_path_parenFree _ _ Hdir)|].
  split.
  - intros Hno. rewrite Hno in Hbackup, H. cbn [negb andb] in Hbackup, H.
    split; [exact Hbackup|].
    destruct (match Os.Stat fs (contextDir flags) with Os.Info _ => _ | _ => None end);
      [discriminate|].
    destruct (eqs (contextDir flags) (backupDir flags)) eqn:E; [discriminate|].
    now apply IndexSync.eqs_false.
  - intros Hforce info files Hstat Hisdir Hentries.
    rewrite Hstat, Hisdir, Hentries, Hforce in H. cbn [Os.ReadDir negb] in H.
    rewrite andb_true_r in H.
    destruct files as [|entry files]; [reflexivity|]. exfalso.
    pose proof (Permutation_length (EntrySort.Permuted_sort (entry :: files))) as Hlen.
    cbn [length] in Hlen.
    destruct (Z.ltb_spec 0 (Z.of_nat (length (EntrySort.sort (entry :: files)))));
      [discriminate | lia].
Qed.

End WithFileSystem.

(** A project whose source file [notes.md] holds a line of text and that
    has no context directory yet. *)
Definition freshProject : Os.FileSystem :=
  {| Os.Stat := fun path =>
       if eqs path (lit "notes.md")
       then Os.Info {| Os.FileInfo.IsDir := false; Os.FileInfo.Size := 12 |}
       else Os.NotExist (New "no such file or directory");
     Os.Open := fun _ => None;
     Os.ReadFile := fun _ => Ok (lit "## Notes" ++ [byte 10] ++ lit "a b");
     Os.Entries := fun _ => Err (New "no such file or directory") |}.

Definition freshFlags : Flags :=
  {| sourceFile := lit "notes.md";
     templateType := lit "claude";
     backupDir := lit "backup";
     contextDir := lit "context";
     noBackup := false;
     force := false |}.

Lemma accepted_convert_inputs_witness :
  IndexSync.parenFree (contextDir freshFlags).
Proof.
  destruct (@accepted_convert_inputs Naming.noCaseTables freshProject freshFlags)
    as (_ & _ & _ & H & _); [vm_compute; reflexivity | exact H].
Defined.

End Inputs.

(** ** The convert command: the chapter files it writes *)

Module ChapterFiles.
Import Go ConvertSteps.

Lemma find_snoc (A : Type) (f : A -> bool) (l : list A) (x : A) :
  find f (l ++ [x]) =
  match find f l with
  | Some y => Some y
  | None => if f x then Some x else None
  end.
Proof.
  induction l as [|y l IH]; simpl; [reflexivity|].
  destruct (f y); [reflexivity | exact IH].
Qed.

(** The last file of the list that has the name [name]. *)
Definition lastNamed (name : gostring) (contextFiles : list ContextFile.t) :
    option ContextFile.t :=
  find (fun file => eqs name (ContextFile.FileName file)) (rev contextFiles).

(** The function of [Cmd] that only tells the error is the second component
    of the one that also tells the directory. *)
Lemma writeContextFiles_error (unicodeLower : gostring -> gostring)
    (env : Cmd.ConvertEnv) (denied : gostring -> option error)
    (contextFiles : list ContextFile.t) :
  (forall name content, Cmd.writeFile env name content = denied name) ->
  forall d, Cmd.writeContextFiles env contextFiles =
            snd (writeContextFiles denied d contextFiles).
Proof.
  intros Hdenied. induction contextFiles as [|file rest IH]; intros d; [reflexivity|].
  cbn [Cmd.writeContextFiles writeContextFiles]. cbv zeta. rewrite Hdenied.
  destruct (denied (ContextFile.FileName file)); [reflexivity | apply IH].
Qed.

(** X16: when [writeContextFiles] returns no error, a file of the context
    directory holds the chapter text of the last context file that has its
    name, and a file whose name no context file has is as it was.  So of
    two context files with the same name only the later one is on disk. *)
Theorem later_file_overwrites_earlier (denied : gostring -> option error)
    (contextFiles : list ContextFile.t) (d d' : directory) (name : gostring) :
  writeContextFiles denied d contextFiles = (d', None) ->
  d' name =
  match lastNamed name contextFiles with
  | Some file => Some (chapterText file)
  | None => d name
  end.
Proof.
  unfold lastNamed. revert d d'.
  induction contextFiles as [|file rest IH]; intros d d' H.
  - injection H as <-. reflexivity.
  - cbn [writeContextFiles] in H. cbv zeta in H.
    destruct (denied (ContextFile.FileName file)); [discriminate|].
    rewrite (IH _ _ H). cbn [rev]. rewrite find_snoc.
    destruct (find _ (rev rest)); [reflexivity|].
    unfold put. destruct (eqs name (ContextFile.FileName file)); reflexivity.
Qed.

(** Two sections that were given the same name. *)
Definition first : ContextFile.t :=
  {| ContextFile.FileName := lit "setup.md";
     ContextFile.Content := lit "first text";
     ContextFile.WordCount := 2;
     ContextFile.TokenCount := 2;
     ContextFile.Summary := lit "first text";
     ContextFile.KeyTerms := [] |}.

Definition second : ContextFile.t :=
  {| ContextFile.FileName := lit "setup.md";
     ContextFile.Content := lit "second text";
     ContextFile.WordCount := 2;
     ContextFile.TokenCount := 2;
     ContextFile.Summary := lit "second text";
     ContextFile.KeyTerms := [] |}.

Lemma later_file_overwrites_earlier_witness :
  fst (writeContextFiles (fun _ => None) (fun _ => None) [first; second])
      (lit "setup.md") =
  Some (lit "# setup" ++ [byte 10; byte 10] ++ lit "second text" ++ [byte 10]).
Proof.
  exact (@later_file_overwrites_earlier (fun _ => None) [first; second]
           (fun _ => None)
           (fst (writeContextFiles (fun _ => None) (fun _ => None) [first; second]))
           (lit "setup.md") eq_refl).
Defined.

End ChapterFiles.

(** ** Package classifier: the context files of the stored sections *)

Module Chapters.
Import Go Classifier.

Lemma TrimSuffix_app (stem suffix : gostring) :
  TrimSuffix (stem ++ suffix) suffix = stem.
Proof.
  unfold TrimSuffix, HasSuffix.
  rewrite rev_app_distr, StringFacts.HasPrefix_app, length_app, Nat.add_sub.
  rewrite firstn_app, Nat.sub_diag, firstn_all. cbn [firstn]. apply app_nil_r.
Qed.

Lemma find_agree (A : Type) (f g : A -> bool) (l : list A) :
  (forall x, In x l -> f x = g x) -> find f l = find g l.
Proof.
  induction l as [|x l IH]; intros H; [reflexivity|]. simpl.
  rewrite (H x) by now left. destruct (g x); [reflexivity|].
  apply IH. intros y Hy. apply H. now right.
Qed.

Lemma firstMatch_agree (table visit : list (gostring * gostring)) (c1 c2 : gostring) :
  Permutation visit table ->
  (forall e, In e table -> MatchString (fst e) c1 = MatchString (fst e) c2) ->
  firstMatch visit c1 = firstMatch visit c2.
Proof.
  intros Hperm H. unfold firstMatch.
  rewrite (@find_agree _ (fun e => MatchString (fst e) c1)
             (fun e => MatchString (fst e) c2) visit); [reflexivity|].
  intros e Hin. apply H. eapply Permutation_in; eauto.
Qed.

Lemma firstSentence_prefix (s : gostring) :
  exists rest, s = firstSentence s ++ rest.
Proof.
  induction s as [|c s [rest IH]]; [now exists []|]. cbn [firstSentence].
  destruct (Ascii.eqb c "."); [now exists (c :: s)|].
  exists rest. cbn [app]. now rewrite <- IH.
Qed.

(** A trimmed text does not start with white space. *)
Lemma TrimSpace_solid (b : gostring) (c : ascii) (t : gostring) :
  TrimSpace b = c :: t -> spaceWidth (c :: t) = 0.
Proof.
  intros H. pose proof (SpaceFacts.TrimSpace_marked b) as Hm. rewrite H in Hm.
  destruct (dropWhile snd (marked b)) as [|x r] eqn:E.
  { apply (f_equal (@length _)) in Hm. unfold marked in Hm.
    rewrite length_combine, SpaceFacts.spaceMask_length in Hm.
    simpl in Hm. lia. }
  apply Accepted.dropWhile_head in E.
  rewrite SpaceFacts.trimR_cons, E in Hm.
  assert (Hhead : hd_error (marked (c :: t)) = Some x)
    by (rewrite Hm; destruct (SpaceFacts.trimR r); reflexivity).
  unfold marked in Hhead. cbn [spaceMask] in Hhead.
  destruct (spaceWidth (c :: t)); [reflexivity|].
  cbn [combine hd_error] in Hhead. injection Hhead as <-. discriminate E.
Qed.

Lemma summary_length (sentence : gostring) :
  (len (if (100 <? len sentence)%Z then firstn 100 sentence ++ lit "..." else sentence)
   <= 103)%Z.
Proof.
  unfold len. destruct (Z.ltb_spec 100 (Z.of_nat (length sentence))); [|lia].
  rewrite length_app, length_firstn. cbn [length lit list_ascii_of_string]. lia.
Qed.

Lemma summary_not_empty (c : ascii) (t : gostring) :
  (if (100 <? len (c :: t))%Z then firstn 100 (c :: t) ++ lit "..." else c :: t) <> [].
Proof. destruct (100 <? len (c :: t))%Z; discriminate. Qed.

(** *** The candidates of a document, by line *)

Definition lineRange (n : Z) (lines : list gostring) (s : ContentSection.t) : Prop :=
  (n <= ContentSection.StartLine s <= ContentSection.EndLine s)%Z /\
  (ContentSection.EndLine s < n + Z.of_nat (length lines))%Z /\
  isHeader (nth (Z.to_nat (ContentSection.StartLine s - n)) lines []) = true.

Definition precedes (a b : ContentSection.t) : Prop :=
  (ContentSection.EndLine a < ContentSection.StartLine b)%Z.

Lemma takeBody_length (lines : list gostring) :
  length (Segmentation.takeBody lines) <= length lines.
Proof.
  induction lines as [|l lines IH]; [reflexivity|]. cbn [Segmentation.takeBody].
  destruct (isHeader l); simpl; lia.
Qed.

Lemma candidates_lineRange (lines : list gostring) :
  forall n, Forall (lineRange n lines) (Segmentation.candidates n lines).
Proof.
  induction lines as [|l lines IH]; intros n; [constructor|].
  cbn [Segmentation.candidates].
  assert (Hrest : Forall (lineRange n (l :: lines))
                         (Segmentation.candidates (n + 1) lines)).
  { eapply Forall_impl; [|apply IH]. intros s (Hs & He & Hh).
    unfold lineRange. cbn [length]. repeat split; try lia.
    replace (Z.to_nat (ContentSection.StartLine s - n))
      with (S (Z.to_nat (ContentSection.StartLine s - (n + 1)))) by lia.
    exact Hh. }
  destruct (isHeader l) eqn:Hl; [|exact Hrest].
  constructor; [|exact Hrest].
  unfold lineRange, Segmentation.sectionOf.
  cbn [ContentSection.StartLine ContentSection.EndLine length].
  pose proof (takeBody_length lines). rewrite Z.sub_diag.
  repeat split; try lia. exact Hl.
Qed.

Lemma candidates_beyond_body (lines : list gostring) :
  forall n,
    Forall (fun s => (n + Z.of_nat (length (Segmentation.takeBody lines))
                      <= ContentSection.StartLine s)%Z)
           (Segmentation.candidates n lines).
Proof.
  induction lines as [|l lines IH]; intros n; [constructor|].
  cbn [Segmentation.takeBody]. destruct (isHeader l) eqn:Hl.
  - eapply Forall_impl; [|apply candidates_lineRange].
    intros s (Hs & _). cbn [length]. lia.
  - cbn [Segmentation.candidates]. rewrite Hl.
    eapply Forall_impl; [|apply (IH (n + 1)%Z)]. intros s Hs. cbv beta in Hs.
    cbn [length]. lia.
Qed.

Lemma candidates_sorted (lines : list gostring) :
  forall n, StronglySorted precedes (Segmentation.candidates n lines).
Proof.
  induction lines as [|l lines IH]; intros n; [constructor|].
  cbn [Segmentation.candidates]. destruct (isHeader l); [|apply IH].
  constructor; [apply IH|].
  eapply Forall_impl; [|apply candidates_beyond_body].
  intros s Hs. cbv beta in Hs. unfold precedes, Segmentation.sectionOf.
  cbn [ContentSection.EndLine]. lia.
Qed.

Lemma filter_sorted (A : Type) (R : A -> A -> Prop) (f : A -> bool) (l : list A) :
  StronglySorted R l -> StronglySorted R (filter f l).
Proof.
  induction 1 as [|x l Hl IH Hx]; simpl; [constructor|].
  destruct (f x); [|exact IH]. constructor; [exact IH|].
  apply Forall_forall. intros y Hy. apply filter_In in Hy.
  rewrite Forall_forall in Hx. apply Hx. tauto.
Qed.

Lemma filter_Forall (A : Type) (P : A -> Prop) (f : A -> bool) (l : list A) :
  Forall P l -> Forall P (filter f l).
Proof.
  rewrite !Forall_forall. intros H x Hx. apply filter_In in Hx. apply H. tauto.
Qed.

Lemma candidates_trimmed (lines : list gostring) :
  forall n,
    Forall (fun s => exists b, ContentSection.Content s = TrimSpace b)
           (Segmentation.candidates n lines).
Proof.
  induction lines as [|l lines IH]; intros n; cbn [Segmentation.candidates];
    [constructor|].
  destruct (isHeader l); [constructor|]; auto.
  now exists (Segmentation.bodyText (Segmentation.takeBody lines)).
Qed.

(** X17: the sections [parseSourceFile] stores lie on line ranges of the
    document that do not overlap and follow each other: with lines counted
    from 1, the line [StartLine] of a section is a header line,
    [StartLine <= EndLine], [EndLine] is at most the number of lines, and
    every section ends before the next one starts. *)
Theorem sections_lie_on_disjoint_line_ranges
    (content : gostring) (lines : list gostring) (secs : list ContentSection.t) :
  ScanLines content = (lines, false) ->
  parseSourceFile (Ok content) = Ok secs ->
  Forall (fun s =>
            (1 <= ContentSection.StartLine s <= ContentSection.EndLine s)%Z /\
            (ContentSection.EndLine s <= Z.of_nat (length lines))%Z /\
            isHeader (nth (Z.to_nat (ContentSection.StartLine s - 1)) lines []) = true)
         secs /\
  StronglySorted precedes secs.
Proof.
  intros Hscan Hparse.
  rewrite (Segmentation.parseSourceFile_scanned _ Hscan) in Hparse.
  injection Hparse as <-. split.
  - apply filter_Forall. eapply Forall_impl; [|apply candidates_lineRange].
    intros s (Hs & He & Hh). repeat split; try lia. exact Hh.
  - apply filter_sorted, candidates_sorted.
Qed.

Lemma sections_lie_on_disjoint_line_ranges_witness :
  StronglySorted precedes
    (filter Segmentation.retained
       (Segmentation.candidates 1
          [ lit "intro"; lit "## Setup"; [];
            lit "alpha beta gamma delta epsilon zeta eta theta iota kappa";
            lit "## Usage";
            lit "one two three four five six seven eight nine ten eleven" ])).
Proof.
  destruct (@sections_lie_on_disjoint_line_ranges Segmentation.sample
              [ lit "intro"; lit "## Setup"; [];
                lit "alpha beta gamma delta epsilon zeta eta theta iota kappa";
                lit "## Usage";
                lit "one two three four five six seven eight nine ten eleven" ]
              (filter Segmentation.retained
                 (Segmentation.candidates 1
                    [ lit "intro"; lit "## Setup"; [];
                      lit "alpha beta gamma delta epsilon zeta eta theta iota kappa";
                      lit "## Usage";
                      lit "one two three four five six seven eight nine ten eleven" ])))
    as [_ H]; [vm_compute; reflexivity | vm_compute; reflexivity | exact H].
Defined.

Section WithCaseTables.

Variable unicodeLower : gostring -> gostring.

(** X18: the summary of every section [parseSourceFile] stores is not
    empty and has at most 103 bytes: at most 100 bytes of the content and
    the three dots. *)
Theorem summaries_are_short_and_not_empty
    (file : result gostring) (secs : list ContentSection.t) (s : ContentSection.t) :
  parseSourceFile file = Ok secs ->
  In s secs ->
  generateContentSummary s <> [] /\
  (len (generateContentSummary s) <= 103)%Z.
Proof.
  intros Hparse Hin.
  destruct (Segmentation.parseSourceFile_inv _ Hparse) as (content & lines & _ & _ & ->).
  apply filter_In in Hin. destruct Hin as [Hin Hkeep].
  pose proof (Segmentation.candidates_wordCount lines 1) as Hwords.
  pose proof (candidates_trimmed lines 1) as Htrim.
  rewrite Forall_forall in Hwords, Htrim.
  specialize (Hwords s Hin). destruct (Htrim s Hin) as [b Hb].
  unfold Segmentation.retained, MinWordCountForFile in Hkeep.
  apply Z.leb_le in Hkeep. rewrite Hwords in Hkeep.
  unfold generateContentSummary. cbv zeta.
  destruct (ContentSection.Content s) as [|c t] eqn:Hc; [simpl in Hkeep; lia|].
  symmetry in Hb. apply TrimSpace_solid in Hb.
  destruct (Z.ltb_spec 10 (len (firstSentence (c :: t)))) as [Hlong|Hshort].
  - split; [|apply summary_length].
    destruct (firstSentence_prefix (c :: t)) as [rest Hrest].
    destruct (firstSentence (c :: t)) as [|c' t'] eqn:Hf;
      [unfold len in Hlong; simpl in Hlong; lia|].
    injection Hrest as <- Hrest. rewrite Hrest in Hb.
    apply (@SpaceFacts.spaceWidth_prefix_zero (c :: t') rest) in Hb.
    destruct (@SpaceFacts.TrimSpace_head c t' Hb) as [t'' ->].
    apply summary_not_empty.
  - split; [apply summary_not_empty | apply summary_length].
Qed.

(** X19: the name of a context file is a stem followed by [.md]; the stem
    is not empty, has at most 60 bytes, holds none of the characters
    [SanitizeFileName] replaces, and is what [strings.TrimSuffix] gives
    back for the heading of the chapter file and for the entry of the
    index. *)
Theorem chapter_names_have_a_short_stem (o : MapOrder) (section : ContentSection.t) :
  exists stem,
    generateDescriptiveFileName unicodeLower o section = stem ++ lit ".md" /\
    stem <> [] /\
    (len stem <= MaxDescriptiveLength)%Z /\
    Forall Identifier.safe stem /\
    TrimSuffix (generateDescriptiveFileName unicodeLower o section) (lit ".md") = stem.
Proof.
  unfold generateDescriptiveFileName. cbv zeta.
  set (fileName := Validation.SanitizeFileName _).
  pose proof (Naming.SanitizeFileName_not_empty
                (Join (addDescriptor
                         (addDescriptor
                            (addDescriptor []
                               (extractTitleDescriptor unicodeLower
                                  (ContentSection.Title section)))
                            (extractTechnologyDescriptor o
                               (ToLower unicodeLower
                                  (ContentSection.Title section ++ lit " " ++
                                   ContentSection.Content section))))
                         (extractFunctionDescriptor o
                            (ToLower unicodeLower
                               (ContentSection.Title section ++ lit " " ++
                                ContentSection.Content section))))
                      (lit "-"))) as Hne.
  pose proof (Identifier.SanitizeFileName_safe
                (Join (addDescriptor
                         (addDescriptor
                            (addDescriptor []
                               (extractTitleDescriptor unicodeLower
                                  (ContentSection.Title section)))
                            (extractTechnologyDescriptor o
                               (ToLower unicodeLower
                                  (ContentSection.Title section ++ lit " " ++
                                   ContentSection.Content section))))
                         (extractFunctionDescriptor o
                            (ToLower unicodeLower
                               (ContentSection.Title section ++ lit " " ++
                                ContentSection.Content section))))
                      (lit "-"))) as Hsafe.
  fold fileName in Hne, Hsafe. clearbody fileName.
  destruct fileName as [|c t]; [congruence|].
  unfold MaxDescriptiveLength, len.
  destruct (Z.ltb_spec 60 (Z.of_nat (length (c :: t)))) as [Hlong|Hshort].
  - change (Z.to_nat 60) with 60. cbn [firstn].
    exists (c :: firstn 59 t). split; [reflexivity|]. split; [discriminate|].
    split; [cbn [length]; rewrite length_firstn; lia|].
    split; [|apply TrimSuffix_app].
    inversion Hsafe; subst. constructor; [assumption|].
    now apply Identifier.firstn_Forall.
  - exists (c :: t). split; [reflexivity|]. split; [discriminate|].
    split; [exact Hshort|]. split; [exact Hsafe | apply TrimSuffix_app].
Qed.

(** X20: the name of a context file depends on the section only through
    its title and through which patterns of the two tables match its text:
    two sections with the same title whose lower-cased texts match the same
    patterns get the same name, whatever else their contents hold. *)
Theorem sections_alike_get_the_same_name
    (o : MapOrder) (s1 s2 : ContentSection.t) :
  rangeOrder o ->
  ContentSection.Title s1 = ContentSection.Title s2 ->
  (forall e, In e (techPatterns ++ funcPatterns) ->
     MatchString (fst e) (Further.matchedText unicodeLower s1) =
     MatchString (fst e) (Further.matchedText unicodeLower s2)) ->
  generateDescriptiveFileName unicodeLower o s1 =
  generateDescriptiveFileName unicodeLower o s2.
Proof.
  intros [Ht Hf] Htitle Hsame.
  unfold generateDescriptiveFileName, extractTechnologyDescriptor,
    extractFunctionDescriptor. cbv zeta.
  fold (Further.matchedText unicodeLower s1). fold (Further.matchedText unicodeLower s2).
  rewrite Htitle.
  rewrite (@firstMatch_agree techPatterns (techOrder o) _ _ Ht)
    by (intros e He; apply Hsame, in_or_app; now left).
  rewrite (@firstMatch_agree funcPatterns (funcOrder o) _ _ Hf)
    by (intros e He; apply Hsame, in_or_app; now right).
  reflexivity.
Qed.

End WithCaseTables.

(** Two sections on the set-up of a cache that differ in their contents. *)
Definition cacheSetup : ContentSection.t :=
  {| ContentSection.Title := lit "Cache Setup";
     ContentSection.Content := lit "Start redis before the workers and wait for it";
     ContentSection.StartLine := 1;
     ContentSection.EndLine := 2;
     ContentSection.WordCount := 9 |}.

Definition cacheSetupAgain : ContentSection.t :=
  {| ContentSection.Title := lit "Cache Setup";
     ContentSection.Content := lit "Stop redis after the workers have written their state";
     ContentSection.StartLine := 3;
     ContentSection.EndLine := 4;
     ContentSection.WordCount := 9 |}.

Lemma sections_alike_get_the_same_name_witness :
  generateDescriptiveFileName Naming.noCaseTables Naming.reversed cacheSetup =
  generateDescriptiveFileName Naming.noCaseTables Naming.reversed cacheSetupAgain.
Proof.
  apply (@sections_alike_get_the_same_name Naming.noCaseTables Naming.reversed
           cacheSetup cacheSetupAgain).
  - apply Naming.rangeOrder_reversed.
  - reflexivity.
  - intros e He.
    repeat (destruct He as [<-|He]; [vm_compute; reflexivity|]). destruct He.
Defined.

Lemma summaries_are_short_and_not_empty_witness :
  generateContentSummary
    (Segmentation.sectionOf (lit "## Usage") 5
       [lit "one two three four five six seven eight nine ten eleven"]) <> [].
Proof.
  destruct (@summaries_are_short_and_not_empty (Ok Segmentation.sample)
              (filter Segmentation.retained
                 (Segmentation.candidates 1
                    [ lit "intro"; lit "## Setup"; [];
                      lit "alpha beta gamma delta epsilon zeta eta theta iota kappa";
                      lit "## Usage";
                      lit "one two three four five six seven eight nine ten eleven" ]))
              (Segmentation.sectionOf (lit "## Usage") 5
                 [lit "one two three four five six seven eight nine ten eleven"]))
    as [H _]; [vm_compute; reflexivity | vm_compute; tauto | exact H].
Defined.

End Chapters.

(** ** The scanner's limit and the dry run *)

Module Limits.
Import Go Classifier Cmd.

Definition lineFeed : ascii := byte 10.

(** X21: a source that holds 65536 bytes or more in a row without a line
    feed is not segmented: [parseSourceFile] returns the error of the
    scanner, [token too long], and stores no section, also when complete
    sections come before the long line. *)
Theorem overlong_line_fails_the_parse (before run rest : gostring) :
  Forall (fun c => c <> lineFeed) run ->
  (MaxScanTokenSize <= len run)%Z ->
  parseSourceFile (Ok (before ++ run ++ rest)) =
  Err (Wrap "error scanning file" ErrTooLong).
Proof.
  exact (@Convert.parse_overlong before run rest).
Qed.

Lemma overlong_line_fails_the_parse_witness :
  parseSourceFile
    (Ok ((lit "## Notes" ++ [lineFeed]) ++
         repeat "a"%char (Z.to_nat MaxScanTokenSize) ++ [])) =
  Err (Wrap "error scanning file" ErrTooLong).
Proof.
  apply (@overlong_line_fails_the_parse (lit "## Notes" ++ [lineFeed])
           (repeat "a"%char (Z.to_nat MaxScanTokenSize)) []).
  - apply Forall_forall. intros c Hc. apply repeat_spec in Hc. subst c. discriminate.
  - unfold len. rewrite repeat_length, Z2Nat.id; [lia | discriminate].
Defined.

(** X22: a dry run of the convert command consults neither the backup nor
    any step that writes: its result is the error of the validation of the
    inputs, or the error of the analysis (among them the one for a source
    without sections), or success; whatever the creation of the backup, of
    the directory, of the chapter files and of the index would answer. *)
Theorem dry_run_writes_nothing
    (unicodeLower : gostring -> gostring) (env : ConvertEnv) (noBackup : bool) :
  runConvert unicodeLower env true noBackup =
  match validateConvertInputs env with
  | Some e => Value (Some e)
  | None =>
      match analyzeAndGenerateFiles unicodeLower env with
      | Err e => Value (Some e)
      | Ok _ => Value None
      end
  end.
Proof.
  unfold runConvert. destruct (validateConvertInputs env); [reflexivity|].
  cbn [negb andb].
  destruct (analyzeAndGenerateFiles unicodeLower env) as [files|e] eqn:Hok;
    [|reflexivity].
  apply Convert.analyzeAndGenerateFiles_not_empty in Hok.
  unfold previewConversion. now rewrite Convert.quo_defined.
Qed.

End Limits.

(** ** The convert command: the backup of the source *)

Module Backups.
Import Go ConvertSteps.

Lemma extFrom_suffix (reversed : gostring) :
  forall seen, exists stem, rev reversed ++ seen = stem ++ extFrom reversed seen.
Proof.
  induction reversed as [|c before IH]; intros seen.
  - exists seen. cbn [rev app extFrom]. now rewrite app_nil_r.
  - cbn [extFrom rev]. rewrite <- app_assoc. cbn [app].
    destruct (Ascii.eqb c "/").
    + exists (rev before ++ c :: seen). now rewrite app_nil_r.
    + destruct (Ascii.eqb c "."); [now exists (rev before) | apply IH].
Qed.

(** A name is its stem followed by its extension. *)
Lemma Ext_suffix (name : gostring) :
  name = TrimSuffix name (Ext name) ++ Ext name.
Proof.
  unfold Ext. destruct (extFrom_suffix (rev name) []) as [stem H].
  rewrite rev_involutive, app_nil_r in H.
  rewrite H at 2. rewrite Chapters.TrimSuffix_app. exact H.
Qed.

Lemma eqs_refl (s : gostring) : eqs s s = true.
Proof. now apply SourceFile.eqs_eq. Qed.

(** The second name [createBackup] tries is longer than the first. *)
Lemma second_name_differs (safeName : gostring) (n : nat) :
  TrimSuffix safeName (Ext safeName) ++ lit "_backup_" ++ FormatInt n ++ Ext safeName
  <> safeName.
Proof.
  intros E. apply (f_equal (@length _)) in E.
  rewrite (Ext_suffix safeName) in E at 4.
  rewrite !length_app in E. cbn [length lit list_ascii_of_string] in E. lia.
Qed.

Lemma put_other (d : directory) (name content other : gostring) :
  other <> name -> put d name content other = d other.
Proof.
  intros Hne. unfold put. destruct (eqs other name) eqn:E; [|reflexivity].
  apply SourceFile.eqs_eq in E. congruence.
Qed.

Lemma remove_other (d : directory) (name other : gostring) :
  other <> name -> remove d name other = d other.
Proof.
  intros Hne. unfold remove. destruct (eqs other name) eqn:E; [|reflexivity].
  apply SourceFile.eqs_eq in E. congruence.
Qed.

(** The check of the directory touches the test file only, and leaves it
    absent, or empty when it cannot be removed. *)
Lemma ValidateDirectoryWritable_spec (path : gostring) (dirStat : Os.status)
    (mkdirAll createDenied : option error) (removed : bool) (d checked : directory) :
  ValidateDirectoryWritable path dirStat mkdirAll createDenied removed d
    = (checked, None) ->
  (forall other, other <> writeTest -> checked other = d other) /\
  checked writeTest =
    match dirStat with
    | Os.Info _ => if removed then None else Some []
    | _ => d writeTest
    end.
Proof.
  unfold ValidateDirectoryWritable.
  destruct (Validation.ValidateDirectoryPath path); [discriminate|].
  destruct dirStat as [info|e|e].
  - destruct (negb (Os.FileInfo.IsDir info)); [discriminate|].
    destruct createDenied; [discriminate|]. cbv zeta.
    intros H. injection H as <-. split.
    + intros other Hne. destruct removed.
      * rewrite remove_other by exact Hne. now apply put_other.
      * now apply put_other.
    + destruct removed.
      * unfold remove. now rewrite eqs_refl.
      * unfold put. now rewrite eqs_refl.
  - destruct mkdirAll; [discriminate|]. intros H. injection H as <-. auto.
  - discriminate.
Qed.

(** X23: when [createBackup] returns no error, the backup directory holds
    the content of the source under the name it wrote to; the test file of
    the writability check is absent, or empty when it could not be
    removed, unless the backup itself has that name or the directory was
    only just created; and all other files are as they were.  The name
    written to is the sanitized base name of the source when the directory
    held no such file; otherwise it is another name, so the backup found
    under the name of the source is never written over. *)
Theorem first_backup_is_kept
    (backupDir : gostring) (dirStat : Os.status)
    (mkdirAll createDenied : option error) (removed : bool)
    (source : result gostring) (denied : gostring -> option error)
    (d d' : directory) (sourceFile : gostring) :
  createBackup backupDir dirStat mkdirAll createDenied removed source denied
    d sourceFile = (d', None) ->
  let safeName := Validation.SanitizeFileName (Base sourceFile) in
  exists content checked,
    source = Ok content /\
    ValidateDirectoryWritable backupDir dirStat mkdirAll createDenied removed d
      = (checked, None) /\
    let target := backupFile checked sourceFile content in
    d' target = Some content /\
    (forall other, other <> target -> other <> writeTest -> d' other = d other) /\
    (target <> writeTest ->
     d' writeTest =
       match dirStat with
       | Os.Info _ => if removed then None else Some []
       | _ => d writeTest
       end) /\
    (checked safeName = None -> target = safeName) /\
    (checked safeName <> None -> target <> safeName /\ d' safeName = checked safeName) /\
    (safeName <> writeTest -> checked safeName = d safeName).
Proof.
  intros Hrun safeName. unfold createBackup in Hrun.
  destruct (ValidateDirectoryWritable backupDir dirStat mkdirAll createDenied removed d)
    as [checked [e|]] eqn:Hcheck; [discriminate|].
  destruct source as [content|e]; [|discriminate]. cbv zeta in Hrun.
  destruct (denied (backupFile checked sourceFile content)); [discriminate|].
  injection Hrun as <-. exists content, checked.
  destruct (ValidateDirectoryWritable_spec _ _ _ _ _ _ Hcheck) as [Hrest Htest].
  split; [reflexivity|]. split; [reflexivity|]. cbv zeta.
  split; [unfold put; now rewrite eqs_refl|].
  split; [intros other Hne Htmp; rewrite put_other by exact Hne; now apply Hrest|].
  split; [intros Hne; rewrite put_other by (intros E; apply Hne; now symmetry);
          exact Htest|].
  split; [|split].
  - intros Hfree. unfold backupFile. cbv zeta. fold safeName. now rewrite Hfree.
  - intros Hheld.
    assert (Hne : backupFile checked sourceFile content <> safeName).
    { unfold backupFile. cbv zeta. fold safeName.
      destruct (checked safeName); [|congruence]. apply second_name_differs. }
    split; [exact Hne|]. apply put_other. intros E. apply Hne. now symmetry.
  - intros Hne. now apply Hrest.
Qed.

(** A backup directory that holds a backup of [notes.md] and a file with
    the name of the test file. *)
Definition oneBackup : directory :=
  fun name =>
    if eqs name (lit "notes.md") then Some (lit "old text")
    else if eqs name writeTest then Some (lit "kept by the user")
    else None.

Definition existingDirectory : Os.status :=
  Os.Info {| Os.FileInfo.IsDir := true; Os.FileInfo.Size := 4096 |}.

Lemma first_backup_is_kept_witness :
  let d' := fst (createBackup (lit "backups") existingDirectory None None true
                   (Ok (lit "new text")) (fun _ => None) oneBackup
                   (lit "docs/notes.md")) in
  d' (lit "notes_backup_8.md") = Some (lit "new text") /\
  d' (lit "notes.md") = Some (lit "old text") /\
  d' writeTest = None /\
  oneBackup writeTest = Some (lit "kept by the user").
Proof.
  cbv zeta.
  destruct (@first_backup_is_kept (lit "backups") existingDirectory None None true
              (Ok (lit "new text")) (fun _ => None) oneBackup
              (fst (createBackup (lit "backups") existingDirectory None None true
                      (Ok (lit "new text")) (fun _ => None) oneBackup
                      (lit "docs/notes.md")))
              (lit "docs/notes.md") eq_refl)
    as (content & checked & Hsource & Hcheck & Hnew & Hothers & Htest & _ & Hold & Hsame).
  assert (Hcontent : content = lit "new text") by congruence. subst content.
  assert (Hname : Validation.SanitizeFileName (Base (lit "docs/notes.md")) = lit "notes.md")
    by (vm_compute; reflexivity).
  rewrite Hname in Hold, Hsame.
  assert (Hheld : checked (lit "notes.md") = Some (lit "old text")).
  { rewrite Hsame; [reflexivity|]. apply IndexSync.eqs_false. vm_compute. reflexivity. }
  assert (Htarget : backupFile checked (lit "docs/notes.md") (lit "new text")
                    = lit "notes_backup_8.md").
  { unfold backupFile. cbv zeta. rewrite Hname, Hheld. vm_compute. reflexivity. }
  rewrite Htarget in Hnew, Htest, Hold.
  split; [exact Hnew|]. split; [|split].
  - destruct Hold as [_ Hold]; [rewrite Hheld; discriminate|].
    now rewrite Hold.
  - apply Htest. apply IndexSync.eqs_false. vm_compute. reflexivity.
  - reflexivity.
Defined.

End Backups.

(** ** Package classifier: titles and contents are trimmed *)

Module Trimmed.
Import Go Classifier.

Lemma dropWhile_twice (A : Type) (p : A -> bool) (l : list A) :
  dropWhile p (dropWhile p l) = dropWhile p l.
Proof.
  induction l as [|x l IH]; [reflexivity|]. cbn [dropWhile].
  destruct (p x) eqn:E; [exact IH|]. cbn [dropWhile]. now rewrite E.
Qed.

Lemma trimR_twice (l : list (ascii * bool)) :
  SpaceFacts.trimR (SpaceFacts.trimR l) = SpaceFacts.trimR l.
Proof.
  unfold SpaceFacts.trimR. now rewrite rev_involutive, dropWhile_twice.
Qed.

Lemma dropWhile_trimR (l : list (ascii * bool)) :
  dropWhile snd (SpaceFacts.trimR (dropWhile snd l)) =
  SpaceFacts.trimR (dropWhile snd l).
Proof.
  destruct (dropWhile snd l) as [|x r] eqn:E; [reflexivity|].
  apply Accepted.dropWhile_head in E. rewrite SpaceFacts.trimR_cons, E.
  destruct (SpaceFacts.trimR r); cbn [dropWhile]; now rewrite E.
Qed.

(** Trimming a trimmed text changes nothing. *)
Lemma TrimSpace_twice (s : gostring) : TrimSpace (TrimSpace s) = TrimSpace s.
Proof.
  unfold TrimSpace at 1.
  fold (SpaceFacts.trimR (dropWhile snd (marked (TrimSpace s)))).
  rewrite SpaceFacts.TrimSpace_marked, dropWhile_trimR, trimR_twice.
  reflexivity.
Qed.

Lemma candidates_titles (lines : list gostring) :
  forall n,
    Forall (fun s => exists b, ContentSection.Title s = TrimSpace b)
           (Segmentation.candidates n lines).
Proof.
  induction lines as [|l lines IH]; intros n; cbn [Segmentation.candidates];
    [constructor|].
  destruct (isHeader l); [constructor|]; auto.
  now exists (TrimLeft l (lit "#")).
Qed.

(** X24: the sections [parseSourceFile] stores are trimmed: neither the
    title nor the content starts or ends with white space, so trimming
    them again changes nothing, and the content is not empty. *)
Theorem stored_sections_are_trimmed
    (file : result gostring) (secs : list ContentSection.t) (s : ContentSection.t) :
  parseSourceFile file = Ok secs ->
  In s secs ->
  TrimSpace (ContentSection.Title s) = ContentSection.Title s /\
  TrimSpace (ContentSection.Content s) = ContentSection.Content s /\
  ContentSection.Content s <> [].
Proof.
  intros Hparse Hin.
  destruct (Segmentation.parseSourceFile_inv _ Hparse) as (content & lines & _ & _ & ->).
  apply filter_In in Hin. destruct Hin as [Hin Hkeep].
  pose proof (Segmentation.candidates_wordCount lines 1) as Hwords.
  pose proof (Chapters.candidates_trimmed lines 1) as Hcontent.
  pose proof (candidates_titles lines 1) as Htitle.
  rewrite Forall_forall in Hwords, Hcontent, Htitle.
  destruct (Hcontent s Hin) as [b Hb]. destruct (Htitle s Hin) as [h Hh].
  split; [rewrite Hh; apply TrimSpace_twice|].
  split; [rewrite Hb; apply TrimSpace_twice|].
  intros Hempty. unfold Segmentation.retained, MinWordCountForFile in Hkeep.
  apply Z.leb_le in Hkeep. rewrite (Hwords s Hin), Hempty in Hkeep.
  simpl in Hkeep. lia.
Qed.

Lemma stored_sections_are_trimmed_witness :
  TrimSpace
    (ContentSection.Content
       (Segmentation.sectionOf (lit "## Usage") 5
          [lit "one two three four five six seven eight nine ten eleven"])) =
  ContentSection.Content
    (Segmentation.sectionOf (lit "## Usage") 5
       [lit "one two three four five six seven eight nine ten eleven"]).
Proof.
  destruct (@stored_sections_are_trimmed (Ok Segmentation.sample)
              (filter Segmentation.retained
                 (Segmentation.candidates 1
                    [ lit "intro"; lit "## Setup"; [];
                      lit "alpha beta gamma delta epsilon zeta eta theta iota kappa";
                      lit "## Usage";
                      lit "one two three four five six seven eight nine ten eleven" ]))
              (Segmentation.sectionOf (lit "## Usage") 5
                 [lit "one two three four five six seven eight nine ten eleven"]))
    as (_ & H & _); [vm_compute; reflexivity | vm_compute; tauto | exact H].
Defined.

End Trimmed.

(** ** The update command lists what the convert command listed *)

Module Relisting.
Import Go Cmd.

Lemma N_of_ascii_inj (c d : ascii) : N_of_ascii c = N_of_ascii d -> c = d.
Proof.
  intros H. rewrite <- (ascii_N_embedding c), <- (ascii_N_embedding d). now rewrite H.
Qed.

Lemma leStr_antisym (s : gostring) :
  forall t, leStr s t = true -> leStr t s = true -> s = t.
Proof.
  induction s as [|c s IH]; intros [|d t]; simpl; try discriminate; [reflexivity|].
  intros H1 H2.
  apply orb_true_iff in H1. apply orb_true_iff in H2.
  rewrite andb_true_iff, N.ltb_lt, N.eqb_eq in H1, H2.
  destruct H1 as [H1|[E H1]], H2 as [H2|[E' H2]]; try lia.
  apply N_of_ascii_inj in E. subst d. f_equal. now apply IH.
Qed.

(** A list of names has one arrangement in ascending order. *)
Lemma sorted_unique (l : list gostring) :
  forall l',
    StronglySorted UpdateScan.before l -> StronglySorted UpdateScan.before l' ->
    Permutation l l' -> l = l'.
Proof.
  induction l as [|x l IH]; intros l' Hl Hl' Hperm.
  - apply Permutation_nil in Hperm. now subst.
  - destruct l' as [|y l'].
    { apply Permutation_sym, Permutation_nil in Hperm. discriminate. }
    inversion Hl as [|? ? Hl1 Hx]; subst. inversion Hl' as [|? ? Hl1' Hy]; subst.
    rewrite Forall_forall in Hx, Hy.
    assert (E : x = y).
    { assert (Hxin : In x (y :: l')) by (eapply Permutation_in; eauto; now left).
      assert (Hyin : In y (x :: l))
        by (eapply Permutation_in; [apply Permutation_sym; eauto | now left]).
      destruct Hxin as [E|Hxin]; [now symmetry|].
      destruct Hyin as [E|Hyin]; [assumption|].
      apply leStr_antisym; [exact (Hx y Hyin) | exact (Hy x Hxin)]. }
    subst y. f_equal. apply IH; try assumption.
    eapply Permutation_cons_inv; eauto.
Qed.

(** The chapter list depends on the context files only through their
    names. *)
Lemma chapterListFrom_names (files files' : list ContextFile.t) (dir : gostring) :
  map ContextFile.FileName files = map ContextFile.FileName files' ->
  forall i, chapterListFrom i files dir = chapterListFrom i files' dir.
Proof.
  revert files'. induction files as [|f files IH]; intros [|f' files'] H i;
    try discriminate; [reflexivity|].
  cbn [map] in H. injection H as Hname Hrest.
  cbn [chapterListFrom]. unfold chapterEntry. cbv zeta.
  now rewrite Hname, (IH files' Hrest).
Qed.

(** X25: when the names of the context files a conversion wrote are in
    ascending byte order and the markdown files of the directory are the
    files with these names, [scanContextDirectory] finds the same names in
    the same order, and the update command writes into an index the text
    the convert command writes into it for the directory [context]. *)
Theorem update_lists_what_convert_listed
    (content : gostring) (contextFiles : list ContextFile.t) (entries : list DirEntry) :
  StronglySorted UpdateScan.before (map ContextFile.FileName contextFiles) ->
  Permutation (map Name (filter UpdateScan.isChapter entries))
              (map ContextFile.FileName contextFiles) ->
  exists chapterFiles,
    scanContextDirectory (Ok entries) = Ok chapterFiles /\
    map ContextFile.FileName chapterFiles = map ContextFile.FileName contextFiles /\
    updatedContent content chapterFiles (lit "context") =
    updatedContent content contextFiles (lit "context").
Proof.
  intros Hsorted Hperm.
  exists (collectMarkdown (EntrySort.sort entries)). split; [reflexivity|].
  assert (Hnames : map ContextFile.FileName (collectMarkdown (EntrySort.sort entries)) =
                   map ContextFile.FileName contextFiles).
  { rewrite UpdateScan.collectMarkdown_spec, map_map. cbn [onlyFileName ContextFile.FileName].
    rewrite map_id. apply sorted_unique.
    - apply UpdateScan.sorted_names.
    - exact Hsorted.
    - eapply Permutation_trans; [|exact Hperm].
      apply Permutation_map, UpdateScan.filter_Permutation, Permutation_sym,
        EntrySort.Permuted_sort. }
  split; [exact Hnames|].
  unfold updatedContent, chapterList.
  now rewrite (@chapterListFrom_names _ _ (lit "context") Hnames 0).
Qed.

Lemma update_lists_what_convert_listed_witness :
  exists chapterFiles,
    scanContextDirectory (Ok UpdateScan.sampleDirectory) = Ok chapterFiles /\
    map ContextFile.FileName chapterFiles = [lit "db-schema.md"; lit "login-auth.md"] /\
    updatedContent IndexSync.chapterPlaceholder chapterFiles (lit "context") =
    updatedContent IndexSync.chapterPlaceholder
      (map onlyFileName [lit "db-schema.md"; lit "login-auth.md"]) (lit "context").
Proof.
  apply (@update_lists_what_convert_listed IndexSync.chapterPlaceholder
           (map onlyFileName [lit "db-schema.md"; lit "login-auth.md"])
           UpdateScan.sampleDirectory).
  - repeat constructor.
  - vm_compute. apply perm_swap.
Defined.

End Relisting.
